(** * MinexPy-GUI: temporary object stores with time-to-live expiry

    A shallow embedding of
      - [minexpygui/services/dataset_store.py]
      - [minexpygui/services/result_store.py]
      - the sweep scheduling of [minexpygui/__init__.py]
      - the column names of [minexpygui/services/file_parser.py]
      - the selection checks of [minexpygui/services/minexpy_adapter.py]
      - the selection and the download view of
        [minexpygui/routes/analysis.py]
    over an explicit model of the file system calls these modules make
    ([pathlib.Path.exists], [stat], [unlink], [glob], [mkdir],
    reads and writes), followed by the properties of the stores.

    Conventions of the model.
      - A [Path] is the list of its components; [storage_path / name]
        appends one component.
      - Time stamps ([time.time()], [st_mtime]) and [ttl_seconds] are
        integers counted in one common unit; the clock is part of the
        world and only moves when [advance] moves it.
      - Python exceptions are values of [exn]; every computation runs in
        the state-and-exception monad [M] over [world], and the world
        keeps the changes made before an exception was raised.
      - The world carries the [trace] of the file system calls issued so
        far, so that "does not touch the file system" can be stated.
      - A Python [str] is a [string] whose characters are code points
        below 256; [str.strip] removes the white space among them. *)

From stdpp Require Import base gmap list strings pretty.
From Stdlib Require Import ZArith Lia Ascii Floats.

Open Scope Z_scope.

(* ===================================================================== *)
(** ** Python strings *)
(* ===================================================================== *)

Module PyStr.

(** [len(s)] *)
Fixpoint len (s : string) : Z :=
  match s with
  | EmptyString => 0
  | String _ s' => 1 + len s'
  end.

(** [s.endswith(suf)]: some tail of [s] is [suf]. *)
Fixpoint endswith (s suf : string) : bool :=
  if decide (s = suf) then true
  else match s with
       | EmptyString => false
       | String _ s' => endswith s' suf
       end.

(** [s.rfind(c)], scanning from index [i] with the best index so far. *)
Fixpoint rfind_from (c : ascii) (s : string) (i best : Z) : Z :=
  match s with
  | EmptyString => best
  | String a s' => rfind_from c s' (i + 1) (if decide (a = c) then i else best)
  end.

(** [s.rfind(c)]: the highest index of [c] in [s], or [-1]. *)
Definition rfind (c : ascii) (s : string) : Z := rfind_from c s 0 (-1).

(** [s[:i]] for [0 <= i]. *)
Fixpoint slice_to (i : nat) (s : string) : string :=
  match i, s with
  | S i', String a s' => String a (slice_to i' s')
  | _, _ => EmptyString
  end.

(** The line feed character and the one-character string ["\n"]. *)
Definition LF : ascii := "010"%char.
Definition newline : string := String LF EmptyString.

End PyStr.

(* ===================================================================== *)
(** ** Python values that [json.loads] can produce *)
(* ===================================================================== *)

#[local] Unset Elimination Schemes.
Inductive pyval : Type :=
| PNone
| PBool (b : bool)
| PInt (z : Z)
| PFloat (f : float)
| PStr (s : string)
| PList (l : list pyval)
| PDict (items : list (string * pyval)).
#[local] Set Elimination Schemes.

(** Truth value testing, as used by [x or y]. *)
Definition truthy (v : pyval) : bool :=
  match v with
  | PNone => false
  | PBool b => b
  | PInt z => negb (z =? 0)
  | PFloat f => negb (PrimFloat.eqb f PrimFloat.zero)
  | PStr s => negb (bool_decide (s = EmptyString))
  | PList l => match l with [] => false | _ :: _ => true end
  | PDict items => match items with [] => false | _ :: _ => true end
  end.

(** [x or y] *)
Definition py_or (x y : pyval) : pyval := if truthy x then x else y.

(** [d.get(key)] on the items of a dict (keys of a dict are unique). *)
Fixpoint dict_get (items : list (string * pyval)) (key : string) : pyval :=
  match items with
  | [] => PNone
  | (k, v) :: rest => if decide (k = key) then v else dict_get rest key
  end.

(* ===================================================================== *)
(** ** The file system seen through [pathlib] *)
(* ===================================================================== *)

Abbreviation path := (list string).
Abbreviation bytes := (list Byte.byte).

Inductive node : Type :=
| File (mtime : Z) (data : bytes)
| Dir (mtime : Z).

Definition st_mtime (n : node) : Z :=
  match n with File t _ => t | Dir t => t end.

Definition is_dir (n : option node) : bool :=
  match n with Some (Dir _) => true | _ => false end.

Definition is_file (n : option node) : bool :=
  match n with Some (File _ _) => true | _ => false end.

(** One entry per call that reaches the file system. *)
Inductive fs_op : Type :=
| OpExists (p : path)
| OpStat (p : path)
| OpUnlink (p : path)
| OpRead (p : path)
| OpWrite (p : path)
| OpMkdir (p : path)
| OpScandir (p : path).

Record world : Type := World {
  files : gmap path node;
  clock : Z;
  trace : list fs_op
}.

Definition set_files (fsm : gmap path node) (w : world) : world :=
  World fsm (clock w) (trace w).

(** Time passing between two operations. *)
Definition advance (delta : Z) (w : world) : world :=
  World (files w) (clock w + delta) (trace w).

Inductive exn : Type :=
| DatasetNotFoundError
| ResultNotFoundError
| FileNotFoundError
| IsADirectoryError
| NotADirectoryError
| FileExistsError
| UnpicklingError
| ValueError
| AttributeError.

(** The store errors the callers catch; the spec calls both [NotFound]. *)
Definition is_NotFound (e : exn) : bool :=
  match e with
  | DatasetNotFoundError | ResultNotFoundError => true
  | _ => false
  end.

Inductive outcome (A : Type) : Type :=
| Returns (a : A)
| Raises (e : exn).
Arguments Returns {A} a.
Arguments Raises {A} e.

Definition M (A : Type) : Type := world → outcome A * world.

#[global] Instance M_ret : MRet M := λ A a w, (Returns a, w).

#[global] Instance M_bind : MBind M := λ A B f m w,
  match m w with
  | (Returns a, w') => f a w'
  | (Raises e, w') => (Raises e, w')
  end.

Definition raise {A} (e : exn) : M A := λ w, (Raises e, w).

(** [try: m  except Exception as e: h e] *)
Definition try_except {A} (m : M A) (h : exn → M A) : M A := λ w,
  match m w with
  | (Returns a, w') => (Returns a, w')
  | (Raises e, w') => h e w'
  end.

Definition log (o : fs_op) : M unit := λ w,
  (Returns tt, World (files w) (clock w) (trace w ++ [o])).

Definition get_files : M (gmap path node) := λ w, (Returns (files w), w).

Definition put_files (fsm : gmap path node) : M unit := λ w,
  (Returns tt, set_files fsm w).

(** [time.time()] *)
Definition time_time : M Z := λ w, (Returns (clock w), w).

(** [storage_path / name] *)
Definition joinpath (d : path) (name : string) : path := d ++ [name].

(** [path.parent] *)
Definition parent (p : path) : path := take (length p - 1)%nat p.

(** [path.name] *)
Definition name_of (p : path) : string := List.last p EmptyString.

(** [path.stem]: the final component without its last suffix. *)
Definition stem (p : path) : string :=
  let name := name_of p in
  let i := PyStr.rfind "."%char name in
  if (0 <? i) && (i <? PyStr.len name - 1)
  then PyStr.slice_to (Z.to_nat i) name
  else name.

(** [path.exists()] *)
Definition Path_exists (p : path) : M bool :=
  log (OpExists p);;
  fsm ← get_files;
  mret (bool_decide (is_Some (fsm !! p))).

(** [path.stat().st_mtime] *)
Definition Path_stat_mtime (p : path) : M Z :=
  log (OpStat p);;
  fsm ← get_files;
  match fsm !! p with
  | Some n => mret (st_mtime n)
  | None => raise FileNotFoundError
  end.

(** [path.unlink(missing_ok=True)] *)
Definition Path_unlink_missing_ok (p : path) : M unit :=
  log (OpUnlink p);;
  fsm ← get_files;
  match fsm !! p with
  | None => mret tt
  | Some (File _ _) => put_files (delete p fsm)
  | Some (Dir _) => raise IsADirectoryError
  end.

(** [path.read_bytes()] *)
Definition Path_read_bytes (p : path) : M bytes :=
  log (OpRead p);;
  fsm ← get_files;
  match fsm !! p with
  | Some (File _ data) => mret data
  | Some (Dir _) => raise IsADirectoryError
  | None => raise FileNotFoundError
  end.

(** Opening [p] for writing and writing [data]: the file is created or
    replaced and its modification time becomes the current time. *)
Definition Path_write_bytes (p : path) (data : bytes) : M unit :=
  log (OpWrite p);;
  fsm ← get_files;
  now ← time_time;
  match fsm !! parent p with
  | Some (Dir _) =>
      match fsm !! p with
      | Some (Dir _) => raise IsADirectoryError
      | _ => put_files (<[p := File now data]> fsm)
      end
  | Some (File _ _) => raise NotADirectoryError
  | None => raise FileNotFoundError
  end.

(** One level of [mkdir(parents=True, exist_ok=True)]: [final] tells the
    directory asked for from its ancestors. *)
Definition mkdir_level (final : bool) (p : path) : M unit :=
  fsm ← get_files;
  now ← time_time;
  match fsm !! p with
  | Some (Dir _) => mret tt
  | Some (File _ _) =>
      raise (if final then FileExistsError else NotADirectoryError)
  | None => put_files (<[p := Dir now]> fsm)
  end.

Fixpoint mkdir_from (done : path) (todo : list string) : M unit :=
  match todo with
  | [] => mkdir_level true done
  | c :: rest => mkdir_level false done;; mkdir_from (done ++ [c]) rest
  end.

(** [path.mkdir(parents=True, exist_ok=True)] *)
Definition Path_mkdir_parents_exist_ok (p : path) : M unit :=
  log (OpMkdir p);; mkdir_from [] p.

(** The name of [p] when [p] lies directly under [d]. *)
Definition child_name (d p : path) : option string :=
  match drop (length d) p with
  | [name] => if decide (take (length d) p = d) then Some name else None
  | _ => None
  end.

(** The entries of directory [d] whose name ends with [suffix], in the
    order the directory scan yields them. *)
Definition scan_suffix (fsm : gmap path node) (d : path) (suffix : string)
  : list path :=
  omap (λ '(p, _),
          match child_name d p with
          | Some name => if PyStr.endswith name suffix then Some p else None
          | None => None
          end)
       (map_to_list fsm).

(** [list(path.glob("*" + suffix))]: the scan is taken when the generator
    is first advanced; a path that is not a directory yields nothing. *)
Definition Path_glob_suffix (d : path) (suffix : string) : M (list path) :=
  log (OpScandir d);;
  fsm ← get_files;
  mret (if is_dir (fsm !! d) then scan_suffix fsm d suffix else []).

(* ===================================================================== *)
(** ** Identifiers *)
(* ===================================================================== *)

(** The character class [[0-9a-f]]. *)
Definition is_lower_hex (c : ascii) : bool :=
  let n := Z.of_nat (nat_of_ascii c) in
  ((48 <=? n) && (n <=? 57)) || ((97 <=? n) && (n <=? 102)).

(** [[0-9a-f]{n}] at the start of [s]: the rest of the string after
    exactly [n] characters of the class, if there are that many. *)
Fixpoint match_hex_run (n : nat) (s : string) : option string :=
  match n with
  | O => Some s
  | S n' =>
      match s with
      | String c s' => if is_lower_hex c then match_hex_run n' s' else None
      | EmptyString => None
      end
  end.

(** [$] without [re.MULTILINE]: at the end of the string, or just before
    a line feed that ends the string. *)
Definition at_dollar (rest : string) : bool :=
  bool_decide (rest = EmptyString) || bool_decide (rest = PyStr.newline).

(** [re.compile(r"^[0-9a-f]{32}$").match(s)] as a truth value. *)
Definition id_pattern_match (s : string) : bool :=
  match match_hex_run 32 s with
  | Some rest => at_dollar rest
  | None => false
  end.

(** The format the specification fixes for identifiers: exactly 32
    characters, each a lower-case hexadecimal digit. *)
Definition is_hex32 (s : string) : bool :=
  match match_hex_run 32 s with
  | Some rest => bool_decide (rest = EmptyString)
  | None => false
  end.

Definition hex_digit (n : N) : ascii :=
  ascii_of_N (if (n <? 10)%N then 48 + n else 87 + n)%N.

(** The [width] low hexadecimal digits of [u], most significant first. *)
Fixpoint hex_fixed (width : nat) (u : N) : string :=
  match width with
  | O => EmptyString
  | S w => hex_fixed w (u / 16)%N +:+ String (hex_digit (u mod 16)%N) EmptyString
  end.

(** [uuid.UUID(int=u).hex], that is ['%032x' % u]; the integer of a UUID
    lies in [[0, 2^128)], so the 32 low digits are all of them. *)
Definition uuid_hex (u : N) : string := hex_fixed 32 u.

(* ===================================================================== *)
(** ** External collaborators: pandas and json *)
(* ===================================================================== *)

(** The library calls the stores make on data they do not inspect. [None]
    stands for a raised exception. *)
Class Externals : Type := {
  DataFrame : Type;
  (** the bytes [df.to_pickle(path)] writes *)
  to_pickle : DataFrame → bytes;
  (** what [pd.read_pickle] makes of a file's bytes *)
  read_pickle : bytes → option DataFrame;
  (** the bytes [df.to_csv(path, index=False)] writes *)
  to_csv : DataFrame → bytes;
  (** [json.dumps(v, ensure_ascii=True)] encoded by [write_text(.., "utf-8")] *)
  json_dumps : pyval → bytes;
  (** [json.loads] of [read_text(encoding="utf-8")] *)
  json_loads : bytes → option pyval
}.

(** What the round trip of a saved object relies on. *)
Class ExternalsLaws (E : Externals) : Prop := {
  read_pickle_to_pickle : ∀ df, read_pickle (to_pickle df) = Some df;
  json_loads_dumps_meta : ∀ s,
    json_loads (json_dumps (PDict [("source_filename", PStr s)]))
    = Some (PDict [("source_filename", PStr s)])
}.

(* ===================================================================== *)
(** ** [minexpygui/services/dataset_store.py] *)
(* ===================================================================== *)

Module dataset_store.
Section with_externals.
Context {E : Externals}.

Definition _DATASET_FILE_SUFFIX : string := ".pkl".
Definition _DATASET_META_SUFFIX : string := ".json".

(** Build the pickle file path for a dataset ID. *)
Definition _dataset_path (storage_path : path) (dataset_id : string) : path :=
  joinpath storage_path (dataset_id +:+ _DATASET_FILE_SUFFIX).

(** Build the metadata JSON path for a dataset ID. *)
Definition _meta_path (storage_path : path) (dataset_id : string) : path :=
  joinpath storage_path (dataset_id +:+ _DATASET_META_SUFFIX).

(** Return True when a file has exceeded its configured TTL. *)
Definition _is_expired (p : path) (ttl_seconds : Z) : M bool :=
  now ← time_time;
  mtime ← Path_stat_mtime p;
  mret (ttl_seconds <? now - mtime).

(** Delete a file path without failing when it is already absent. *)
Definition _safe_unlink (p : path) : M unit := Path_unlink_missing_ok p.

(** Validate dataset ID and return its pickle path. *)
Definition _resolve_dataset_path (dataset_id : string) (storage_path : path)
  : M path :=
  if negb (id_pattern_match dataset_id)
  then raise DatasetNotFoundError
  else mret (_dataset_path storage_path dataset_id).

(** Validate dataset ID and return its metadata path. *)
Definition _resolve_meta_path (dataset_id : string) (storage_path : path)
  : M path :=
  if negb (id_pattern_match dataset_id)
  then raise DatasetNotFoundError
  else mret (_meta_path storage_path dataset_id).

(** [pd.read_pickle(p)] *)
Definition pd_read_pickle (p : path) : M DataFrame :=
  data ← Path_read_bytes p;
  match read_pickle data with
  | Some df => mret df
  | None => raise UnpicklingError
  end.

(** [json.loads(p.read_text(encoding="utf-8"))] *)
Definition json_loads_text (p : path) : M pyval :=
  data ← Path_read_bytes p;
  match json_loads data with
  | Some v => mret v
  | None => raise ValueError
  end.

(** [v.get(key)]: only a dict has the method. *)
Definition py_get (v : pyval) (key : string) : M pyval :=
  match v with
  | PDict items => mret (dict_get items key)
  | _ => raise AttributeError
  end.

(** Persist an uploaded DataFrame and return its generated dataset
    identifier. [u] is the integer of the UUID that [uuid.uuid4()]
    draws. *)
Definition save_dataset (u : N) (df : DataFrame) (source_filename : string)
    (storage_dir : path) : M string :=
  let storage_path := storage_dir in
  Path_mkdir_parents_exist_ok storage_path;;
  let dataset_id := uuid_hex u in
  let dataset_path := _dataset_path storage_path dataset_id in
  let meta_path := _meta_path storage_path dataset_id in
  Path_write_bytes dataset_path (to_pickle df);;
  Path_write_bytes meta_path
    (json_dumps
       (PDict [("source_filename",
                py_or (PStr source_filename) (PStr "uploaded_file"))]));;
  mret dataset_id.

(** Load a stored dataset by ID and enforce a time-to-live policy. *)
Definition load_dataset (dataset_id : string) (storage_dir : path)
    (ttl_seconds : Z) : M (DataFrame * pyval) :=
  let storage_path := storage_dir in
  dataset_path ← _resolve_dataset_path dataset_id storage_path;
  meta_path ← _resolve_meta_path dataset_id storage_path;
  present ← Path_exists dataset_path;
  if negb present then raise DatasetNotFoundError
  else
    expired ← _is_expired dataset_path ttl_seconds;
    if (expired : bool) then
      _safe_unlink dataset_path;;
      _safe_unlink meta_path;;
      (raise DatasetNotFoundError : M (DataFrame * pyval))
    else
      df ← try_except (pd_read_pickle dataset_path)
                      (λ _, raise DatasetNotFoundError);
      let source_filename := PStr "uploaded_file" in
      meta_present ← Path_exists meta_path;
      source_filename ←
        (if (meta_present : bool) then
           try_except
             (meta_data ← json_loads_text meta_path;
              found ← py_get meta_data "source_filename";
              mret (py_or found source_filename))
             (λ _, mret source_filename)
         else mret source_filename);
      mret (df, source_filename).

(** The body of the [for dataset_path in storage_path.glob(...)] loop of
    [cleanup_expired_datasets], over the entries still to visit. *)
Fixpoint cleanup_loop (storage_path : path) (ttl_seconds : Z)
    (entries : list path) (deleted_count : Z) : M Z :=
  match entries with
  | [] => mret deleted_count
  | dataset_path :: rest =>
      expired ← _is_expired dataset_path ttl_seconds;
      if (expired : bool) then
        let dataset_id := stem dataset_path in
        _safe_unlink dataset_path;;
        _safe_unlink (_meta_path storage_path dataset_id);;
        cleanup_loop storage_path ttl_seconds rest (deleted_count + 1)
      else cleanup_loop storage_path ttl_seconds rest deleted_count
  end.

(** Delete expired dataset artifacts and return the deleted count. *)
Definition cleanup_expired_datasets (storage_dir : path) (ttl_seconds : Z)
  : M Z :=
  let storage_path := storage_dir in
  present ← Path_exists storage_path;
  if negb present then mret 0
  else
    let deleted_count := 0 in
    entries ← Path_glob_suffix storage_path _DATASET_FILE_SUFFIX;
    cleanup_loop storage_path ttl_seconds entries deleted_count.

End with_externals.
End dataset_store.

(* ===================================================================== *)
(** ** [minexpygui/services/result_store.py] *)
(* ===================================================================== *)

Module result_store.
Section with_externals.
Context {E : Externals}.

Definition RESULT_FILE_SUFFIX : string := ".csv".

(** Return True when a result file has exceeded its configured TTL. *)
Definition _is_expired (p : path) (ttl_seconds : Z) : M bool :=
  now ← time_time;
  mtime ← Path_stat_mtime p;
  mret (ttl_seconds <? now - mtime).

(** Validate result ID format and return the corresponding CSV path. *)
Definition _resolve_result_path (result_id : string) (storage_dir : path)
  : M path :=
  if negb (id_pattern_match result_id)
  then raise ResultNotFoundError
  else
    let storage_path := storage_dir in
    mret (joinpath storage_path (result_id +:+ RESULT_FILE_SUFFIX)).

(** Save a result DataFrame as CSV and return its generated identifier.
    [u] is the integer of the UUID that [uuid.uuid4()] draws. *)
Definition save_result (u : N) (df : DataFrame) (storage_dir : path)
  : M string :=
  let storage_path := storage_dir in
  Path_mkdir_parents_exist_ok storage_path;;
  let result_id := uuid_hex u in
  let result_path := joinpath storage_path (result_id +:+ RESULT_FILE_SUFFIX) in
  Path_write_bytes result_path (to_csv df);;
  mret result_id.

(** Load a saved CSV result payload while enforcing TTL expiration. *)
Definition load_result_csv (result_id : string) (storage_dir : path)
    (ttl_seconds : Z) : M bytes :=
  result_path ← _resolve_result_path result_id storage_dir;
  present ← Path_exists result_path;
  if negb present then raise ResultNotFoundError
  else
    expired ← _is_expired result_path ttl_seconds;
    if (expired : bool) then
      Path_unlink_missing_ok result_path;;
      (raise ResultNotFoundError : M bytes)
    else Path_read_bytes result_path.

(** The body of the [for file_path in storage_path.glob(...)] loop of
    [cleanup_expired], over the entries still to visit. *)
Fixpoint cleanup_loop (ttl_seconds : Z) (entries : list path)
    (deleted_count : Z) : M Z :=
  match entries with
  | [] => mret deleted_count
  | file_path :: rest =>
      expired ← _is_expired file_path ttl_seconds;
      if (expired : bool) then
        Path_unlink_missing_ok file_path;;
        cleanup_loop ttl_seconds rest (deleted_count + 1)
      else cleanup_loop ttl_seconds rest deleted_count
  end.

(** Delete expired CSV result artifacts and return the deleted count. *)
Definition cleanup_expired (storage_dir : path) (ttl_seconds : Z) : M Z :=
  let storage_path := storage_dir in
  present ← Path_exists storage_path;
  if negb present then mret 0
  else
    let deleted_count := 0 in
    entries ← Path_glob_suffix storage_path RESULT_FILE_SUFFIX;
    cleanup_loop ttl_seconds entries deleted_count.

End with_externals.
End result_store.

(* ===================================================================== *)
(** ** [minexpygui/__init__.py]: sweep scheduling *)
(* ===================================================================== *)

Module app.

(** The entries of [app.config] the sweeps read. *)
Record config : Type := Config {
  RESULT_TTL_SECONDS : Z;
  RESULT_CLEANUP_INTERVAL_SECONDS : Z;
  RESULT_STORAGE_DIR : path;
  DATASET_STORAGE_DIR : path
}.

(** The part of [create_app] that concerns the stores; the value
    returned is [app.extensions["last_result_cleanup_at"]] as
    [create_app] leaves it. *)
Definition create_app (cfg : config) : M Z :=
  Path_mkdir_parents_exist_ok (RESULT_STORAGE_DIR cfg);;
  Path_mkdir_parents_exist_ok (DATASET_STORAGE_DIR cfg);;
  let last_result_cleanup_at := 0 in
  result_store.cleanup_expired
    (RESULT_STORAGE_DIR cfg) (RESULT_TTL_SECONDS cfg);;
  dataset_store.cleanup_expired_datasets
    (DATASET_STORAGE_DIR cfg) (RESULT_TTL_SECONDS cfg);;
  mret last_result_cleanup_at.

(** The [before_request] hook. It is given the current value of
    [app.extensions["last_result_cleanup_at"]] and returns the value the
    entry has when the hook returns. *)
Definition _cleanup_expired_result_files (cfg : config)
    (last_result_cleanup_at : Z) : M Z :=
  now ← time_time;
  let last_run := last_result_cleanup_at in
  let interval := RESULT_CLEANUP_INTERVAL_SECONDS cfg in
  if interval <=? now - last_run then
    result_store.cleanup_expired
      (RESULT_STORAGE_DIR cfg) (RESULT_TTL_SECONDS cfg);;
    dataset_store.cleanup_expired_datasets
      (DATASET_STORAGE_DIR cfg) (RESULT_TTL_SECONDS cfg);;
    mret now
  else mret last_result_cleanup_at.

End app.

(* ===================================================================== *)
(** ** Vocabulary of the properties *)
(* ===================================================================== *)

(** The world after one more call is recorded. *)
Definition logged (o : fs_op) (w : world) : world :=
  World (files w) (clock w) (trace w ++ [o]).

(** The files left when every path of [ps] is unlinked. *)
Definition remove_all (ps : list path) (fsm : gmap path node) : gmap path node :=
  foldr delete fsm ps.

(** Whether the entry at [p] is older than [ttl] at time [now]. *)
Definition expired_in (fsm : gmap path node) (now ttl : Z) (p : path) : bool :=
  match fsm !! p with
  | Some n => ttl <? now - st_mtime n
  | None => false
  end.

(** No directory lies directly under [d]: the store holds flat files. *)
Definition flat_under (fsm : gmap path node) (d : path) : bool :=
  forallb (λ '(p, n), match child_name d p with
                      | Some _ => negb (is_dir (Some n))
                      | None => true
                      end)
          (map_to_list fsm).

(** The metadata siblings the dataset sweep unlinks with [ps]. *)
Definition metas (d : path) (ps : list path) : list path :=
  (λ p, dataset_store._meta_path d (stem p)) <$> ps.

(** The entries of a listing that are older than [ttl] in [w]. *)
Definition expired_entries (w : world) (ttl : Z) (entries : list path)
  : list path :=
  filter (λ p, expired_in (files w) (clock w) ttl p = true) entries.

(** The two instances of the object store. *)
Inductive store : Type := Datasets | Results.

(** The suffix of the payload files of a store. *)
Definition payload_suffix (s : store) : string :=
  match s with
  | Datasets => dataset_store._DATASET_FILE_SUFFIX
  | Results => result_store.RESULT_FILE_SUFFIX
  end.

(** The sweep of a store. *)
Definition sweep (s : store) : path → Z → M Z :=
  match s with
  | Datasets => dataset_store.cleanup_expired_datasets
  | Results => result_store.cleanup_expired
  end.

(** The metadata files a store keeps next to the payload file [p]. *)
Definition siblings (s : store) (d : path) (p : path) : list path :=
  match s with
  | Datasets => [dataset_store._meta_path d (stem p)]
  | Results => []
  end.

(** What [storage_path.glob("*" + suffix)] yields in [w]. *)
Definition listing (w : world) (d : path) (suffix : string) : list path :=
  if is_dir (files w !! d) then scan_suffix (files w) d suffix else [].

(** [p] is a payload file of the store kept in directory [d]: an entry
    directly under [d] whose name ends with the payload suffix. *)
Definition payload_entry (w : world) (d : path) (suffix : string) (p : path)
  : Prop :=
  is_dir (files w !! d) = true ∧
  ∃ name, p = joinpath d name ∧ PyStr.endswith name suffix = true
          ∧ is_Some (files w !! p).

(** The age of the entry at [p] exceeds [ttl]. *)
Definition older_than (w : world) (ttl : Z) (p : path) : Prop :=
  ∃ n, files w !! p = Some n ∧ ttl < clock w - st_mtime n.

(** [p] is a payload file of the store whose age exceeds [ttl]. *)
Definition expired_payload (w : world) (d : path) (suffix : string) (ttl : Z)
    (p : path) : Prop :=
  payload_entry w d suffix p ∧ older_than w ttl p.

(** The sweep of store [s] removes [q]: [q] is an expired payload file or
    the metadata sibling of one. *)
Definition swept (s : store) (w : world) (d : path) (ttl : Z) (q : path) : Prop :=
  ∃ p, expired_payload w d (payload_suffix s) ttl p ∧ (q = p ∨ q ∈ siblings s d p).

(** The paths a sweep of store [s] unlinks, as a list. *)
Definition unlinked (s : store) (w : world) (d : path) (ttl : Z) : list path :=
  let exp := expired_entries w ttl (listing w d (payload_suffix s)) in
  match s with
  | Datasets => exp ++ metas d exp
  | Results => exp
  end.

(** The file name [load_dataset] reports for the metadata file at [m]:
    the [source_filename] of the parsed metadata when there is a truthy
    one, and the default in every other case. *)
Definition stored_filename {E : Externals} (fsm : gmap path node) (m : path)
  : pyval :=
  match fsm !! m with
  | Some (File _ data) =>
      match json_loads data with
      | Some (PDict items) =>
          py_or (dict_get items "source_filename") (PStr "uploaded_file")
      | _ => PStr "uploaded_file"
      end
  | _ => PStr "uploaded_file"
  end.

(** The file name a dataset is stored under: [source_filename or
    "uploaded_file"]. *)
Definition filename_or_default (source_filename : string) : string :=
  if decide (source_filename = "") then "uploaded_file" else source_filename.

(** A request as the scheduling sees it: the time it arrives at, and what
    its view does to the world once the [before_request] hook has
    returned. *)
Record request : Type := Request {
  arrival : Z;
  view : world → world
}.

(** What the [before_request] hook of one request did: the time it ran
    at, the file system calls it made, and whether it returned. *)
Record hook_run : Type := HookRun {
  run_at : Z;
  calls : list fs_op;
  returned : bool
}.

(** The application between two requests: the process-wide time stamp, the
    world, and what the hook did at each request so far. *)
Record server : Type := Server {
  last_result_cleanup_at : Z;
  disk : world;
  hook_runs : list hook_run
}.

Definition at_time (t : Z) (w : world) : world := World (files w) t (trace w).

(** The test of the hook. *)
Definition gate_open (cfg : app.config) (last_run now : Z) : bool :=
  app.RESULT_CLEANUP_INTERVAL_SECONDS cfg <=? now - last_run.

(** The outcome is a value, not an exception. *)
Definition is_return {A} (r : outcome A) : bool :=
  match r with Returns _ => true | Raises _ => false end.

(** One request: the hook runs first; when it raises, the request fails,
    the view is not run and the time stamp keeps its value. The calls of
    the hook are what it has added to the trace. *)
Definition serve_one (cfg : app.config) (st : server) (r : request) : server :=
  let w0 := at_time (arrival r) (disk st) in
  let '(result, w1) :=
    app._cleanup_expired_result_files cfg (last_result_cleanup_at st) w0 in
  let run := HookRun (arrival r) (drop (length (trace w0)) (trace w1))
                     (is_return result) in
  match result with
  | Returns last_run => Server last_run (view r w1) (hook_runs st ++ [run])
  | Raises _ => Server (last_result_cleanup_at st) w1 (hook_runs st ++ [run])
  end.

Definition serve (cfg : app.config) (st : server) (reqs : list request) : server :=
  foldl (serve_one cfg) st reqs.

(** The call [d.exists()], with which the sweep of the store kept in [d]
    starts and which nothing else in the hook makes. *)
Definition is_exists_call (d : path) (o : fs_op) : bool :=
  match o with
  | OpExists p => bool_decide (p = d)
  | _ => false
  end.

(** The hook run has started a sweep of the store kept in [d]. *)
Definition starts_sweep (d : path) (h : hook_run) : bool :=
  existsb (is_exists_call d) (calls h).

(** The times at which a sweep of the store kept in [d] was started. *)
Definition sweep_times (d : path) (runs : list hook_run) : list Z :=
  run_at <$> filter (λ h, starts_sweep d h = true) runs.

(** A run is recorded when the hook has swept and returned: it is then
    that it sets the time stamp. *)
Definition recorded (cfg : app.config) (h : hook_run) : bool :=
  starts_sweep (app.RESULT_STORAGE_DIR cfg) h && returned h.

Definition recorded_times (cfg : app.config) (runs : list hook_run) : list Z :=
  run_at <$> filter (λ h, recorded cfg h = true) runs.

(** The time of the last recorded run, and 0 when there is none. *)
Definition last_recorded (cfg : app.config) (runs : list hook_run) : Z :=
  default 0 (last (recorded_times cfg runs)).

(** Consecutive entries of [ts] lie at least [interval] apart. *)
Definition spaced (interval : Z) (ts : list Z) : Prop :=
  ∀ i t1 t2, ts !! i = Some t1 → ts !! S i = Some t2 → interval <= t2 - t1.

(** What the gate allows the run [h] when the last recorded run was at
    [since]: nothing before the interval has elapsed; from then on a sweep
    of the result store and, in a run that returns, of the dataset store. *)
Definition gated (cfg : app.config) (since : Z) (h : hook_run) : Prop :=
  (run_at h - since < app.RESULT_CLEANUP_INTERVAL_SECONDS cfg →
   calls h = [] ∧ returned h = true)
  ∧ (app.RESULT_CLEANUP_INTERVAL_SECONDS cfg <= run_at h - since →
     starts_sweep (app.RESULT_STORAGE_DIR cfg) h = true
     ∧ (returned h = true →
        starts_sweep (app.DATASET_STORAGE_DIR cfg) h = true)).

(** The time stamp is the time of the last recorded run, recorded runs
    are spaced, and every run was gated by the recorded run before it. *)
Definition scheduled (cfg : app.config) (st : server) : Prop :=
  last_result_cleanup_at st = last_recorded cfg (hook_runs st)
  ∧ spaced (app.RESULT_CLEANUP_INTERVAL_SECONDS cfg)
           (recorded_times cfg (hook_runs st))
  ∧ ∀ i h, hook_runs st !! i = Some h →
           gated cfg (last_recorded cfg (take i (hook_runs st))) h.

(** Nothing the sweep of store [s] is to remove is a directory. *)
Definition sweepable (s : store) (w : world) (d : path) (ttl : Z) : Prop :=
  ∀ q, swept s w d ttl q → is_dir (files w !! q) = false.

(* ===================================================================== *)
(** ** A concrete instance and concrete worlds *)
(* ===================================================================== *)

(** Externals in which a data frame is its CSV bytes, a pickle is the
    frame behind a one-byte header, and a metadata document is the file
    name behind an opening brace. *)
Definition plain_externals : Externals := {|
  DataFrame := bytes;
  to_pickle := λ df, Byte.x80 :: df;
  read_pickle := λ b, match b with Byte.x80 :: df => Some df | _ => None end;
  to_csv := λ df, df;
  json_dumps := λ v,
    match v with
    | PDict [(_, PStr s)] => Byte.x7b :: String.list_byte_of_string s
    | _ => []
    end;
  json_loads := λ b,
    match b with
    | Byte.x7b :: rest =>
        Some (PDict [("source_filename", PStr (String.string_of_list_byte rest))])
    | _ => None
    end
|}.

(** The payload [b"a,b\n1,2\n"] of the specification's scenario. *)
Definition scenario_payload : bytes :=
  String.list_byte_of_string
    ("a,b" +:+ PyStr.newline +:+ "1,2" +:+ PyStr.newline).

Definition scenario_dir : path := ["srv"; "datasets"].

(** An empty disk at time 1000. *)
Definition empty_world : world := World ∅ 1000 [].

(** A dataset directory at time 100 holding an old dataset with its
    metadata, a recent dataset, an old metadata file without payload, and
    a file that is not a payload. *)
Definition sweep_world : world :=
  World (list_to_map
           [ (["srv"], Dir 0);
             (["srv"; "00000000000000000000000000000001.pkl"], File 10 [Byte.x80]);
             (["srv"; "00000000000000000000000000000001.json"], File 10 [Byte.x7b]);
             (["srv"; "00000000000000000000000000000002.pkl"], File 90 [Byte.x80]);
             (["srv"; "00000000000000000000000000000009.json"], File 0 [Byte.x7b]);
             (["srv"; "notes.txt"], File 0 []) ])
        100 [].

(** An identifier of 32 digits followed by a line feed. *)
Definition newline_id : string := uuid_hex 0 +:+ PyStr.newline.

(** A result directory holding a file named after [newline_id]. *)
Definition newline_world : world :=
  World (list_to_map
           [ (["srv"], Dir 0);
             (["srv"; newline_id +:+ ".csv"], File 0 scenario_payload);
             (["srv"; newline_id +:+ ".pkl"], File 0 (Byte.x80 :: scenario_payload)) ])
        10 [].

(** A dataset whose metadata document carries an empty file name, and a
    dataset whose payload is not a pickle. *)
Definition odd_world : world :=
  World (list_to_map
           [ (["srv"], Dir 0);
             (["srv"; "00000000000000000000000000000003.pkl"], File 90 [Byte.x80; Byte.x61]);
             (["srv"; "00000000000000000000000000000003.json"], File 90 [Byte.x7b]);
             (["srv"; "00000000000000000000000000000004.pkl"], File 90 [Byte.x61]);
             (["srv"; "00000000000000000000000000000005.pkl"], File 10 [Byte.x80]) ])
        100 [].

(** The configuration of the examples: ttl 3600, interval 300. *)
Definition example_config : app.config :=
  app.Config 3600 300 ["srv"; "results"] ["srv"; "datasets"].

(** A results directory at time 5000 holding an old result, a recent
    directory whose name ends with the payload suffix, and a
    sub-directory with an old file in it. *)
Definition nested_world : world :=
  World (list_to_map
           [ (["srv"], Dir 0);
             (["srv"; "results"], Dir 0);
             (["srv"; "results"; "a.csv"], File 0 []);
             (["srv"; "results"; "new.csv"], Dir 4000);
             (["srv"; "results"; "sub"], Dir 0);
             (["srv"; "results"; "sub"; "e.csv"], File 0 []) ])
        5000 [].

(** A disk at time 5000 whose results directory holds an old directory
    with a name that ends with the payload suffix, and whose datasets
    directory holds an old dataset. *)
Definition obstructed_world : world :=
  World (list_to_map
           [ (["srv"], Dir 0);
             (["srv"; "results"], Dir 0);
             (["srv"; "results"; "old.csv"], Dir 0);
             (["srv"; "datasets"], Dir 0);
             (["srv"; "datasets"; "00000000000000000000000000000001.pkl"],
              File 0 [Byte.x80]) ])
        5000 [].

(* ===================================================================== *)
(** ** Python text operations used outside the stores *)
(* ===================================================================== *)

Module PyText.

(** [c.isspace()] for a character whose code point is below 256: the
    characters [str.strip()] removes. *)
Definition is_space (c : ascii) : bool :=
  let n := Z.of_N (N_of_ascii c) in
  ((9 <=? n) && (n <=? 13)) || ((28 <=? n) && (n <=? 32))
  || (n =? 133) || (n =? 160).

(** [s.lstrip()] *)
Fixpoint lstrip (s : string) : string :=
  match s with
  | EmptyString => EmptyString
  | String c s' => if is_space c then lstrip s' else s
  end.

(** [s.rstrip()] *)
Fixpoint rstrip (s : string) : string :=
  match s with
  | EmptyString => EmptyString
  | String c s' =>
      match rstrip s' with
      | EmptyString => if is_space c then EmptyString else String c EmptyString
      | r => String c r
      end
  end.

(** [s.strip()] *)
Definition strip (s : string) : string := rstrip (lstrip s).

(** [str(n)] for an integer. *)
Definition str_of_int (n : Z) : string := pretty n.

(** [sep.join(parts)] *)
Fixpoint join (sep : string) (parts : list string) : string :=
  match parts with
  | [] => EmptyString
  | [x] => x
  | x :: rest => x +:+ sep +:+ join sep rest
  end.

(** [list(dict.fromkeys(items))]: the keys in the order of their first
    insertion. *)
Definition fromkeys_list (items : list string) : list string :=
  foldl (λ keys x, if decide (x ∈ keys) then keys else keys ++ [x]) [] items.

End PyText.

(* ===================================================================== *)
(** ** [minexpygui/services/file_parser.py]: column names *)
(* ===================================================================== *)

Module file_parser.
Import PyText.

(** The [for idx, column in enumerate(columns)] loop of
    [_normalize_columns], over the columns still to visit. A column is
    [None] or an object given by its [str()]. *)
Fixpoint normalize_loop (columns : list (option string)) (idx : Z)
    (seen : gmap string Z) (cleaned : list string) : list string :=
  match columns with
  | [] => cleaned
  | column :: rest =>
      let name := match column with
                  | Some text => strip text
                  | None => EmptyString
                  end in
      let name := if decide (name = EmptyString)
                  then "column_" +:+ str_of_int (idx + 1) else name in
      let count := default 0 (seen !! name) in
      let seen := <[name := count + 1]> seen in
      let name := if 0 <? count
                  then name +:+ "_" +:+ str_of_int (count + 1) else name in
      normalize_loop rest (idx + 1) seen (cleaned ++ [name])
  end.

(** Normalize column names and make duplicates deterministic and unique. *)
Definition _normalize_columns (columns : list (option string)) : list string :=
  let cleaned := [] in
  let seen := ∅ in
  normalize_loop columns 0 seen cleaned.

End file_parser.

(* ===================================================================== *)
(** ** [minexpygui/services/minexpy_adapter.py]: the selection *)
(* ===================================================================== *)

Module minexpy_adapter.
Import PyText.

(** The outcome of a check that can raise [AnalysisError]. *)
Inductive checked (A : Type) : Type :=
| Passed (a : A)
| AnalysisError (message : string).
Arguments Passed {A} a.
Arguments AnalysisError {A} message.

(** [name] as a truth value, then [name.strip()] as one. *)
Definition selectable (name : string) : bool :=
  negb (bool_decide (name = EmptyString))
  && negb (bool_decide (strip name = EmptyString)).

(** Normalize incoming column names while preserving order and
    uniqueness. *)
Definition _normalize_column_names (column_names : list string)
  : checked (list string) :=
  let selected := strip <$> List.filter selectable column_names in
  let selected := fromkeys_list selected in
  match selected with
  | [] => AnalysisError "Please select at least one column to analyze."
  | _ :: _ => Passed selected
  end.

(** Raise if any selected column is not available in the DataFrame, whose
    column labels are [df_columns]. *)
Definition _assert_columns_exist (df_columns : list string)
    (selected_columns : list string) : checked unit :=
  let missing_columns :=
    List.filter (λ name, negb (bool_decide (name ∈ df_columns)))
                selected_columns in
  match missing_columns with
  | [] => Passed tt
  | _ :: _ =>
      let missing_text := join ", " missing_columns in
      AnalysisError
        ("Selected columns are not available in the uploaded data: "
         +:+ missing_text)
  end.

End minexpy_adapter.

(* ===================================================================== *)
(** ** [minexpygui/routes/analysis.py]: selection and download *)
(* ===================================================================== *)

Module routes_analysis.
Import PyText.

(** What a view returns: the home page rendered with an error message
    under a status code, or a file sent as an attachment. *)
Inductive response : Type :=
| HomePage (status : Z) (error_message : string)
| Attachment (body : bytes) (mimetype : string) (download_name : string).

(** Extract and normalize selected columns from form payload.
    [raw_values] is [request.form.getlist("column_names")] and
    [legacy_value] is [request.form.get("column_name")]. *)
Definition _extract_selected_columns_from_form (raw_values : list string)
    (legacy_value : option string) : list string :=
  let selected := strip <$> List.filter minexpy_adapter.selectable raw_values in
  let legacy_column_name := strip (default EmptyString legacy_value) in
  let selected :=
    if negb (bool_decide (legacy_column_name = EmptyString))
    then selected ++ [legacy_column_name] else selected in
  fromkeys_list selected.

(** [try: m  except ResultNotFoundError: h] *)
Definition try_except_ResultNotFoundError {A} (m : M A) (h : M A) : M A := λ w,
  match m w with
  | (Raises ResultNotFoundError, w') => h w'
  | other => other
  end.

(** Download a stored CSV artifact generated by a previous analysis run. *)
Definition download_statistics (cfg : app.config) (result_id : string)
  : M response :=
  try_except_ResultNotFoundError
    (csv_bytes ← result_store.load_result_csv result_id
                   (app.RESULT_STORAGE_DIR cfg) (app.RESULT_TTL_SECONDS cfg);
     mret (Attachment csv_bytes "text/csv"
             ("analysis_" +:+ PyStr.slice_to 8 result_id +:+ ".csv")))
    (mret (HomePage 404
             "The requested result is unavailable or has expired. Upload again to regenerate.")).

End routes_analysis.

(* ===================================================================== *)
(** ** Vocabulary of the further properties *)
(* ===================================================================== *)

(** The name the [idx]-th column has before duplicates are numbered: its
    stripped text, or [column_<idx+1>] when that is empty. *)
Definition base_name (idx : nat) (column : option string) : string :=
  let name := match column with
              | Some text => PyText.strip text
              | None => EmptyString
              end in
  if decide (name = EmptyString)
  then "column_" +:+ PyText.str_of_int (Z.of_nat idx + 1) else name.

(** The base names of [columns], the first of which has index [k]. *)
Fixpoint bases_from (k : nat) (columns : list (option string)) : list string :=
  match columns with
  | [] => []
  | column :: rest => base_name k column :: bases_from (S k) rest
  end.

(** How often [name] occurs in [names]. *)
Definition occurrences (name : string) (names : list string) : nat :=
  length (filter (λ x, x = name) names).

(** The name given to an occurrence of [name] that has [earlier]
    occurrences before it. *)
Definition numbered (name : string) (earlier : nat) : string :=
  match earlier with
  | O => name
  | S _ => name +:+ "_" +:+ PyText.str_of_int (Z.of_nat earlier + 1)
  end.

(** [s] holds no underscore. *)
Fixpoint underscore_free (s : string) : bool :=
  match s with
  | EmptyString => true
  | String c s' => negb (bool_decide (c = "_"%char)) && underscore_free s'
  end.

(** [s] is not empty and neither starts nor ends with white space: what
    [strip] leaves unchanged. *)
Definition clean_name (s : string) : Prop :=
  s ≠ EmptyString ∧ PyText.strip s = s.

(** [s] is empty or starts with a character that is not white space. *)
Definition starts_clean (s : string) : Prop :=
  match s with
  | EmptyString => True
  | String c _ => PyText.is_space c = false
  end.

(** What the loop appends for [columns], the first of which has index
    [k], when the base names [earlier] came before. *)
Fixpoint expected_names (k : nat) (earlier : list string)
    (columns : list (option string)) : list string :=
  match columns with
  | [] => []
  | column :: rest =>
      let b := base_name k column in
      numbered b (occurrences b earlier)
      :: expected_names (S k) (earlier ++ [b]) rest
  end.

(** The files after [mkdir(parents=True, exist_ok=True)] on [d] has
    returned: what was there, and a new directory at every prefix of [d]
    that was missing. *)
Definition with_directories (fsm : gmap path node) (now : Z) (d : path)
    (q : path) : option node :=
  match fsm !! q with
  | Some n => Some n
  | None => if bool_decide (q `prefix_of` d) then Some (Dir now) else None
  end.

(** The message of the page [download_statistics] answers with when the
    result cannot be given. *)
Definition download_unavailable : string :=
  "The requested result is unavailable or has expired. Upload again to regenerate.".

Ltac run_monad :=
  unfold mbind, M_bind, mret, M_ret, raise, log, get_files, put_files,
    time_time, set_files; simpl.

Ltac by_computation := vm_compute; reflexivity.

(* ===================================================================== *)
(** ** Facts about strings, names and identifiers *)
(* ===================================================================== *)

Module PyStrFacts.
Import PyStr.

Lemma app_nil_l (s : string) : "" +:+ s = s.
Proof. reflexivity. Qed.

Lemma app_cons (a : ascii) (s t : string) :
  String a s +:+ t = String a (s +:+ t).
Proof. reflexivity. Qed.

Lemma app_assoc (s t r : string) : (s +:+ t) +:+ r = s +:+ (t +:+ r).
Proof.
  induction s as [|a s IH]; [reflexivity|].
  rewrite !app_cons. now rewrite IH.
Qed.

Lemma app_nil_inv (s t : string) : s +:+ t = "" → s = "" ∧ t = "".
Proof. destruct s; [rewrite app_nil_l; auto | rewrite app_cons; discriminate]. Qed.

Lemma len_nonneg (s : string) : 0 <= len s.
Proof. induction s; simpl; lia. Qed.

Lemma len_app (s t : string) : len (s +:+ t) = len s + len t.
Proof.
  induction s as [|a s IH]; [rewrite app_nil_l; simpl; lia|].
  rewrite app_cons. simpl. lia.
Qed.

Lemma len_pos (s : string) : s ≠ "" → 0 < len s.
Proof. destruct s; [congruence|]. intros _. simpl. pose proof (len_nonneg s). lia. Qed.

(** The last character decides: strings built on different final
    characters differ. *)
Lemma app_last_inj (s t : string) (a b : ascii) :
  s +:+ String a "" = t +:+ String b "" → a = b.
Proof.
  revert t. induction s as [|c s IH]; intros [|c' t];
    rewrite ?app_nil_l, ?app_cons; intros H; simplify_eq; auto.
  - destruct t; rewrite ?app_nil_l, ?app_cons in *; discriminate.
  - destruct s; rewrite ?app_nil_l, ?app_cons in *; discriminate.
  - eauto.
Qed.

Lemma endswith_true (s suf : string) :
  endswith s suf = true ↔ ∃ pre, s = pre +:+ suf.
Proof.
  split.
  - induction s as [|a s IH]; simpl; case_decide; subst.
    + intros _. now exists "".
    + discriminate.
    + intros _. now exists "".
    + intros [pre ->]%IH. exists (String a pre). now rewrite app_cons.
  - intros [pre ->]. induction pre as [|a pre IH].
    + rewrite app_nil_l. destruct suf; simpl; try case_decide; congruence.
    + rewrite app_cons. simpl. case_decide; [reflexivity | exact IH].
Qed.

Lemma endswith_app (pre suf : string) : endswith (pre +:+ suf) suf = true.
Proof. apply endswith_true. eauto. Qed.

(** A name carrying the metadata suffix does not carry the pickle
    suffix. *)
Lemma json_name_not_pkl (x : string) : endswith (x +:+ ".json") ".pkl" = false.
Proof.
  apply not_true_is_false. intros [pre H]%endswith_true.
  change ".json" with (".jso" +:+ "n") in H.
  change ".pkl" with (".pk" +:+ "l") in H.
  rewrite <- !app_assoc in H. apply app_last_inj in H. discriminate.
Qed.

Lemma rfind_from_dot_pkl (x : string) (i best : Z) :
  rfind_from "."%char (x +:+ ".pkl") i best = i + len x.
Proof.
  revert i best. induction x as [|a x IH]; intros i best.
  - rewrite app_nil_l. simpl. lia.
  - rewrite app_cons. simpl. rewrite IH. lia.
Qed.

Lemma slice_to_app (x t : string) : slice_to (Z.to_nat (len x)) (x +:+ t) = x.
Proof.
  induction x as [|a x IH].
  - rewrite app_nil_l. simpl. now destruct t.
  - rewrite app_cons. pose proof (len_nonneg x).
    replace (Z.to_nat (len (String a x))) with (S (Z.to_nat (len x)))
      by (simpl len; lia).
    simpl. now rewrite IH.
Qed.

Lemma json_name_not_csv (x : string) : endswith (x +:+ ".json") ".csv" = false.
Proof.
  apply not_true_is_false. intros [pre H]%endswith_true.
  change ".json" with (".jso" +:+ "n") in H.
  change ".csv" with (".cs" +:+ "v") in H.
  rewrite <- !app_assoc in H.
  apply app_last_inj in H. discriminate.
Qed.

Lemma app_inv_tail (a b s : string) : a +:+ s = b +:+ s → a = b.
Proof.
  revert b. induction a as [|c a IH]; intros [|c' b] H;
    rewrite ?app_nil_l, ?app_cons in H.
  - reflexivity.
  - apply (f_equal len) in H. simpl in H.
    rewrite len_app in H. pose proof (len_nonneg b). lia.
  - apply (f_equal len) in H. simpl in H.
    rewrite len_app in H. pose proof (len_nonneg a). lia.
  - injection H as -> H. f_equal. now apply IH.
Qed.

End PyStrFacts.

Section names.
Import PyStr PyStrFacts.

Lemma name_of_joinpath (d : path) (name : string) : name_of (joinpath d name) = name.
Proof. unfold name_of, joinpath. apply last_last. Qed.

Lemma parent_joinpath (d : path) (name : string) : parent (joinpath d name) = d.
Proof.
  unfold parent, joinpath. rewrite length_app. simpl.
  replace (length d + 1 - 1)%nat with (length d) by lia.
  now rewrite take_app_length.
Qed.

Lemma joinpath_inj (d : path) (a b : string) : joinpath d a = joinpath d b → a = b.
Proof. unfold joinpath. intros H%app_inv_head. congruence. Qed.

(** The stem of [x.pkl] is [x], except for the bare suffix [.pkl], a
    hidden file without suffix, whose stem is the whole name. *)
Lemma stem_pkl (d : path) (x : string) :
  stem (joinpath d (x +:+ ".pkl")) = if decide (x = "") then ".pkl" else x.
Proof.
  unfold stem. rewrite name_of_joinpath. unfold rfind.
  rewrite rfind_from_dot_pkl, len_app. change (len ".pkl") with 4.
  case_decide as Hx.
  - subst x. reflexivity.
  - pose proof (len_pos x Hx).
    replace (0 <? 0 + len x) with true by (symmetry; apply Z.ltb_lt; lia).
    replace (0 + len x <? len x + 4 - 1) with true
      by (symmetry; apply Z.ltb_lt; lia).
    simpl andb. cbv iota. replace (0 + len x) with (len x) by lia.
    apply slice_to_app.
Qed.

Lemma child_name_joinpath (d : path) (name : string) :
  child_name d (joinpath d name) = Some name.
Proof.
  unfold child_name, joinpath.
  rewrite drop_app_length, take_app_length. now rewrite decide_True.
Qed.

Lemma child_name_Some (d p : path) (name : string) :
  child_name d p = Some name → p = joinpath d name.
Proof.
  unfold child_name, joinpath. intros H.
  destruct (drop (length d) p) as [|x [|y l]] eqn:Hd; try discriminate.
  case_decide as Ht; [|discriminate]. simplify_eq.
  rewrite <- (take_drop (length d) p) at 1. now rewrite Ht, Hd.
Qed.

End names.

Section identifiers.
Import PyStr PyStrFacts.

Lemma hex_digit_is_lower_hex (n : N) : (n < 16)%N → is_lower_hex (hex_digit n) = true.
Proof.
  intros Hn. unfold is_lower_hex, hex_digit.
  unfold nat_of_ascii. rewrite N_ascii_embedding.
  - rewrite N_nat_Z.
    destruct (N.ltb_spec n 10); apply orb_true_iff; [left | right];
      apply andb_true_iff; split; apply Z.leb_le; lia.
  - destruct (n <? 10)%N; lia.
Qed.

Lemma match_hex_run_hex_fixed (w k : nat) (u : N) (rest : string) :
  match_hex_run (w + k) (hex_fixed w u +:+ rest) = match_hex_run k rest.
Proof.
  revert k u rest. induction w as [|w IH]; intros k u rest; [reflexivity|].
  simpl hex_fixed. rewrite app_assoc, app_cons, app_nil_l.
  replace (S w + k)%nat with (w + S k)%nat by lia.
  rewrite IH. simpl.
  rewrite hex_digit_is_lower_hex; [reflexivity|].
  apply N.mod_lt. discriminate.
Qed.

Lemma match_hex_run_uuid_hex (u : N) (rest : string) :
  match_hex_run 32 (uuid_hex u +:+ rest) = Some rest.
Proof. apply (match_hex_run_hex_fixed 32 0). Qed.

(** Every identifier [save] generates passes the validation of [load]. *)
Lemma uuid_hex_valid (u : N) : id_pattern_match (uuid_hex u) = true.
Proof.
  unfold id_pattern_match.
  pose proof (match_hex_run_uuid_hex u "") as H.
  replace (uuid_hex u +:+ "") with (uuid_hex u) in H; [now rewrite H|].
  generalize (uuid_hex u). induction s as [|a s IH]; [reflexivity|].
  rewrite app_cons. now rewrite <- IH.
Qed.

Lemma uuid_hex_is_hex32 (u : N) : is_hex32 (uuid_hex u) = true.
Proof.
  unfold is_hex32.
  pose proof (match_hex_run_uuid_hex u "") as H.
  replace (uuid_hex u +:+ "") with (uuid_hex u) in H; [now rewrite H|].
  generalize (uuid_hex u). induction s as [|a s IH]; [reflexivity|].
  rewrite app_cons. now rewrite <- IH.
Qed.


(** What the pattern accepts: 32 digits, or 32 digits and a line feed. *)
Lemma id_pattern_match_cases (s : string) :
  id_pattern_match s = true ↔
  is_hex32 s = true ∨
  ∃ h, s = h +:+ newline ∧ is_hex32 h = true.
Proof.
  unfold id_pattern_match, is_hex32, at_dollar.
  assert (Hrun : ∀ n t rest, match_hex_run n t = Some rest →
            ∃ h, t = h +:+ rest ∧ match_hex_run n h = Some "").
  { induction n as [|n IH]; intros t rest Ht; simpl in Ht.
    - simplify_eq. now exists "".
    - destruct t as [|c t]; [discriminate|].
      destruct (is_lower_hex c) eqn:Hc; [|discriminate].
      destruct (IH _ _ Ht) as (h & -> & Hh).
      exists (String c h). rewrite app_cons. split; [reflexivity|].
      simpl. now rewrite Hc. }
  assert (Happ : ∀ n h rest, match_hex_run n h = Some "" →
            match_hex_run n (h +:+ rest) = Some rest).
  { induction n as [|n IH]; intros h rest Hh; simpl in Hh.
    - simplify_eq. reflexivity.
    - destruct h as [|c h]; [discriminate|].
      destruct (is_lower_hex c) eqn:Hc; [|discriminate].
      rewrite app_cons. simpl. rewrite Hc. auto. }
  split.
  - destruct (match_hex_run 32 s) as [rest|] eqn:Hs; [|discriminate].
    intros [H|H]%orb_true_iff; apply bool_decide_eq_true in H; subst rest.
    + left. reflexivity.
    + right. destruct (Hrun _ _ _ Hs) as (h & -> & Hh).
      exists h. now rewrite Hh.
  - intros [H|(h & -> & H)].
    + destruct (match_hex_run 32 s) as [rest|]; [|discriminate].
      apply bool_decide_eq_true in H. now subst.
    + destruct (match_hex_run 32 h) as [rest|] eqn:Hh; [|discriminate].
      apply bool_decide_eq_true in H. subst rest.
      now rewrite (Happ _ _ newline Hh).
Qed.

End identifiers.

(* ===================================================================== *)
(** ** Running the file system calls *)
(* ===================================================================== *)

Section runs.

Lemma run_bind {A B} (m : M A) (f : A → M B) (w : world) :
  (m ≫= f) w = match m w with
               | (Returns a, w') => f a w'
               | (Raises e, w') => (Raises e, w')
               end.
Proof. reflexivity. Qed.

Lemma Path_exists_run (p : path) (w : world) :
  Path_exists p w
  = (Returns (bool_decide (is_Some (files w !! p))), logged (OpExists p) w).
Proof. reflexivity. Qed.

Lemma Path_stat_mtime_run (p : path) (w : world) :
  Path_stat_mtime p w
  = match files w !! p with
    | Some n => (Returns (st_mtime n), logged (OpStat p) w)
    | None => (Raises FileNotFoundError, logged (OpStat p) w)
    end.
Proof. unfold Path_stat_mtime. run_monad. now destruct (files w !! p). Qed.

Lemma Path_unlink_run (p : path) (w : world) :
  Path_unlink_missing_ok p w
  = if is_dir (files w !! p)
    then (Raises IsADirectoryError, logged (OpUnlink p) w)
    else (Returns tt,
          World (delete p (files w)) (clock w) (trace w ++ [OpUnlink p])).
Proof.
  unfold Path_unlink_missing_ok. run_monad.
  destruct (files w !! p) as [[t data|t]|] eqn:Hp; simpl; try reflexivity.
  now rewrite delete_id.
Qed.

Lemma Path_read_bytes_run (p : path) (w : world) :
  Path_read_bytes p w
  = match files w !! p with
    | Some (File _ data) => (Returns data, logged (OpRead p) w)
    | Some (Dir _) => (Raises IsADirectoryError, logged (OpRead p) w)
    | None => (Raises FileNotFoundError, logged (OpRead p) w)
    end.
Proof.
  unfold Path_read_bytes. run_monad.
  now destruct (files w !! p) as [[t data|t]|].
Qed.

Lemma Path_glob_suffix_run (d : path) (suffix : string) (w : world) :
  Path_glob_suffix d suffix w
  = (Returns (if is_dir (files w !! d)
              then scan_suffix (files w) d suffix else []),
     logged (OpScandir d) w).
Proof. reflexivity. Qed.

Lemma dataset_is_expired_run (p : path) (ttl : Z) (w : world) :
  dataset_store._is_expired p ttl w
  = match files w !! p with
    | Some n => (Returns (ttl <? clock w - st_mtime n), logged (OpStat p) w)
    | None => (Raises FileNotFoundError, logged (OpStat p) w)
    end.
Proof.
  unfold dataset_store._is_expired. rewrite run_bind. unfold time_time.
  rewrite run_bind, Path_stat_mtime_run. now destruct (files w !! p).
Qed.

Lemma result_is_expired_run (p : path) (ttl : Z) (w : world) :
  result_store._is_expired p ttl w
  = match files w !! p with
    | Some n => (Returns (ttl <? clock w - st_mtime n), logged (OpStat p) w)
    | None => (Raises FileNotFoundError, logged (OpStat p) w)
    end.
Proof. apply dataset_is_expired_run. Qed.

Lemma lookup_remove_all (ps : list path) (fsm : gmap path node) (q : path) :
  remove_all ps fsm !! q = if decide (q ∈ ps) then None else fsm !! q.
Proof.
  induction ps as [|p ps IH]; simpl.
  - destruct (decide (q ∈ [])) as [Hq|_]; [|reflexivity].
    now apply not_elem_of_nil in Hq.
  - destruct (decide (p = q)) as [->|Hne].
    + rewrite lookup_delete_eq.
      destruct (decide (q ∈ q :: ps)) as [_|Hq]; [reflexivity|].
      destruct Hq. apply list_elem_of_here.
    + rewrite lookup_delete_ne by done. rewrite IH.
      destruct (decide (q ∈ ps)) as [Hq|Hq];
        destruct (decide (q ∈ p :: ps)) as [Hq'|Hq']; try reflexivity.
      * destruct Hq'. now apply list_elem_of_further.
      * apply elem_of_cons in Hq' as [?|?]; congruence.
Qed.

Lemma flat_under_spec (fsm : gmap path node) (d : path) :
  flat_under fsm d = true →
  ∀ name, is_dir (fsm !! joinpath d name) = false.
Proof.
  unfold flat_under. rewrite forallb_forall. intros H name.
  destruct (fsm !! joinpath d name) as [n|] eqn:Hn; [|reflexivity].
  specialize (H (joinpath d name, n)). simpl in H.
  rewrite child_name_joinpath in H.
  apply negb_true_iff, H, list_elem_of_In. now apply elem_of_map_to_list.
Qed.

Lemma elem_of_scan_suffix (fsm : gmap path node) (d : path) (suffix : string)
    (p : path) :
  p ∈ scan_suffix fsm d suffix ↔
  ∃ name, p = joinpath d name ∧ PyStr.endswith name suffix = true
          ∧ is_Some (fsm !! p).
Proof.
  unfold scan_suffix. rewrite list_elem_of_omap. split.
  - intros ([q n] & Hin & Hq). apply elem_of_map_to_list in Hin.
    destruct (child_name d q) as [name|] eqn:Hc; [|discriminate].
    destruct (PyStr.endswith name suffix) eqn:He; [|discriminate].
    simplify_eq. apply child_name_Some in Hc. eauto.
  - intros (name & -> & He & [n Hn]). exists (joinpath d name, n). split.
    + now apply elem_of_map_to_list.
    + now rewrite child_name_joinpath, He.
Qed.

Lemma NoDup_scan_suffix (fsm : gmap path node) (d : path) (suffix : string) :
  NoDup (scan_suffix fsm d suffix).
Proof.
  unfold scan_suffix. pose proof (NoDup_fst_map_to_list fsm) as Hnd.
  induction (map_to_list fsm) as [|[q n] l IH]; simpl; [constructor|].
  simpl in Hnd. apply NoDup_cons in Hnd as [Hq Hl].
  destruct (child_name d q) as [name|]; [|auto].
  destruct (PyStr.endswith name suffix); [|auto].
  apply NoDup_cons. split; [|auto].
  intros ([q' n'] & Hin & Hq')%list_elem_of_omap.
  destruct (child_name d q'); [|discriminate].
  destruct (PyStr.endswith _ suffix); [|discriminate].
  simplify_eq. apply Hq. apply list_elem_of_fmap. now exists (q, n').
Qed.

End runs.

(* ===================================================================== *)
(** ** The sweep loops *)
(* ===================================================================== *)

Section loops.

Lemma filter_ext_elem {A} (P Q : A → Prop) `{!∀ x, Decision (P x)}
    `{!∀ x, Decision (Q x)} (l : list A) :
  (∀ x, x ∈ l → (P x ↔ Q x)) → filter P l = filter Q l.
Proof.
  induction l as [|a l IH]; intros Hext; [reflexivity|].
  rewrite !filter_cons.
  rewrite IH by (intros x Hx; apply Hext; now apply list_elem_of_further).
  pose proof (Hext a (list_elem_of_here _ _)) as Ha.
  destruct (decide (P a)), (decide (Q a)); try reflexivity; tauto.
Qed.

Lemma expired_entries_ext (w1 w2 : world) (ttl : Z) (entries : list path) :
  clock w1 = clock w2 →
  (∀ p, p ∈ entries → files w1 !! p = files w2 !! p) →
  expired_entries w1 ttl entries = expired_entries w2 ttl entries.
Proof.
  intros Hc Hf. apply filter_ext_elem. intros p Hp.
  unfold expired_in. now rewrite Hc, (Hf p Hp).
Qed.

Lemma remove_all_app (ps qs : list path) (fsm : gmap path node) :
  remove_all (ps ++ qs) fsm = remove_all ps (remove_all qs fsm).
Proof. unfold remove_all. apply foldr_app. Qed.

Lemma remove_all_equiv (ps qs : list path) (fsm : gmap path node) :
  (∀ q, q ∈ ps ↔ q ∈ qs) → remove_all ps fsm = remove_all qs fsm.
Proof.
  intros Heq. apply map_eq. intros q. rewrite !lookup_remove_all.
  specialize (Heq q).
  destruct (decide (q ∈ ps)), (decide (q ∈ qs)); try reflexivity; tauto.
Qed.

Lemma dataset_loop_returns (d : path) (ttl : Z) (entries : list path) :
  ∀ (acc : Z) (w : world) (n : Z) (w' : world),
  NoDup entries →
  (∀ p x, p ∈ entries → p ≠ dataset_store._meta_path d x) →
  dataset_store.cleanup_loop d ttl entries acc w = (Returns n, w') →
  let exp := expired_entries w ttl entries in
  files w' = remove_all (exp ++ metas d exp) (files w)
  ∧ clock w' = clock w
  ∧ n = acc + Z.of_nat (length exp)
  ∧ (∀ p, p ∈ entries → is_Some (files w !! p))
  ∧ ∃ ops, trace w' = trace w ++ ops ∧ ∀ q, OpStat q ∈ ops ↔ q ∈ entries.
Proof.
  induction entries as [|p rest IH]; intros acc w n w' Hnd Hmeta Hrun exp.
  - simpl in Hrun. injection Hrun as <- <-. subst exp. simpl.
    repeat split; try lia.
    + intros p Hp. now apply not_elem_of_nil in Hp.
    + exists []. rewrite app_nil_r. split; [reflexivity|].
      intros q. split; intros Hq; now apply not_elem_of_nil in Hq.
  - apply NoDup_cons in Hnd as [Hp Hnd].
    assert (Hmeta' : ∀ q x, q ∈ rest → q ≠ dataset_store._meta_path d x).
    { intros q x Hq. apply Hmeta. now apply list_elem_of_further. }
    simpl in Hrun. rewrite run_bind, dataset_is_expired_run in Hrun.
    destruct (files w !! p) as [node|] eqn:Hnode; [|discriminate].
    destruct (ttl <? clock w - st_mtime node) eqn:Hexp.
    + (* expired: both unlinks, then the rest *)
      set (m := dataset_store._meta_path d (stem p)) in *.
      unfold dataset_store._safe_unlink in Hrun.
      rewrite run_bind, Path_unlink_run in Hrun. simpl files in Hrun.
      destruct (is_dir (files w !! p)); [discriminate|].
      rewrite run_bind, Path_unlink_run in Hrun. simpl files in Hrun.
      destruct (is_dir (delete p (files w) !! m)); [discriminate|].
      simpl in Hrun.
      apply IH in Hrun as (Hf & Hc & Hn & Hpres & ops & Ht & Hops);
        try assumption.
      simpl in Hf, Hc, Hn, Hpres, Ht.
      match type of Hn with
      | context [expired_entries ?w2 _ _] =>
          assert (Hsame : expired_entries w2 ttl rest
                          = expired_entries w ttl rest)
      end.
      { apply expired_entries_ext; [reflexivity|]. intros q Hq. simpl.
        rewrite !lookup_delete_ne; [reflexivity| |].
        - intros ->. contradiction.
        - intros <-. now apply (Hmeta' m (stem p)). }
      rewrite Hsame in Hf, Hn.
      assert (Hexp' : exp = p :: expired_entries w ttl rest).
      { subst exp. unfold expired_entries. rewrite filter_cons_True; [done|].
        unfold expired_in. now rewrite Hnode. }
      rewrite Hexp'. repeat split.
      * rewrite Hf.
        change (delete m (delete p (files w)))
          with (remove_all [m; p] (files w)).
        rewrite <- remove_all_app. apply remove_all_equiv. intros q.
        unfold metas. rewrite fmap_cons. fold m.
        repeat (rewrite elem_of_app || rewrite elem_of_cons).
        rewrite elem_of_nil. tauto.
      * exact Hc.
      * rewrite Hn. simpl length. lia.
      * intros q [->|Hq]%elem_of_cons; [now rewrite Hnode|].
        destruct (Hpres q Hq) as [x Hx].
        rewrite !lookup_delete_Some in Hx. destruct Hx as (_ & _ & Hx). eauto.
      * exists ([OpStat p; OpUnlink p; OpUnlink m] ++ ops). split.
        { rewrite Ht. now rewrite <- !app_assoc. }
        intros q. rewrite elem_of_app, !elem_of_cons, elem_of_nil, Hops.
        split; [intros [[?|[?|[?|[]]]]|?]; simplify_eq; auto | intros [->|?]; auto].
    + (* fresh: only the rest *)
      apply IH in Hrun as (Hf & Hc & Hn & Hpres & ops & Ht & Hops);
        try assumption.
      simpl in Hf, Hc, Hn, Hpres, Ht.
      assert (Hsame : expired_entries (logged (OpStat p) w) ttl rest
                      = expired_entries w ttl rest).
      { now apply expired_entries_ext. }
      rewrite Hsame in Hf, Hn.
      assert (Hexp' : exp = expired_entries w ttl rest).
      { subst exp. unfold expired_entries. rewrite filter_cons_False; [done|].
        unfold expired_in. rewrite Hnode, Hexp. discriminate. }
      rewrite Hexp'. repeat split; try assumption.
      * intros q [->|Hq]%elem_of_cons; [now rewrite Hnode | auto].
      * exists (OpStat p :: ops). split.
        { rewrite Ht. now rewrite <- app_assoc. }
        intros q. rewrite !elem_of_cons, Hops.
        split; [intros [?|?]; simplify_eq; auto | intros [->|?]; auto].
Qed.

Lemma is_dir_delete (fsm : gmap path node) (x y : path) :
  is_dir (fsm !! y) = false → is_dir (delete x fsm !! y) = false.
Proof.
  intros H. destruct (decide (x = y)) as [->|Hne].
  - now rewrite lookup_delete_eq.
  - now rewrite lookup_delete_ne.
Qed.



Lemma result_loop_returns (ttl : Z) (entries : list path) :
  ∀ (acc : Z) (w : world) (n : Z) (w' : world),
  NoDup entries →
  result_store.cleanup_loop ttl entries acc w = (Returns n, w') →
  let exp := expired_entries w ttl entries in
  files w' = remove_all exp (files w)
  ∧ clock w' = clock w
  ∧ n = acc + Z.of_nat (length exp)
  ∧ (∀ p, p ∈ entries → is_Some (files w !! p))
  ∧ ∃ ops, trace w' = trace w ++ ops ∧ ∀ q, OpStat q ∈ ops ↔ q ∈ entries.
Proof.
  induction entries as [|p rest IH]; intros acc w n w' Hnd Hrun exp.
  - simpl in Hrun. injection Hrun as <- <-. subst exp. simpl.
    repeat split; try lia.
    + intros p Hp. now apply not_elem_of_nil in Hp.
    + exists []. rewrite app_nil_r. split; [reflexivity|].
      intros q. split; intros Hq; now apply not_elem_of_nil in Hq.
  - apply NoDup_cons in Hnd as [Hp Hnd].
    simpl in Hrun. rewrite run_bind, result_is_expired_run in Hrun.
    destruct (files w !! p) as [node|] eqn:Hnode; [|discriminate].
    destruct (ttl <? clock w - st_mtime node) eqn:Hexp.
    + rewrite run_bind, Path_unlink_run in Hrun. simpl files in Hrun.
      destruct (is_dir (files w !! p)); [discriminate|].
      apply IH in Hrun as (Hf & Hc & Hn & Hpres & ops & Ht & Hops);
        try assumption.
      simpl in Hf, Hc, Hn, Hpres, Ht.
      match type of Hn with
      | context [expired_entries ?w2 _ _] =>
          assert (Hsame : expired_entries w2 ttl rest
                          = expired_entries w ttl rest)
      end.
      { apply expired_entries_ext; [reflexivity|]. intros q Hq. simpl.
        rewrite lookup_delete_ne; [reflexivity|]. intros ->. contradiction. }
      rewrite Hsame in Hf, Hn.
      assert (Hexp' : exp = p :: expired_entries w ttl rest).
      { subst exp. unfold expired_entries. rewrite filter_cons_True; [done|].
        unfold expired_in. now rewrite Hnode. }
      rewrite Hexp'. repeat split.
      * rewrite Hf.
        change (delete p (files w)) with (remove_all [p] (files w)).
        rewrite <- remove_all_app. apply remove_all_equiv. intros q.
        repeat (rewrite elem_of_app || rewrite elem_of_cons).
        rewrite elem_of_nil. tauto.
      * exact Hc.
      * rewrite Hn. simpl length. lia.
      * intros q [->|Hq]%elem_of_cons; [now rewrite Hnode|].
        destruct (Hpres q Hq) as [x Hx].
        rewrite lookup_delete_Some in Hx. destruct Hx as (_ & Hx). eauto.
      * exists ([OpStat p; OpUnlink p] ++ ops). split.
        { rewrite Ht. now rewrite <- !app_assoc. }
        intros q. rewrite elem_of_app, !elem_of_cons, elem_of_nil, Hops.
        split; [intros [[?|[?|[]]]|?]; simplify_eq; auto | intros [->|?]; auto].
    + apply IH in Hrun as (Hf & Hc & Hn & Hpres & ops & Ht & Hops);
        try assumption.
      simpl in Hf, Hc, Hn, Hpres, Ht.
      assert (Hsame : expired_entries (logged (OpStat p) w) ttl rest
                      = expired_entries w ttl rest).
      { now apply expired_entries_ext. }
      rewrite Hsame in Hf, Hn.
      assert (Hexp' : exp = expired_entries w ttl rest).
      { subst exp. unfold expired_entries. rewrite filter_cons_False; [done|].
        unfold expired_in. rewrite Hnode, Hexp. discriminate. }
      rewrite Hexp'. repeat split; try assumption.
      * intros q [->|Hq]%elem_of_cons; [now rewrite Hnode | auto].
      * exists (OpStat p :: ops). split.
        { rewrite Ht. now rewrite <- app_assoc. }
        intros q. rewrite !elem_of_cons, Hops.
        split; [intros [?|?]; simplify_eq; auto | intros [->|?]; auto].
Qed.



Lemma dataset_loop_frame (d : path) (ttl : Z) (entries : list path) :
  ∀ (acc : Z) (w : world) (r : outcome Z) (w' : world),
  NoDup entries →
  (∀ p x, p ∈ entries → p ≠ dataset_store._meta_path d x) →
  dataset_store.cleanup_loop d ttl entries acc w = (r, w') →
  let exp := expired_entries w ttl entries in
  ∀ q, q ∉ exp ++ metas d exp → files w' !! q = files w !! q.
Proof.
  induction entries as [|p rest IH]; intros acc w r w' Hnd Hmeta Hrun exp q Hq.
  - simpl in Hrun. now injection Hrun as <- <-.
  - apply NoDup_cons in Hnd as [Hp Hnd].
    assert (Hmeta' : ∀ q x, q ∈ rest → q ≠ dataset_store._meta_path d x).
    { intros q' x Hq'. apply Hmeta. now apply list_elem_of_further. }
    simpl in Hrun. rewrite run_bind, dataset_is_expired_run in Hrun.
    destruct (files w !! p) as [node|] eqn:Hnode;
      [|now injection Hrun as <- <-].
    destruct (ttl <? clock w - st_mtime node) eqn:Hexp.
    + set (m := dataset_store._meta_path d (stem p)) in *.
      assert (Hexp' : exp = p :: expired_entries w ttl rest).
      { subst exp. unfold expired_entries. rewrite filter_cons_True; [done|].
        unfold expired_in. now rewrite Hnode. }
      rewrite Hexp' in Hq. unfold metas in Hq. rewrite fmap_cons in Hq. fold m in Hq.
      assert (Hqp : q ≠ p).
      { intros ->. apply Hq. apply elem_of_app. left. apply list_elem_of_here. }
      assert (Hqm : q ≠ m).
      { intros ->. apply Hq. apply elem_of_app. right. apply list_elem_of_here. }
      unfold dataset_store._safe_unlink in Hrun.
      rewrite run_bind, Path_unlink_run in Hrun. simpl files in Hrun.
      destruct (is_dir (files w !! p)); [now injection Hrun as <- <-|].
      rewrite run_bind, Path_unlink_run in Hrun. simpl files in Hrun.
      destruct (is_dir (delete p (files w) !! m)).
      { injection Hrun as <- <-. simpl. now rewrite lookup_delete_ne. }
      simpl in Hrun.
      eapply IH in Hrun; try assumption.
      * rewrite Hrun. simpl. now rewrite !lookup_delete_ne.
      * match goal with
        | |- context [expired_entries ?w2 _ _] =>
            replace (expired_entries w2 ttl rest)
              with (expired_entries w ttl rest)
        end.
        { intros Hin. apply Hq.
          repeat (rewrite elem_of_app in * || rewrite elem_of_cons in * ).
          tauto. }
        apply expired_entries_ext; [reflexivity|]. intros q' Hq'. simpl.
        rewrite !lookup_delete_ne; [reflexivity| |].
        -- intros ->. contradiction.
        -- intros <-. now apply (Hmeta' m (stem p)).
    + assert (Hexp' : exp = expired_entries w ttl rest).
      { subst exp. unfold expired_entries. rewrite filter_cons_False; [done|].
        unfold expired_in. rewrite Hnode, Hexp. discriminate. }
      rewrite Hexp' in Hq.
      eapply IH in Hrun; try assumption.
      * rewrite Hrun. reflexivity.
      * replace (expired_entries (logged (OpStat p) w) ttl rest)
          with (expired_entries w ttl rest); [exact Hq|].
        now apply expired_entries_ext.
Qed.

Lemma result_loop_frame (ttl : Z) (entries : list path) :
  ∀ (acc : Z) (w : world) (r : outcome Z) (w' : world),
  NoDup entries →
  result_store.cleanup_loop ttl entries acc w = (r, w') →
  ∀ q, q ∉ expired_entries w ttl entries → files w' !! q = files w !! q.
Proof.
  induction entries as [|p rest IH]; intros acc w r w' Hnd Hrun q Hq.
  - simpl in Hrun. now injection Hrun as <- <-.
  - apply NoDup_cons in Hnd as [Hp Hnd].
    simpl in Hrun. rewrite run_bind, result_is_expired_run in Hrun.
    destruct (files w !! p) as [node|] eqn:Hnode;
      [|now injection Hrun as <- <-].
    destruct (ttl <? clock w - st_mtime node) eqn:Hexp.
    + assert (Hexp' : expired_entries w ttl (p :: rest)
                      = p :: expired_entries w ttl rest).
      { unfold expired_entries. rewrite filter_cons_True; [done|].
        unfold expired_in. now rewrite Hnode. }
      rewrite Hexp' in Hq.
      assert (Hqp : q ≠ p).
      { intros ->. apply Hq. apply list_elem_of_here. }
      rewrite run_bind, Path_unlink_run in Hrun. simpl files in Hrun.
      destruct (is_dir (files w !! p)); [now injection Hrun as <- <-|].
      eapply IH in Hrun; try assumption.
      * rewrite Hrun. simpl. now rewrite lookup_delete_ne.
      * match goal with
        | |- context [expired_entries ?w2 _ _] =>
            replace (expired_entries w2 ttl rest)
              with (expired_entries w ttl rest)
        end.
        { intros Hin. apply Hq. now apply list_elem_of_further. }
        apply expired_entries_ext; [reflexivity|]. intros q' Hq'. simpl.
        rewrite lookup_delete_ne; [reflexivity|]. intros ->. contradiction.
    + assert (Hexp' : expired_entries w ttl (p :: rest)
                      = expired_entries w ttl rest).
      { unfold expired_entries. rewrite filter_cons_False; [done|].
        unfold expired_in. rewrite Hnode, Hexp. discriminate. }
      rewrite Hexp' in Hq.
      eapply IH in Hrun; try assumption.
      * rewrite Hrun. reflexivity.
      * replace (expired_entries (logged (OpStat p) w) ttl rest)
          with (expired_entries w ttl rest); [exact Hq|].
        now apply expired_entries_ext.
Qed.

End loops.

(* ===================================================================== *)
(** ** The sweep of a store *)
(* ===================================================================== *)

Section sweeps.

Lemma elem_of_listing (w : world) (d : path) (suffix : string) (p : path) :
  p ∈ listing w d suffix ↔ payload_entry w d suffix p.
Proof.
  unfold listing, payload_entry.
  destruct (is_dir (files w !! d)).
  - rewrite elem_of_scan_suffix. tauto.
  - rewrite elem_of_nil. split; [tauto | intros [? _]; discriminate].
Qed.

Lemma NoDup_listing (w : world) (d : path) (suffix : string) :
  NoDup (listing w d suffix).
Proof.
  unfold listing. destruct (is_dir _); [apply NoDup_scan_suffix | constructor].
Qed.

Lemma expired_in_older_than (w : world) (ttl : Z) (p : path) :
  expired_in (files w) (clock w) ttl p = true ↔ older_than w ttl p.
Proof.
  unfold expired_in, older_than. destruct (files w !! p) as [n|].
  - rewrite Z.ltb_lt. split.
    + eauto.
    + intros (n' & Hn' & Hlt). now simplify_eq.
  - split; [discriminate | intros (n' & Hn' & _); discriminate].
Qed.

Lemma elem_of_expired_entries (w : world) (d : path) (suffix : string)
    (ttl : Z) (p : path) :
  p ∈ expired_entries w ttl (listing w d suffix)
  ↔ expired_payload w d suffix ttl p.
Proof.
  unfold expired_entries, expired_payload.
  rewrite list_elem_of_filter, elem_of_listing, expired_in_older_than. tauto.
Qed.

Lemma listing_not_meta (w : world) (d : path) (p : path) (x : string) :
  p ∈ listing w d ".pkl" → p ≠ dataset_store._meta_path d x.
Proof.
  intros (_ & name & -> & Hsuf & _)%elem_of_listing Heq.
  apply joinpath_inj in Heq. subst name.
  unfold dataset_store._DATASET_META_SUFFIX in Hsuf.
  now rewrite PyStrFacts.json_name_not_pkl in Hsuf.
Qed.

Lemma listing_logged (o : fs_op) (w : world) (d : path) (suffix : string) :
  listing (logged o w) d suffix = listing w d suffix.
Proof. reflexivity. Qed.

Lemma dataset_sweep_returns (d : path) (ttl : Z) (w : world) (n : Z) (w' : world) :
  dataset_store.cleanup_expired_datasets d ttl w = (Returns n, w') →
  let exp := expired_entries w ttl (listing w d ".pkl") in
  files w' = remove_all (exp ++ metas d exp) (files w)
  ∧ clock w' = clock w
  ∧ n = Z.of_nat (length exp)
  ∧ ∃ ops, trace w' = trace w ++ ops
           ∧ ∀ q, OpStat q ∈ ops ↔ q ∈ listing w d ".pkl".
Proof.
  unfold dataset_store.cleanup_expired_datasets.
  rewrite run_bind, Path_exists_run.
  destruct (bool_decide (is_Some (files w !! d))) eqn:Hd; cbn [negb].
  - rewrite run_bind, Path_glob_suffix_run. simpl files.
    fold (listing w d dataset_store._DATASET_FILE_SUFFIX).
    change dataset_store._DATASET_FILE_SUFFIX with ".pkl".
    intros Hrun. apply dataset_loop_returns in Hrun
      as (Hf & Hc & Hn & _ & ops & Ht & Hops).
    + simpl in Hf, Hc, Hn, Ht.
      match type of Hn with
      | context [expired_entries ?w2 _ _] =>
          replace (expired_entries w2 ttl (listing w d ".pkl"))
            with (expired_entries w ttl (listing w d ".pkl")) in *
            by now apply expired_entries_ext
      end.
      repeat split; try assumption; try lia.
      exists ([OpExists d; OpScandir d] ++ ops). split.
      * rewrite Ht. now rewrite <- !app_assoc.
      * intros q. rewrite elem_of_app, !elem_of_cons, elem_of_nil, Hops.
        split; [intros [[?|[?|[]]]|?]; simplify_eq; auto | auto].
    + apply NoDup_listing.
    + intros p x Hp. now apply listing_not_meta with (w := w).
  - intros Hrun. injection Hrun as <- <-.
    apply bool_decide_eq_false in Hd.
    assert (Hl : listing w d ".pkl" = []).
    { unfold listing. destruct (files w !! d) eqn:Hx; [|reflexivity].
      destruct Hd. eauto. }
    rewrite Hl. simpl. repeat split.
    exists [OpExists d]. split; [reflexivity|].
    intros q. rewrite elem_of_cons, !elem_of_nil.
    split; [intros [?|[]]; discriminate | intros []].
Qed.

Lemma result_sweep_returns (d : path) (ttl : Z) (w : world) (n : Z) (w' : world) :
  result_store.cleanup_expired d ttl w = (Returns n, w') →
  let exp := expired_entries w ttl (listing w d ".csv") in
  files w' = remove_all exp (files w)
  ∧ clock w' = clock w
  ∧ n = Z.of_nat (length exp)
  ∧ ∃ ops, trace w' = trace w ++ ops
           ∧ ∀ q, OpStat q ∈ ops ↔ q ∈ listing w d ".csv".
Proof.
  unfold result_store.cleanup_expired.
  rewrite run_bind, Path_exists_run.
  destruct (bool_decide (is_Some (files w !! d))) eqn:Hd; cbn [negb].
  - rewrite run_bind, Path_glob_suffix_run. simpl files.
    fold (listing w d result_store.RESULT_FILE_SUFFIX).
    change result_store.RESULT_FILE_SUFFIX with ".csv".
    intros Hrun. apply result_loop_returns in Hrun
      as (Hf & Hc & Hn & _ & ops & Ht & Hops).
    + simpl in Hf, Hc, Hn, Ht.
      match type of Hn with
      | context [expired_entries ?w2 _ _] =>
          replace (expired_entries w2 ttl (listing w d ".csv"))
            with (expired_entries w ttl (listing w d ".csv")) in *
            by now apply expired_entries_ext
      end.
      repeat split; try assumption; try lia.
      exists ([OpExists d; OpScandir d] ++ ops). split.
      * rewrite Ht. now rewrite <- !app_assoc.
      * intros q. rewrite elem_of_app, !elem_of_cons, elem_of_nil, Hops.
        split; [intros [[?|[?|[]]]|?]; simplify_eq; auto | auto].
    + apply NoDup_listing.
  - intros Hrun. injection Hrun as <- <-.
    apply bool_decide_eq_false in Hd.
    assert (Hl : listing w d ".csv" = []).
    { unfold listing. destruct (files w !! d) eqn:Hx; [|reflexivity].
      destruct Hd. eauto. }
    rewrite Hl. simpl. repeat split.
    exists [OpExists d]. split; [reflexivity|].
    intros q. rewrite elem_of_cons, !elem_of_nil.
    split; [intros [?|[]]; discriminate | intros []].
Qed.




Lemma elem_of_unlinked (s : store) (w : world) (d : path) (ttl : Z) (q : path) :
  q ∈ unlinked s w d ttl ↔ swept s w d ttl q.
Proof.
  unfold unlinked, swept. destruct s; simpl.
  - rewrite elem_of_app. unfold metas. rewrite list_elem_of_fmap. split.
    + intros [Hq|(p & -> & Hp)].
      * exists q. split; [now apply elem_of_expired_entries | now left].
      * exists p. split; [now apply elem_of_expired_entries|].
        right. apply list_elem_of_here.
    + intros (p & Hp & [->|Hq]).
      * left. now apply elem_of_expired_entries.
      * right. exists p. apply elem_of_cons in Hq as [->|Hq].
        -- split; [reflexivity | now apply elem_of_expired_entries].
        -- now apply not_elem_of_nil in Hq.
  - split.
    + intros Hq. exists q. split; [now apply elem_of_expired_entries | now left].
    + intros (p & Hp & [->|Hq]); [now apply elem_of_expired_entries|].
      now apply not_elem_of_nil in Hq.
Qed.

(** What a sweep that returns has done. *)
Lemma sweep_returns (s : store) (d : path) (ttl : Z) (w : world) (n : Z) (w' : world) :
  sweep s d ttl w = (Returns n, w') →
  files w' = remove_all (unlinked s w d ttl) (files w)
  ∧ clock w' = clock w
  ∧ n = Z.of_nat (length (expired_entries w ttl (listing w d (payload_suffix s))))
  ∧ ∃ ops, trace w' = trace w ++ ops
           ∧ ∀ q, OpStat q ∈ ops ↔ payload_entry w d (payload_suffix s) q.
Proof.
  destruct s; simpl sweep; intros Hrun.
  - apply dataset_sweep_returns in Hrun as (Hf & Hc & Hn & ops & Ht & Hops).
    repeat split; try assumption. exists ops. split; [assumption|].
    intros q. rewrite Hops. apply elem_of_listing.
  - apply result_sweep_returns in Hrun as (Hf & Hc & Hn & ops & Ht & Hops).
    repeat split; try assumption. exists ops. split; [assumption|].
    intros q. rewrite Hops. apply elem_of_listing.
Qed.



(** Whatever its outcome, a sweep changes no path outside those it is to
    unlink. *)
Lemma sweep_frame (s : store) (d : path) (ttl : Z) (w : world)
    (r : outcome Z) (w' : world) :
  sweep s d ttl w = (r, w') →
  ∀ q, ¬ swept s w d ttl q → files w' !! q = files w !! q.
Proof.
  intros Hrun q Hq. rewrite <- elem_of_unlinked in Hq.
  destruct s; simpl sweep in Hrun; unfold unlinked in Hq; simpl in Hq.
  - unfold dataset_store.cleanup_expired_datasets in Hrun.
    rewrite run_bind, Path_exists_run in Hrun.
    destruct (bool_decide (is_Some (files w !! d))); cbn [negb] in Hrun;
      [|now injection Hrun as <- <-].
    rewrite run_bind, Path_glob_suffix_run in Hrun. simpl files in Hrun.
    fold (listing w d dataset_store._DATASET_FILE_SUFFIX) in Hrun.
    eapply dataset_loop_frame in Hrun.
    + rewrite Hrun. reflexivity.
    + apply NoDup_listing.
    + intros p x Hp. now apply listing_not_meta with (w := w).
    + exact Hq.
  - unfold result_store.cleanup_expired in Hrun.
    rewrite run_bind, Path_exists_run in Hrun.
    destruct (bool_decide (is_Some (files w !! d))); cbn [negb] in Hrun;
      [|now injection Hrun as <- <-].
    rewrite run_bind, Path_glob_suffix_run in Hrun. simpl files in Hrun.
    fold (listing w d result_store.RESULT_FILE_SUFFIX) in Hrun.
    eapply result_loop_frame in Hrun.
    + rewrite Hrun. reflexivity.
    + apply NoDup_listing.
    + exact Hq.
Qed.

(** A payload entry whose stem is a valid identifier is the payload file
    of that identifier. *)
Lemma payload_entry_of_stem (w : world) (d : path) (p : path) (x : string) :
  id_pattern_match x = true →
  payload_entry w d ".pkl" p → stem p = x →
  p = dataset_store._dataset_path d x.
Proof.
  intros Hx (_ & name & -> & [pre ->]%PyStrFacts.endswith_true & _) Hstem.
  rewrite stem_pkl in Hstem. case_decide as Hpre.
  - subst x. discriminate Hx.
  - now subst pre.
Qed.

Lemma flat_under_intro (fsm : gmap path node) (d : path) :
  (∀ name, is_dir (fsm !! joinpath d name) = false) → flat_under fsm d = true.
Proof.
  intros H. unfold flat_under. apply forallb_forall. intros [p n] Hin.
  apply list_elem_of_In, elem_of_map_to_list in Hin.
  destruct (child_name d p) as [name|] eqn:Hc; [|reflexivity].
  apply child_name_Some in Hc. subst p.
  specialize (H name). rewrite Hin in H. now rewrite H.
Qed.

Lemma sweep_keeps_flat (s : store) (d d' : path) (ttl : Z) (w : world)
    (n : Z) (w' : world) :
  sweep s d ttl w = (Returns n, w') →
  flat_under (files w) d' = true → flat_under (files w') d' = true.
Proof.
  intros Hrun Hflat. apply (sweep_returns s) in Hrun as (Hf & _).
  apply flat_under_intro. intros name.
  rewrite Hf, lookup_remove_all. destruct (decide _); [reflexivity|].
  now apply flat_under_spec.
Qed.

End sweeps.

Section sweepable_loops.

Lemma expired_entries_cons (w : world) (ttl : Z) (p : path) (rest : list path) :
  expired_entries w ttl (p :: rest)
  = if expired_in (files w) (clock w) ttl p
    then p :: expired_entries w ttl rest else expired_entries w ttl rest.
Proof.
  unfold expired_entries. rewrite filter_cons.
  destruct (expired_in _ _ _ p); [now rewrite decide_True | now rewrite decide_False].
Qed.

(** A loop of the result sweep that returns has met no expired directory. *)
Lemma result_loop_returns_files (ttl : Z) (entries : list path) :
  ∀ (acc : Z) (w : world) (n : Z) (w' : world),
  NoDup entries →
  result_store.cleanup_loop ttl entries acc w = (Returns n, w') →
  ∀ p, p ∈ expired_entries w ttl entries → is_dir (files w !! p) = false.
Proof.
  induction entries as [|p rest IH]; intros acc w n w' Hnd Hrun q Hq.
  - now apply not_elem_of_nil in Hq.
  - apply NoDup_cons in Hnd as [Hp Hnd].
    simpl in Hrun. rewrite run_bind, result_is_expired_run in Hrun.
    rewrite expired_entries_cons in Hq. unfold expired_in at 1 in Hq.
    destruct (files w !! p) as [node|] eqn:Hnode; [|discriminate].
    destruct (ttl <? clock w - st_mtime node) eqn:Hexp.
    + rewrite run_bind, Path_unlink_run in Hrun. simpl files in Hrun.
      rewrite Hnode in Hrun.
      destruct (is_dir (Some node)) eqn:Hdir; [discriminate|].
      apply elem_of_cons in Hq as [->|Hq]; [now rewrite Hnode|].
      assert (Hne : q ≠ p).
      { intros ->. apply Hp. unfold expired_entries in Hq.
        now apply list_elem_of_filter in Hq as [_ Hq]. }
      specialize (IH _ _ _ _ Hnd Hrun q). simpl in IH.
      rewrite lookup_delete_ne in IH by congruence. apply IH.
      unfold expired_entries in *. apply list_elem_of_filter in Hq as [Hq1 Hq2].
      apply list_elem_of_filter. split; [|assumption].
      unfold expired_in in *. simpl. now rewrite lookup_delete_ne by congruence.
    + specialize (IH _ _ _ _ Hnd Hrun q). simpl in IH. apply IH.
      exact Hq.
Qed.

(** The loop of the result sweep returns when no expired entry is a
    directory. *)
Lemma result_loop_total_files (ttl : Z) (entries : list path) :
  ∀ (acc : Z) (w : world),
  NoDup entries →
  (∀ p, p ∈ entries → is_Some (files w !! p)) →
  (∀ p, p ∈ expired_entries w ttl entries → is_dir (files w !! p) = false) →
  ∃ n w', result_store.cleanup_loop ttl entries acc w = (Returns n, w').
Proof.
  induction entries as [|p rest IH]; intros acc w Hnd Hex Hok.
  - simpl. eauto.
  - apply NoDup_cons in Hnd as [Hp Hnd].
    destruct (Hex p (list_elem_of_here _ _)) as [node Hnode].
    simpl. rewrite run_bind, result_is_expired_run, Hnode.
    pose proof (Hok p) as Hokp. rewrite expired_entries_cons in Hokp.
    unfold expired_in at 1 in Hokp. rewrite Hnode in Hokp.
    destruct (ttl <? clock w - st_mtime node) eqn:Hexp.
    + specialize (Hokp (list_elem_of_here _ _)).
      rewrite run_bind, Path_unlink_run. simpl files. rewrite Hnode, Hokp.
      apply IH; [assumption| |]; simpl.
      * intros q Hq. rewrite lookup_delete_ne; [apply Hex; now right|].
        intros ->. contradiction.
      * intros q Hq. apply is_dir_delete. apply Hok.
        rewrite expired_entries_cons. unfold expired_in at 1.
        rewrite Hnode, Hexp. right.
        unfold expired_entries in *. apply list_elem_of_filter in Hq as [Hq1 Hq2].
        apply list_elem_of_filter. split; [|assumption].
        unfold expired_in in *. simpl in Hq1.
        rewrite lookup_delete_ne in Hq1; [assumption|]. intros ->. contradiction.
    + apply IH; [assumption| |]; simpl.
      * intros q Hq. apply Hex. now right.
      * intros q Hq. apply Hok. rewrite expired_entries_cons.
        unfold expired_in at 1. rewrite Hnode, Hexp. exact Hq.
Qed.

Lemma expired_entries_delete (w w2 : world) (ttl : Z) (rest : list path) :
  clock w2 = clock w →
  (∀ q, q ∈ rest → files w2 !! q = files w !! q) →
  expired_entries w2 ttl rest = expired_entries w ttl rest.
Proof.
  intros Hc Hf. unfold expired_entries. apply filter_ext_elem.
  intros q Hq. unfold expired_in. now rewrite Hc, (Hf q Hq).
Qed.

(** A loop of the dataset sweep that returns has met no expired
    directory, and no directory at the metadata path of an expired
    entry. *)
Lemma dataset_loop_returns_files (d : path) (ttl : Z) (entries : list path) :
  ∀ (acc : Z) (w : world) (n : Z) (w' : world),
  NoDup entries →
  (∀ p x, p ∈ entries → p ≠ dataset_store._meta_path d x) →
  dataset_store.cleanup_loop d ttl entries acc w = (Returns n, w') →
  ∀ p, p ∈ expired_entries w ttl entries →
       is_dir (files w !! p) = false
       ∧ is_dir (files w !! dataset_store._meta_path d (stem p)) = false.
Proof.
  induction entries as [|p rest IH]; intros acc w n w' Hnd Hmeta Hrun q Hq.
  - now apply not_elem_of_nil in Hq.
  - apply NoDup_cons in Hnd as [Hp Hnd].
    assert (Hmeta' : ∀ q x, q ∈ rest → q ≠ dataset_store._meta_path d x).
    { intros q' x Hq'. apply Hmeta. now right. }
    simpl in Hrun. rewrite run_bind, dataset_is_expired_run in Hrun.
    rewrite expired_entries_cons in Hq. unfold expired_in at 1 in Hq.
    destruct (files w !! p) as [node|] eqn:Hnode; [|discriminate].
    destruct (ttl <? clock w - st_mtime node) eqn:Hexp.
    + set (m := dataset_store._meta_path d (stem p)) in *.
      unfold dataset_store._safe_unlink in Hrun.
      rewrite run_bind, Path_unlink_run in Hrun. simpl files in Hrun.
      rewrite Hnode in Hrun.
      destruct (is_dir (Some node)) eqn:Hdir; [discriminate|].
      rewrite run_bind, Path_unlink_run in Hrun. simpl files in Hrun.
      assert (Hpm : p ≠ m) by (apply Hmeta; now left).
      rewrite lookup_delete_ne in Hrun by exact Hpm.
      destruct (is_dir (files w !! m)) eqn:Hm; [discriminate|].
      apply elem_of_cons in Hq as [->|Hq]; [now rewrite Hnode|].
      assert (Hqr : q ∈ rest).
      { unfold expired_entries in Hq. now apply list_elem_of_filter in Hq as [_ Hq]. }
      assert (Hne : q ≠ p) by (intros ->; contradiction).
      assert (Hqm : q ≠ m) by now apply Hmeta'.
      specialize (IH _ _ _ _ Hnd Hmeta' Hrun q). simpl in IH.
      rewrite !lookup_delete_ne in IH by congruence.
      destruct IH as [IH1 IH2].
      { erewrite expired_entries_delete; [exact Hq|reflexivity|].
        intros x Hx. simpl. rewrite !lookup_delete_ne; [reflexivity| |].
        - intros ->. contradiction.
        - intros <-. now apply (Hmeta' m (stem p)). }
      split; [exact IH1|].
      destruct (decide (dataset_store._meta_path d (stem q) = m)) as [->|Hmq];
        [exact Hm|].
      rewrite lookup_delete_ne in IH2 by congruence.
      rewrite lookup_delete_ne in IH2; [exact IH2|].
      intros Heq. now apply (Hmeta p (stem q) (list_elem_of_here _ _)).
    + specialize (IH _ _ _ _ Hnd Hmeta' Hrun q). simpl in IH. apply IH. exact Hq.
Qed.

(** The loop of the dataset sweep returns when no expired entry is a
    directory and no directory stands at the metadata path of one. *)
Lemma dataset_loop_total_files (d : path) (ttl : Z) (entries : list path) :
  ∀ (acc : Z) (w : world),
  NoDup entries →
  (∀ p x, p ∈ entries → p ≠ dataset_store._meta_path d x) →
  (∀ p, p ∈ entries → is_Some (files w !! p)) →
  (∀ p, p ∈ expired_entries w ttl entries →
        is_dir (files w !! p) = false
        ∧ is_dir (files w !! dataset_store._meta_path d (stem p)) = false) →
  ∃ n w', dataset_store.cleanup_loop d ttl entries acc w = (Returns n, w').
Proof.
  induction entries as [|p rest IH]; intros acc w Hnd Hmeta Hex Hok.
  - simpl. eauto.
  - apply NoDup_cons in Hnd as [Hp Hnd].
    assert (Hmeta' : ∀ q x, q ∈ rest → q ≠ dataset_store._meta_path d x).
    { intros q' x Hq'. apply Hmeta. now right. }
    destruct (Hex p (list_elem_of_here _ _)) as [node Hnode].
    simpl. rewrite run_bind, dataset_is_expired_run, Hnode.
    pose proof (Hok p) as Hokp. rewrite expired_entries_cons in Hokp.
    unfold expired_in at 1 in Hokp. rewrite Hnode in Hokp.
    destruct (ttl <? clock w - st_mtime node) eqn:Hexp.
    + destruct (Hokp (list_elem_of_here _ _)) as [Hdp Hdm].
      set (m := dataset_store._meta_path d (stem p)) in *.
      unfold dataset_store._safe_unlink.
      rewrite run_bind, Path_unlink_run. simpl files. rewrite Hnode, Hdp.
      rewrite run_bind, Path_unlink_run. simpl files.
      rewrite (is_dir_delete _ p m Hdm).
      assert (Hsame : ∀ q, q ∈ rest →
                delete m (delete p (files w)) !! q = files w !! q).
      { intros q Hq. rewrite !lookup_delete_ne; [reflexivity| |].
        - intros ->. contradiction.
        - intros <-. now apply (Hmeta' m (stem p)). }
      apply IH; [assumption|assumption| |]; simpl.
      * intros q Hq. rewrite (Hsame q Hq). apply Hex. now right.
      * intros q Hq.
        assert (Hq' : q ∈ expired_entries w ttl (p :: rest)).
        { rewrite expired_entries_cons. unfold expired_in at 1.
          rewrite Hnode, Hexp. right.
          erewrite <- expired_entries_delete; [exact Hq|reflexivity|].
          intros x Hx. simpl. exact (Hsame x Hx). }
        destruct (Hok q Hq') as [H1 H2].
        split; do 2 apply is_dir_delete; assumption.
    + apply IH; [assumption|assumption| |]; simpl.
      * intros q Hq. apply Hex. now right.
      * intros q Hq. apply Hok. rewrite expired_entries_cons.
        unfold expired_in at 1. rewrite Hnode, Hexp. exact Hq.
Qed.

End sweepable_loops.

Section sweepable_sweeps.

Lemma listing_exists (w : world) (d : path) (suffix : string) (p : path) :
  p ∈ listing w d suffix → is_Some (files w !! p).
Proof. now intros (_ & name & -> & _ & H)%elem_of_listing. Qed.

(** A sweep returns exactly when nothing it is to remove is a
    directory. *)
Lemma sweep_returns_iff (s : store) (d : path) (ttl : Z) (w : world) :
  (∃ n w', sweep s d ttl w = (Returns n, w')) ↔ sweepable s w d ttl.
Proof.
  unfold sweepable. split.
  - intros (n & w' & Hrun) q Hsw. pose proof Hsw as Hq.
    apply elem_of_unlinked in Hq.
    destruct s; simpl sweep in Hrun; unfold unlinked in Hq; simpl in Hq.
    + unfold dataset_store.cleanup_expired_datasets in Hrun.
      rewrite run_bind, Path_exists_run in Hrun.
      destruct (bool_decide (is_Some (files w !! d))) eqn:Hd; cbn [negb] in Hrun.
      * rewrite run_bind, Path_glob_suffix_run in Hrun. simpl files in Hrun.
        fold (listing w d dataset_store._DATASET_FILE_SUFFIX) in Hrun.
        pose proof (dataset_loop_returns_files d ttl _ _ _ _ _
                      (NoDup_listing _ _ _)
                      (λ p x Hp, listing_not_meta w d p x Hp) Hrun) as Hok.
        simpl in Hok.
        apply elem_of_app in Hq as [Hq|Hq].
        -- now apply (Hok q).
        -- unfold metas in Hq. apply list_elem_of_fmap in Hq as (p & -> & Hp).
           now apply (Hok p).
      * apply bool_decide_eq_false in Hd.
        destruct Hsw as (p & [[Hdir _] _] & _).
        destruct (files w !! d) eqn:Hx; [|discriminate]. destruct Hd. eauto.
    + unfold result_store.cleanup_expired in Hrun.
      rewrite run_bind, Path_exists_run in Hrun.
      destruct (bool_decide (is_Some (files w !! d))) eqn:Hd; cbn [negb] in Hrun.
      * rewrite run_bind, Path_glob_suffix_run in Hrun. simpl files in Hrun.
        fold (listing w d result_store.RESULT_FILE_SUFFIX) in Hrun.
        pose proof (result_loop_returns_files ttl _ _ _ _ _
                      (NoDup_listing _ _ _) Hrun) as Hok.
        simpl in Hok. now apply (Hok q).
      * apply bool_decide_eq_false in Hd.
        destruct Hsw as (p & [[Hdir _] _] & _).
        destruct (files w !! d) eqn:Hx; [|discriminate]. destruct Hd. eauto.
  - intros Hok.
    destruct s; simpl sweep.
    + unfold dataset_store.cleanup_expired_datasets.
      rewrite run_bind, Path_exists_run.
      destruct (bool_decide (is_Some (files w !! d))); cbn [negb]; [|eauto].
      rewrite run_bind, Path_glob_suffix_run. simpl files.
      fold (listing w d dataset_store._DATASET_FILE_SUFFIX).
      apply dataset_loop_total_files.
      * apply NoDup_listing.
      * intros p x Hp. now apply listing_not_meta with (w := w).
      * intros p Hp. simpl. now apply listing_exists in Hp.
      * intros p Hp. simpl.
        split; apply Hok, (elem_of_unlinked Datasets); unfold unlinked; simpl;
          apply elem_of_app; [left; exact Hp | right].
        unfold metas. apply list_elem_of_fmap. eauto.
    + unfold result_store.cleanup_expired.
      rewrite run_bind, Path_exists_run.
      destruct (bool_decide (is_Some (files w !! d))); cbn [negb]; [|eauto].
      rewrite run_bind, Path_glob_suffix_run. simpl files.
      fold (listing w d result_store.RESULT_FILE_SUFFIX).
      apply result_loop_total_files.
      * apply NoDup_listing.
      * intros p Hp. simpl. now apply listing_exists in Hp.
      * intros p Hp. simpl. apply Hok, (elem_of_unlinked Results). exact Hp.
Qed.

End sweepable_sweeps.

Section after_sweep.

(** A sweep that returns leaves sweepable what was sweepable. *)
Lemma sweepable_after_sweep (s s' : store) (d d' : path) (ttl : Z) (w : world)
    (n : Z) (w' : world) :
  sweep s d ttl w = (Returns n, w') →
  sweepable s' w d' ttl → sweepable s' w' d' ttl.
Proof.
  intros Hrun Hok q Hq. apply (sweep_returns s) in Hrun as (Hf & Hc & _).
  assert (Hsome : ∀ x node, files w' !! x = Some node → files w !! x = Some node).
  { intros x node. rewrite Hf, lookup_remove_all. now destruct (decide _). }
  assert (Hdir : ∀ x, is_dir (files w' !! x) = true → is_dir (files w !! x) = true).
  { intros x. rewrite Hf, lookup_remove_all. now destruct (decide _). }
  assert (Hq' : swept s' w d' ttl q).
  { destruct Hq as (p & [(Hd & name & -> & Hsuf & [node Hnode]) (node' & Hn' & Hlt)]
                      & Hcase).
    exists (joinpath d' name). split; [|exact Hcase]. split.
    - split; [now apply Hdir|]. exists name. repeat split; eauto.
    - exists node'. split; [now apply Hsome|]. now rewrite <- Hc. }
  specialize (Hok q Hq'). rewrite Hf, lookup_remove_all.
  now destruct (decide _).
Qed.

End after_sweep.

(* ===================================================================== *)
(** ** Saving and loading *)
(* ===================================================================== *)

Section loads.
Context {E : Externals}.

Lemma Path_write_bytes_run (p : path) (data : bytes) (w : world) :
  Path_write_bytes p data w
  = match files w !! parent p with
    | Some (Dir _) =>
        if is_dir (files w !! p)
        then (Raises IsADirectoryError, logged (OpWrite p) w)
        else (Returns tt,
              World (<[p := File (clock w) data]> (files w)) (clock w)
                    (trace w ++ [OpWrite p]))
    | Some (File _ _) => (Raises NotADirectoryError, logged (OpWrite p) w)
    | None => (Raises FileNotFoundError, logged (OpWrite p) w)
    end.
Proof.
  unfold Path_write_bytes. run_monad.
  destruct (files w !! parent p) as [[t data'|t]|]; try reflexivity.
  now destruct (files w !! p) as [[t' data'|t']|].
Qed.

Lemma load_dataset_invalid (id : string) (d : path) (ttl : Z) (w : world) :
  id_pattern_match id = false →
  dataset_store.load_dataset id d ttl w = (Raises DatasetNotFoundError, w).
Proof.
  intros Hid. unfold dataset_store.load_dataset, dataset_store._resolve_dataset_path.
  rewrite run_bind, Hid. reflexivity.
Qed.

Lemma load_dataset_valid (id : string) (d : path) (ttl : Z) (w : world) :
  id_pattern_match id = true →
  let p := dataset_store._dataset_path d id in
  let m := dataset_store._meta_path d id in
  dataset_store.load_dataset id d ttl w
  = match files w !! p with
    | None => (Raises DatasetNotFoundError, logged (OpExists p) w)
    | Some n =>
        let w1 := logged (OpStat p) (logged (OpExists p) w) in
        if ttl <? clock w - st_mtime n then
          if is_dir (Some n) then (Raises IsADirectoryError, logged (OpUnlink p) w1)
          else
            let w2 := World (delete p (files w)) (clock w) (trace w1 ++ [OpUnlink p]) in
            if is_dir (delete p (files w) !! m)
            then (Raises IsADirectoryError, logged (OpUnlink m) w2)
            else (Raises DatasetNotFoundError,
                  World (delete m (delete p (files w))) (clock w)
                        (trace w2 ++ [OpUnlink m]))
        else
          let w2 := logged (OpRead p) w1 in
          match n with
          | File _ data =>
              match read_pickle data with
              | Some df =>
                  (Returns (df, stored_filename (files w) m),
                   if bool_decide (is_Some (files w !! m))
                   then logged (OpRead m) (logged (OpExists m) w2)
                   else logged (OpExists m) w2)
              | None => (Raises DatasetNotFoundError, w2)
              end
          | Dir _ => (Raises DatasetNotFoundError, w2)
          end
    end.
Proof.
  intros Hid p m.
  unfold dataset_store.load_dataset, dataset_store._resolve_dataset_path,
    dataset_store._resolve_meta_path, dataset_store._safe_unlink.
  rewrite Hid. cbn [negb]. rewrite !run_bind. fold p m.
  change ((mret p : M path) w) with (Returns p, w). cbv iota beta.
  rewrite run_bind. change ((mret m : M path) w) with (Returns m, w).
  cbv iota beta. rewrite run_bind, Path_exists_run.
  destruct (files w !! p) as [n|] eqn:Hp.
  2:{ rewrite bool_decide_eq_false_2 by apply is_Some_None.
      reflexivity. }
  rewrite bool_decide_eq_true_2 by eauto. cbn [negb].
  rewrite run_bind, dataset_is_expired_run. cbn [files clock logged].
  rewrite Hp. destruct (ttl <? clock w - st_mtime n).
  - rewrite run_bind, Path_unlink_run. cbn [files clock trace logged].
    rewrite Hp. destruct (is_dir (Some n)); [reflexivity|].
    rewrite run_bind, Path_unlink_run. cbn [files clock trace].
    destruct (is_dir (delete p (files w) !! m)); reflexivity.
  - rewrite run_bind. unfold try_except at 1, dataset_store.pd_read_pickle.
    rewrite run_bind, Path_read_bytes_run. cbn [files clock trace logged].
    rewrite Hp. destruct n as [t data|t]; [|reflexivity].
    destruct (read_pickle data) as [df|]; [|reflexivity].
    change ((mret df : M DataFrame) ?w0) with (Returns df, w0).
    cbv iota beta. rewrite run_bind, Path_exists_run. cbn [files logged].
    unfold stored_filename.
    destruct (files w !! m) as [nm|] eqn:Hm.
    2:{ rewrite bool_decide_eq_false_2 by apply is_Some_None.
        reflexivity. }
    rewrite bool_decide_eq_true_2 by eauto.
    rewrite run_bind. unfold try_except, dataset_store.json_loads_text.
    rewrite !run_bind, Path_read_bytes_run. cbn [files logged]. rewrite Hm.
    destruct nm as [tm datam|tm]; [|reflexivity].
    destruct (json_loads datam) as [[| | | | | |items]|]; reflexivity.
Qed.

Lemma load_result_csv_invalid (id : string) (d : path) (ttl : Z) (w : world) :
  id_pattern_match id = false →
  result_store.load_result_csv id d ttl w = (Raises ResultNotFoundError, w).
Proof.
  intros Hid. unfold result_store.load_result_csv, result_store._resolve_result_path.
  rewrite run_bind, Hid. reflexivity.
Qed.

Lemma load_result_csv_valid (id : string) (d : path) (ttl : Z) (w : world) :
  id_pattern_match id = true →
  let p := joinpath d (id +:+ result_store.RESULT_FILE_SUFFIX) in
  result_store.load_result_csv id d ttl w
  = match files w !! p with
    | None => (Raises ResultNotFoundError, logged (OpExists p) w)
    | Some n =>
        let w1 := logged (OpStat p) (logged (OpExists p) w) in
        if ttl <? clock w - st_mtime n then
          if is_dir (Some n) then (Raises IsADirectoryError, logged (OpUnlink p) w1)
          else (Raises ResultNotFoundError,
                World (delete p (files w)) (clock w) (trace w1 ++ [OpUnlink p]))
        else
          match n with
          | File _ data => (Returns data, logged (OpRead p) w1)
          | Dir _ => (Raises IsADirectoryError, logged (OpRead p) w1)
          end
    end.
Proof.
  intros Hid p.
  unfold result_store.load_result_csv, result_store._resolve_result_path.
  rewrite Hid. cbn [negb]. rewrite !run_bind. fold p.
  change ((mret p : M path) w) with (Returns p, w). cbv iota beta.
  rewrite run_bind, Path_exists_run.
  destruct (files w !! p) as [n|] eqn:Hp.
  2:{ rewrite bool_decide_eq_false_2 by apply is_Some_None. reflexivity. }
  rewrite bool_decide_eq_true_2 by eauto. cbn [negb].
  rewrite run_bind, result_is_expired_run. cbn [files clock logged].
  rewrite Hp. destruct (ttl <? clock w - st_mtime n).
  - rewrite run_bind, Path_unlink_run. cbn [files clock trace logged].
    rewrite Hp. destruct (is_dir (Some n)); reflexivity.
  - rewrite Path_read_bytes_run. cbn [files clock trace logged].
    rewrite Hp. destruct n as [t data|t]; reflexivity.
Qed.

Lemma dataset_paths_differ (d : path) (id id' : string) :
  dataset_store._dataset_path d id ≠ dataset_store._meta_path d id'.
Proof.
  intros Heq. apply joinpath_inj in Heq.
  pose proof (PyStrFacts.endswith_app id dataset_store._DATASET_FILE_SUFFIX) as Hs.
  rewrite Heq in Hs. unfold dataset_store._DATASET_META_SUFFIX in Hs.
  change dataset_store._DATASET_FILE_SUFFIX with ".pkl" in Hs.
  now rewrite PyStrFacts.json_name_not_pkl in Hs.
Qed.

(** What a [save_dataset] that returns has written. *)
Lemma save_dataset_returns (u : N) (df : DataFrame) (fn : string) (d : path)
    (w : world) (id : string) (w1 : world) :
  dataset_store.save_dataset u df fn d w = (Returns id, w1) →
  id = uuid_hex u ∧
  ∃ wa, Path_mkdir_parents_exist_ok d w = (Returns tt, wa)
    ∧ clock w1 = clock wa
    ∧ files w1
      = <[dataset_store._meta_path d id :=
            File (clock wa)
              (json_dumps (PDict [("source_filename",
                                   py_or (PStr fn) (PStr "uploaded_file"))]))]>
          (<[dataset_store._dataset_path d id :=
               File (clock wa) (to_pickle df)]> (files wa)).
Proof.
  unfold dataset_store.save_dataset. rewrite run_bind.
  destruct (Path_mkdir_parents_exist_ok d w) as [[[]|e] wa]; [|discriminate].
  rewrite run_bind, Path_write_bytes_run.
  destruct (files wa !! parent _) as [[?|?]|]; try discriminate.
  destruct (is_dir (files wa !! _)); [discriminate|].
  rewrite run_bind, Path_write_bytes_run. cbn [files clock].
  destruct (_ !! parent _) as [[?|?]|]; try discriminate.
  destruct (is_dir (_ !! _)); [discriminate|].
  intros Hrun. injection Hrun as <- <-. split; [reflexivity|].
  exists wa. repeat split.
Qed.

(** What a [save_result] that returns has written. *)
Lemma save_result_returns (u : N) (df : DataFrame) (d : path)
    (w : world) (id : string) (w1 : world) :
  result_store.save_result u df d w = (Returns id, w1) →
  id = uuid_hex u ∧
  ∃ wa, Path_mkdir_parents_exist_ok d w = (Returns tt, wa)
    ∧ clock w1 = clock wa
    ∧ files w1
      = <[joinpath d (id +:+ result_store.RESULT_FILE_SUFFIX) :=
            File (clock wa) (to_csv df)]> (files wa).
Proof.
  unfold result_store.save_result. rewrite run_bind.
  destruct (Path_mkdir_parents_exist_ok d w) as [[[]|e] wa]; [|discriminate].
  rewrite run_bind, Path_write_bytes_run.
  destruct (files wa !! parent _) as [[?|?]|]; try discriminate.
  destruct (is_dir (files wa !! _)); [discriminate|].
  intros Hrun. injection Hrun as <- <-. split; [reflexivity|].
  exists wa. repeat split.
Qed.

End loads.

Lemma py_or_filename (fn : string) :
  py_or (PStr fn) (PStr "uploaded_file") = PStr (filename_or_default fn).
Proof.
  unfold py_or, filename_or_default. simpl.
  destruct (decide (fn = "")) as [->|Hne]; [reflexivity|].
  now rewrite bool_decide_eq_false_2.
Qed.

Lemma filename_or_default_nonempty (fn : string) : filename_or_default fn ≠ "".
Proof. unfold filename_or_default. now case_decide. Qed.

(** Identifiers the pattern rejects never reach the file system: load
    raises the store's not-found error and the world, trace included, is
    as before. *)
Lemma load_rejects_unmatched_id {E : Externals} (id : string) (d : path)
    (ttl : Z) (w : world) :
  id_pattern_match id = false →
  dataset_store.load_dataset id d ttl w = (Raises DatasetNotFoundError, w)
  ∧ result_store.load_result_csv id d ttl w = (Raises ResultNotFoundError, w).
Proof.
  intros Hid. split;
    [now apply load_dataset_invalid | now apply load_result_csv_invalid].
Qed.

#[global] Instance plain_externals_laws : ExternalsLaws plain_externals.
Proof.
  split.
  - reflexivity.
  - intros s. simpl. now rewrite String.string_of_list_byte_of_string.
Qed.

(* ===================================================================== *)
(** ** The scheduling of sweeps *)
(* ===================================================================== *)

Section scheduling.

Lemma hook_closed (cfg : app.config) (last_run : Z) (w : world) :
  gate_open cfg last_run (clock w) = false →
  app._cleanup_expired_result_files cfg last_run w = (Returns last_run, w).
Proof.
  unfold gate_open. intros Hgate. unfold app._cleanup_expired_result_files.
  rewrite run_bind. unfold time_time. now rewrite Hgate.
Qed.

Lemma hook_open (cfg : app.config) (last_run : Z) (w : world) :
  gate_open cfg last_run (clock w) = true →
  app._cleanup_expired_result_files cfg last_run w
  = match result_store.cleanup_expired
            (app.RESULT_STORAGE_DIR cfg) (app.RESULT_TTL_SECONDS cfg) w with
    | (Returns _, wb) =>
        match dataset_store.cleanup_expired_datasets
                (app.DATASET_STORAGE_DIR cfg) (app.RESULT_TTL_SECONDS cfg) wb with
        | (Returns _, wc) => (Returns (clock w), wc)
        | (Raises e, wc) => (Raises e, wc)
        end
    | (Raises e, wb) => (Raises e, wb)
    end.
Proof.
  unfold gate_open. intros Hgate. unfold app._cleanup_expired_result_files.
  rewrite run_bind. unfold time_time. rewrite Hgate. rewrite run_bind.
  destruct (result_store.cleanup_expired _ _ w) as [[n1|e] wb]; [|reflexivity].
  rewrite run_bind.
  now destruct (dataset_store.cleanup_expired_datasets _ _ wb) as [[n2|e] wc].
Qed.

Lemma spaced_nil (interval : Z) : spaced interval [].
Proof. intros i t1 t2 H. discriminate. Qed.

Lemma spaced_snoc (interval : Z) (ts : list Z) (t : Z) :
  spaced interval ts →
  (∀ t0, last ts = Some t0 → interval <= t - t0) →
  spaced interval (ts ++ [t]).
Proof.
  intros Hts Hlast i t1 t2 H1 H2.
  destruct (decide (S i < length ts)%nat) as [Hlt|Hge].
  - rewrite lookup_app_l in H1 by lia. rewrite lookup_app_l in H2 by lia.
    eauto.
  - assert (Hi : S i = length ts).
    { apply lookup_lt_Some in H2. rewrite length_app in H2. simpl in H2. lia. }
    rewrite lookup_app_l in H1 by lia.
    rewrite Hi, lookup_app_r, Nat.sub_diag in H2 by lia. simpl in H2.
    injection H2 as <-. apply Hlast.
    rewrite last_lookup. rewrite <- Hi. simpl. exact H1.
Qed.

Lemma result_loop_trace (ttl : Z) (entries : list path) :
  ∀ (acc : Z) (w : world) (r : outcome Z) (w' : world),
  result_store.cleanup_loop ttl entries acc w = (r, w') →
  ∃ ops, trace w' = trace w ++ ops.
Proof.
  induction entries as [|p rest IH]; intros acc w r w' Hrun.
  - injection Hrun as <- <-. exists []. now rewrite app_nil_r.
  - simpl in Hrun. rewrite run_bind, result_is_expired_run in Hrun.
    destruct (files w !! p) as [node|].
    + destruct (ttl <? clock w - st_mtime node).
      * rewrite run_bind, Path_unlink_run in Hrun.
        destruct (is_dir _).
        -- injection Hrun as <- <-. simpl. rewrite <- List.app_assoc. eauto.
        -- apply IH in Hrun as [ops Hops]. simpl in Hops.
           rewrite <- !List.app_assoc in Hops. eauto.
      * apply IH in Hrun as [ops Hops]. simpl in Hops.
        rewrite <- !List.app_assoc in Hops. eauto.
    + injection Hrun as <- <-. simpl. eauto.
Qed.

Lemma dataset_loop_trace (d : path) (ttl : Z) (entries : list path) :
  ∀ (acc : Z) (w : world) (r : outcome Z) (w' : world),
  dataset_store.cleanup_loop d ttl entries acc w = (r, w') →
  ∃ ops, trace w' = trace w ++ ops.
Proof.
  induction entries as [|p rest IH]; intros acc w r w' Hrun.
  - injection Hrun as <- <-. exists []. now rewrite app_nil_r.
  - simpl in Hrun. rewrite run_bind, dataset_is_expired_run in Hrun.
    destruct (files w !! p) as [node|].
    + destruct (ttl <? clock w - st_mtime node).
      * unfold dataset_store._safe_unlink in Hrun.
        rewrite run_bind, Path_unlink_run in Hrun.
        destruct (is_dir _).
        -- injection Hrun as <- <-. simpl. rewrite <- List.app_assoc. eauto.
        -- rewrite run_bind, Path_unlink_run in Hrun.
           destruct (is_dir _).
           ++ injection Hrun as <- <-. simpl. rewrite <- !List.app_assoc. eauto.
           ++ apply IH in Hrun as [ops Hops]. simpl in Hops.
              rewrite <- !List.app_assoc in Hops. eauto.
      * apply IH in Hrun as [ops Hops]. simpl in Hops.
        rewrite <- !List.app_assoc in Hops. eauto.
    + injection Hrun as <- <-. simpl. eauto.
Qed.

(** Whatever its outcome, a sweep only adds calls, and the first is
    [storage_path.exists()]. *)
Lemma sweep_trace (s : store) (d : path) (ttl : Z) (w : world)
    (r : outcome Z) (w' : world) :
  sweep s d ttl w = (r, w') →
  ∃ ops, trace w' = trace w ++ OpExists d :: ops.
Proof.
  destruct s; simpl sweep; intros Hrun.
  - unfold dataset_store.cleanup_expired_datasets in Hrun.
    rewrite run_bind, Path_exists_run in Hrun.
    destruct (bool_decide _); cbn [negb] in Hrun.
    + rewrite run_bind, Path_glob_suffix_run in Hrun.
      apply dataset_loop_trace in Hrun as [ops Hops]. simpl in Hops.
      rewrite <- !List.app_assoc in Hops. eauto.
    + injection Hrun as <- <-. simpl. eauto.
  - unfold result_store.cleanup_expired in Hrun.
    rewrite run_bind, Path_exists_run in Hrun.
    destruct (bool_decide _); cbn [negb] in Hrun.
    + rewrite run_bind, Path_glob_suffix_run in Hrun.
      apply result_loop_trace in Hrun as [ops Hops]. simpl in Hops.
      rewrite <- !List.app_assoc in Hops. eauto.
    + injection Hrun as <- <-. simpl. eauto.
Qed.

Lemma existsb_exists_call_here (d : path) (ops : list fs_op) :
  existsb (is_exists_call d) (OpExists d :: ops) = true.
Proof. simpl. now rewrite bool_decide_eq_true_2. Qed.

(** What the hook adds to the trace, and what it returns. *)
Lemma hook_calls (cfg : app.config) (last_run : Z) (w : world)
    (r : outcome Z) (w' : world) :
  app._cleanup_expired_result_files cfg last_run w = (r, w') →
  ∃ ops, trace w' = trace w ++ ops
         ∧ if gate_open cfg last_run (clock w)
           then existsb (is_exists_call (app.RESULT_STORAGE_DIR cfg)) ops = true
                ∧ (is_return r = true →
                   r = Returns (clock w)
                   ∧ existsb (is_exists_call (app.DATASET_STORAGE_DIR cfg)) ops
                     = true)
           else ops = [] ∧ r = Returns last_run.
Proof.
  intros Hrun. destruct (gate_open cfg last_run (clock w)) eqn:Hgate.
  - rewrite hook_open in Hrun by exact Hgate.
    destruct (result_store.cleanup_expired _ _ w) as [[n1|e] wb] eqn:H1.
    + apply (sweep_trace Results) in H1 as [ops1 Hops1].
      destruct (dataset_store.cleanup_expired_datasets _ _ wb)
        as [[n2|e] wc] eqn:H2;
        apply (sweep_trace Datasets) in H2 as [ops2 Hops2];
        injection Hrun as <- <-;
        exists (OpExists (app.RESULT_STORAGE_DIR cfg) :: ops1
                ++ OpExists (app.DATASET_STORAGE_DIR cfg) :: ops2);
        (split; [rewrite Hops2, Hops1, <- List.app_assoc; reflexivity|]);
        (split; [apply existsb_exists_call_here|]).
      * intros _. split; [reflexivity|].
        change (OpExists (app.RESULT_STORAGE_DIR cfg) :: ops1
                ++ OpExists (app.DATASET_STORAGE_DIR cfg) :: ops2)
          with ((OpExists (app.RESULT_STORAGE_DIR cfg) :: ops1)
                ++ OpExists (app.DATASET_STORAGE_DIR cfg) :: ops2).
        rewrite existsb_app, existsb_exists_call_here. apply orb_true_r.
      * discriminate.
    + apply (sweep_trace Results) in H1 as [ops1 Hops1].
      injection Hrun as <- <-. eexists. split; [exact Hops1|].
      split; [apply existsb_exists_call_here | discriminate].
  - rewrite hook_closed in Hrun by exact Hgate. injection Hrun as <- <-.
    exists []. now rewrite app_nil_r.
Qed.

Lemma recorded_times_snoc (cfg : app.config) (runs : list hook_run) (h : hook_run) :
  recorded_times cfg (runs ++ [h])
  = recorded_times cfg runs ++ (if recorded cfg h then [run_at h] else []).
Proof.
  unfold recorded_times. rewrite filter_app, fmap_app. f_equal.
  rewrite filter_cons, filter_nil.
  destruct (recorded cfg h); [now rewrite decide_True | now rewrite decide_False].
Qed.

Lemma last_recorded_snoc (cfg : app.config) (runs : list hook_run) (h : hook_run) :
  last_recorded cfg (runs ++ [h])
  = if recorded cfg h then run_at h else last_recorded cfg runs.
Proof.
  unfold last_recorded. rewrite recorded_times_snoc.
  destruct (recorded cfg h); [now rewrite last_snoc | now rewrite app_nil_r].
Qed.

(** The run of the hook at one request, read off what the hook does. *)
Lemma serve_one_run (cfg : app.config) (st : server) (r : request) :
  ∃ h, hook_runs (serve_one cfg st r) = hook_runs st ++ [h]
       ∧ run_at h = arrival r
       ∧ gated cfg (last_result_cleanup_at st) h
       ∧ last_result_cleanup_at (serve_one cfg st r)
         = (if recorded cfg h then run_at h else last_result_cleanup_at st)
       ∧ (recorded cfg h = true →
          app.RESULT_CLEANUP_INTERVAL_SECONDS cfg
          <= run_at h - last_result_cleanup_at st).
Proof.
  unfold serve_one.
  set (w0 := at_time (arrival r) (disk st)).
  destruct (app._cleanup_expired_result_files cfg (last_result_cleanup_at st) w0)
    as [res w1] eqn:Hrun.
  destruct (hook_calls _ _ _ _ _ Hrun) as (ops & Hops & Hgate).
  rewrite Hops, drop_app_length.
  change (clock w0) with (arrival r) in Hgate.
  set (h := HookRun (arrival r) ops (is_return res)).
  assert (Hrec : recorded cfg h
                 = existsb (is_exists_call (app.RESULT_STORAGE_DIR cfg)) ops
                   && is_return res) by reflexivity.
  exists h.
  split; [now destruct res|]. split; [reflexivity|].
  unfold gated, starts_sweep. simpl run_at. simpl calls. simpl returned.
  rewrite Hrec.
  destruct (gate_open cfg (last_result_cleanup_at st) (arrival r)) eqn:Hg;
    unfold gate_open in Hg.
  - apply Z.leb_le in Hg. destruct Hgate as [Hstart Hret]. rewrite Hstart.
    split; [|split].
    + split; [lia|]. intros _. split; [reflexivity|]. intros H. now apply Hret.
    + destruct res as [t|e]; simpl.
      * destruct (Hret eq_refl) as [Heq _]. now injection Heq as ->.
      * reflexivity.
    + intros _. exact Hg.
  - apply Z.leb_gt in Hg. destruct Hgate as [-> ->]. simpl.
    split; [|split].
    + split; [now intros _ | lia].
    + reflexivity.
    + discriminate.
Qed.

Lemma serve_one_scheduled (cfg : app.config) (st : server) (r : request) :
  scheduled cfg st → scheduled cfg (serve_one cfg st r).
Proof.
  intros (Hstamp & Hsp & Hgated).
  destruct (serve_one_run cfg st r) as (h & Hruns & Hat & Hg & Hlast & Hrec).
  unfold scheduled. rewrite Hruns, Hlast, last_recorded_snoc, recorded_times_snoc.
  split; [|split].
  - now rewrite Hstamp.
  - destruct (recorded cfg h) eqn:Hr; [|now rewrite app_nil_r].
    apply spaced_snoc; [assumption|]. intros t0 Ht0.
    specialize (Hrec eq_refl). rewrite Hstamp in Hrec.
    unfold last_recorded in Hrec. rewrite Ht0 in Hrec. exact Hrec.
  - intros i h' Hi.
    destruct (decide (i < length (hook_runs st))%nat) as [Hlt|Hge].
    + rewrite lookup_app_l in Hi by exact Hlt.
      rewrite take_app_le by lia. now apply Hgated.
    + assert (Hlen : i = length (hook_runs st)).
      { apply lookup_lt_Some in Hi. rewrite length_app in Hi. simpl in Hi. lia. }
      subst i. rewrite lookup_app_r, Nat.sub_diag in Hi by lia.
      injection Hi as <-.
      rewrite take_app_le, firstn_all by lia. now rewrite <- Hstamp.
Qed.

Lemma serve_scheduled (cfg : app.config) (reqs : list request) (st : server) :
  scheduled cfg st → scheduled cfg (serve cfg st reqs).
Proof.
  revert st. induction reqs as [|r reqs IH]; intros st Hst; [exact Hst|].
  simpl. apply IH. now apply serve_one_scheduled.
Qed.

Lemma scheduled_start (cfg : app.config) (w : world) : scheduled cfg (Server 0 w []).
Proof.
  split; [reflexivity|]. split; [apply spaced_nil|]. intros i h Hi. discriminate.
Qed.

(** One hook run per request, at the time the request arrives. *)
Lemma serve_run_times (cfg : app.config) (reqs : list request) (st : server) :
  run_at <$> hook_runs (serve cfg st reqs)
  = (run_at <$> hook_runs st) ++ (arrival <$> reqs).
Proof.
  revert st. induction reqs as [|r reqs IH]; intros st.
  - simpl. now rewrite app_nil_r.
  - simpl. rewrite IH.
    destruct (serve_one_run cfg st r) as (h & -> & Hat & _).
    rewrite fmap_app. simpl. rewrite Hat, <- List.app_assoc. reflexivity.
Qed.

(** When no run raised, the sweeps started are the recorded ones. *)
Lemma sweep_times_recorded (cfg : app.config) (runs : list hook_run) :
  (∀ h, h ∈ runs → returned h = true) →
  sweep_times (app.RESULT_STORAGE_DIR cfg) runs = recorded_times cfg runs.
Proof.
  intros Hret. unfold sweep_times, recorded_times. f_equal.
  apply filter_ext_elem. intros h Hh. unfold recorded.
  now rewrite (Hret h Hh), andb_true_r.
Qed.

End scheduling.

(* ===================================================================== *)
(** ** The properties of the stores *)
(* ===================================================================== *)

(** C1 (amended). Round trip. With [ttl_seconds > 0], a load of the
    identifier a save has returned, from the same directory and with no
    time elapsed, succeeds: the result store gives back the CSV bytes that
    were written; the dataset store gives back the data frame and the file
    name it was saved under, where an empty file name comes back as
    ["uploaded_file"]. *)
Theorem save_load_roundtrip {E : Externals} (L : ExternalsLaws E)
    (u : N) (df : DataFrame) (source_filename : string) (d : path)
    (ttl : Z) (w : world) :
  0 < ttl →
  (∀ id w1,
      dataset_store.save_dataset u df source_filename d w = (Returns id, w1) →
      ∃ w2, dataset_store.load_dataset id d ttl w1
            = (Returns (df, PStr (filename_or_default source_filename)), w2)
            ∧ files w2 = files w1)
  ∧ (∀ id w1,
      result_store.save_result u df d w = (Returns id, w1) →
      ∃ w2, result_store.load_result_csv id d ttl w1 = (Returns (to_csv df), w2)
            ∧ files w2 = files w1).
Proof.
  intros Httl. split; intros id w1 Hsave.
  - apply save_dataset_returns in Hsave as (-> & wa & _ & Hc & Hf).
    rewrite load_dataset_valid by apply uuid_hex_valid.
    set (p := dataset_store._dataset_path d (uuid_hex u)) in *.
    set (m := dataset_store._meta_path d (uuid_hex u)) in *.
    assert (Hpm : m ≠ p) by (symmetry; apply dataset_paths_differ).
    assert (Hp : files w1 !! p = Some (File (clock wa) (to_pickle df))).
    { now rewrite Hf, lookup_insert_ne, lookup_insert_eq. }
    rewrite Hp. cbn [st_mtime]. rewrite Hc.
    replace (ttl <? clock wa - clock wa) with false
      by (symmetry; apply Z.ltb_ge; lia).
    rewrite read_pickle_to_pickle.
    assert (Hm : stored_filename (files w1) m
                 = PStr (filename_or_default source_filename)).
    { unfold stored_filename. rewrite Hf, lookup_insert_eq.
      rewrite py_or_filename, json_loads_dumps_meta. simpl dict_get.
      unfold py_or. simpl.
      now rewrite bool_decide_eq_false_2 by apply filename_or_default_nonempty. }
    rewrite Hm. eexists. split; [reflexivity|].
    now destruct (bool_decide _).
  - apply save_result_returns in Hsave as (-> & wa & _ & Hc & Hf).
    rewrite load_result_csv_valid by apply uuid_hex_valid.
    assert (Hp : files w1 !! joinpath d (uuid_hex u +:+ result_store.RESULT_FILE_SUFFIX)
                 = Some (File (clock wa) (to_csv df))).
    { now rewrite Hf, lookup_insert_eq. }
    rewrite Hp. cbn [st_mtime]. rewrite Hc.
    replace (ttl <? clock wa - clock wa) with false
      by (symmetry; apply Z.ltb_ge; lia).
    eexists. split; reflexivity.
Qed.

Lemma save_load_roundtrip_witness :
  0 < 3600 ∧
  ∃ w1 w2,
    dataset_store.save_dataset (E := plain_externals)
      255 scenario_payload "in.csv" scenario_dir empty_world
    = (Returns (uuid_hex 255), w1)
    ∧ dataset_store.load_dataset (E := plain_externals)
        (uuid_hex 255) scenario_dir 3600 w1
      = (Returns (scenario_payload, PStr "in.csv"), w2).
Proof.
  split; [lia|].
  destruct (save_load_roundtrip plain_externals_laws
              255 scenario_payload "in.csv" scenario_dir 3600 empty_world
              ltac:(lia)) as [Hd _].
  set (r := dataset_store.save_dataset (E := plain_externals)
              255 scenario_payload "in.csv" scenario_dir empty_world).
  assert (Hr : r = (Returns (uuid_hex 255), snd r)) by (vm_compute; reflexivity).
  destruct (Hd _ _ Hr) as (w2 & Hload & _).
  exists (snd r), w2. split; [exact Hr | exact Hload].
Defined.

(** Saving under an empty file name: the load that follows reports
    ["uploaded_file"], not the empty name that was given. *)
Lemma roundtrip_empty_filename_counterexample :
  ∃ id w1 w2,
    dataset_store.save_dataset (E := plain_externals)
      255 scenario_payload "" scenario_dir empty_world = (Returns id, w1)
    ∧ dataset_store.load_dataset (E := plain_externals) id scenario_dir 3600 w1
      = (Returns (scenario_payload, PStr "uploaded_file"), w2)
    ∧ dataset_store.load_dataset (E := plain_externals) id scenario_dir 3600 w1
      ≠ (Returns (scenario_payload, PStr ""), w2).
Proof.
  set (r := dataset_store.save_dataset (E := plain_externals)
              255 scenario_payload "" scenario_dir empty_world).
  set (l := dataset_store.load_dataset (E := plain_externals)
              (uuid_hex 255) scenario_dir 3600 (snd r)).
  assert (Hr : r = (Returns (uuid_hex 255), snd r)) by (vm_compute; reflexivity).
  assert (Hl : l = (Returns (scenario_payload, PStr "uploaded_file"), snd l))
    by (vm_compute; reflexivity).
  exists (uuid_hex 255), (snd r), (snd l). split; [exact Hr|]. split; [exact Hl|].
  fold l. rewrite Hl. intros Heq. discriminate Heq.
Qed.

(** C2. TTL boundary and lazy deletion. For a valid identifier whose
    payload file exists: when the age of the payload file is strictly
    greater than [ttl_seconds], load removes the payload file (and, for a
    dataset, the metadata file) and raises the store's not-found error,
    and neither file exists afterwards; when the age is at most
    [ttl_seconds], nothing is deleted and load returns the payload (for a
    dataset, provided the payload unpickles). *)
Theorem ttl_boundary {E : Externals} (id : string) (d : path) (ttl : Z)
    (w : world) (t : Z) (data : bytes) :
  id_pattern_match id = true →
  let p := dataset_store._dataset_path d id in
  let m := dataset_store._meta_path d id in
  let r := joinpath d (id +:+ result_store.RESULT_FILE_SUFFIX) in
  (files w !! p = Some (File t data) → is_dir (files w !! m) = false →
     (ttl < clock w - t →
        ∃ w', dataset_store.load_dataset id d ttl w
              = (Raises DatasetNotFoundError, w')
              ∧ files w' = delete m (delete p (files w))
              ∧ files w' !! p = None ∧ files w' !! m = None)
     ∧ (clock w - t <= ttl →
        ∀ df, read_pickle data = Some df →
        ∃ w', dataset_store.load_dataset id d ttl w
              = (Returns (df, stored_filename (files w) m), w')
              ∧ files w' = files w))
  ∧ (files w !! r = Some (File t data) →
     (ttl < clock w - t →
        ∃ w', result_store.load_result_csv id d ttl w
              = (Raises ResultNotFoundError, w')
              ∧ files w' = delete r (files w)
              ∧ files w' !! r = None)
     ∧ (clock w - t <= ttl →
        ∃ w', result_store.load_result_csv id d ttl w = (Returns data, w')
              ∧ files w' = files w)).
Proof.
  intros Hid p m r. split.
  - intros Hp Hm. split.
    + intros Hold. rewrite load_dataset_valid by assumption. fold p m.
      rewrite Hp. cbn [st_mtime is_dir].
      replace (ttl <? clock w - t) with true by (symmetry; now apply Z.ltb_lt).
      rewrite (is_dir_delete _ p m Hm).
      eexists. split; [reflexivity|]. cbn [files].
      split; [reflexivity|]. split.
      * rewrite lookup_delete_ne
          by (intros Heq; symmetry in Heq; revert Heq; apply dataset_paths_differ).
        apply lookup_delete_eq.
      * apply lookup_delete_eq.
    + intros Hfresh df Hdf. rewrite load_dataset_valid by assumption. fold p m.
      rewrite Hp. cbn [st_mtime].
      replace (ttl <? clock w - t) with false by (symmetry; now apply Z.ltb_ge).
      rewrite Hdf. eexists. split; [reflexivity|]. now destruct (bool_decide _).
  - intros Hr. split.
    + intros Hold. rewrite load_result_csv_valid by assumption. fold r.
      rewrite Hr. cbn [st_mtime is_dir].
      replace (ttl <? clock w - t) with true by (symmetry; now apply Z.ltb_lt).
      eexists. split; [reflexivity|]. cbn [files].
      split; [reflexivity | apply lookup_delete_eq].
    + intros Hfresh. rewrite load_result_csv_valid by assumption. fold r.
      rewrite Hr. cbn [st_mtime].
      replace (ttl <? clock w - t) with false by (symmetry; now apply Z.ltb_ge).
      eexists. split; reflexivity.
Qed.

(** The specification's scenario: saved with ttl 1, loaded two time units
    later. *)
Lemma ttl_boundary_witness :
  id_pattern_match (uuid_hex 255) = true ∧
  ∃ w1 w2,
    dataset_store.save_dataset (E := plain_externals)
      255 scenario_payload "in.csv" scenario_dir empty_world
    = (Returns (uuid_hex 255), w1)
    ∧ dataset_store.load_dataset (E := plain_externals)
        (uuid_hex 255) scenario_dir 1 (advance 2 w1)
      = (Raises DatasetNotFoundError, w2)
    ∧ files w2 !! dataset_store._dataset_path scenario_dir (uuid_hex 255) = None
    ∧ files w2 !! dataset_store._meta_path scenario_dir (uuid_hex 255) = None.
Proof.
  assert (Hid : id_pattern_match (uuid_hex 255) = true) by by_computation.
  split; [exact Hid|].
  set (r := dataset_store.save_dataset (E := plain_externals)
              255 scenario_payload "in.csv" scenario_dir empty_world).
  assert (Hr : r = (Returns (uuid_hex 255), snd r)) by by_computation.
  destruct (ttl_boundary (E := plain_externals) (uuid_hex 255) scenario_dir 1
              (advance 2 (snd r)) 1000 (Byte.x80 :: scenario_payload) Hid)
    as [Hd _].
  destruct Hd as [Hold _]; [by_computation | by_computation |].
  destruct Hold as (w2 & Hload & _ & Hp & Hm); [by_computation|].
  exists (snd r), w2. auto.
Defined.

(** C3 at the input where the code departs from it. [newline_id] is 33
    characters long, so it is not in the 32-character hexadecimal format,
    yet the pattern accepts it; load then resolves it to a path and asks
    the file system about it, whatever the world, and where a file of that
    name exists load returns its content. *)
Theorem newline_id_reaches_file_system :
  is_hex32 newline_id = false
  ∧ id_pattern_match newline_id = true
  ∧ (∀ (E : Externals) d ttl w,
       OpExists (joinpath d (newline_id +:+ ".csv"))
       ∈ trace (snd (result_store.load_result_csv newline_id d ttl w))
       ∧ OpExists (joinpath d (newline_id +:+ ".pkl"))
         ∈ trace (snd (dataset_store.load_dataset newline_id d ttl w)))
  ∧ fst (result_store.load_result_csv newline_id ["srv"] 3600 newline_world)
    = Returns scenario_payload
  ∧ fst (dataset_store.load_dataset (E := plain_externals)
           newline_id ["srv"] 3600 newline_world)
    = Returns (scenario_payload, PStr "uploaded_file").
Proof.
  assert (Hid : id_pattern_match newline_id = true) by (vm_compute; reflexivity).
  split; [vm_compute; reflexivity|]. split; [exact Hid|].
  split; [|split; vm_compute; reflexivity].
  intros E d ttl w. split.
  - rewrite load_result_csv_valid by exact Hid.
    change result_store.RESULT_FILE_SUFFIX with ".csv".
    set (p := joinpath d (newline_id +:+ ".csv")).
    assert (Hin : ∀ l1 l2, OpExists p ∈ (l1 ++ [OpExists p]) ++ l2).
    { intros l1 l2. rewrite !elem_of_app, elem_of_cons. auto. }
    destruct (files w !! p) as [[t data|t]|]; cbn [st_mtime is_dir].
    + destruct (ttl <? clock w - t); cbn [snd trace logged];
        rewrite <- ?app_assoc; rewrite !elem_of_app, !elem_of_cons; auto.
    + destruct (ttl <? clock w - t); cbn [snd trace logged];
        rewrite <- ?app_assoc; rewrite !elem_of_app, !elem_of_cons; auto.
    + cbn [snd trace logged]. rewrite !elem_of_app, !elem_of_cons; auto.
  - rewrite load_dataset_valid by exact Hid.
    change (dataset_store._dataset_path d newline_id)
      with (joinpath d (newline_id +:+ ".pkl")).
    set (p := joinpath d (newline_id +:+ ".pkl")).
    set (m := dataset_store._meta_path d newline_id).
    destruct (files w !! p) as [[t data|t]|]; cbn [st_mtime is_dir].
    + destruct (ttl <? clock w - t).
      * destruct (is_dir _); cbn [snd trace logged];
          rewrite <- ?app_assoc; rewrite !elem_of_app, !elem_of_cons; auto.
      * destruct (read_pickle data); [destruct (bool_decide _)|];
          cbn [snd trace logged];
          rewrite <- ?app_assoc; rewrite !elem_of_app, !elem_of_cons; auto.
    + destruct (ttl <? clock w - t); cbn [snd trace logged];
        rewrite <- ?app_assoc; rewrite !elem_of_app, !elem_of_cons; auto.
    + cbn [snd trace logged]. rewrite !elem_of_app, !elem_of_cons; auto.
Qed.

(** C4. Sweep postcondition. The sweep of either store returns exactly
    when the store is sweepable: nothing it is to remove (an expired
    entry with the payload suffix directly under the storage directory,
    or the metadata sibling of one) is a directory. Whenever it returns: the entries it has
    examined (read the modification time of) are exactly the entries
    directly under the storage directory whose name ends with the payload
    suffix, and none below a sub-directory; it has removed precisely the
    expired ones among them, each together with its metadata sibling, and
    nothing else; fresh payload files are as they were; and the number
    returned is the number of expired payload files. *)
Theorem sweep_postcondition (s : store) (d : path) (ttl : Z) (w : world) :
  ((∃ n w', sweep s d ttl w = (Returns n, w')) ↔ sweepable s w d ttl)
  ∧ ∀ n w',
      sweep s d ttl w = (Returns n, w') →
      (∃ ops, trace w' = trace w ++ ops
              ∧ ∀ q, OpStat q ∈ ops ↔ payload_entry w d (payload_suffix s) q)
      ∧ (∀ q, swept s w d ttl q → files w' !! q = None)
      ∧ (∀ q, ¬ swept s w d ttl q → files w' !! q = files w !! q)
      ∧ (∀ p, payload_entry w d (payload_suffix s) p → ¬ older_than w ttl p →
              files w' !! p = files w !! p)
      ∧ (∃ l, NoDup l
              ∧ (∀ p, p ∈ l ↔ expired_payload w d (payload_suffix s) ttl p)
              ∧ n = Z.of_nat (length l)).
Proof.
  split; [apply sweep_returns_iff|].
  intros n w' Hrun.
  apply sweep_returns in Hrun as (Hf & Hc & Hn & Hops).
  assert (Hkeep : ∀ q, ¬ swept s w d ttl q → files w' !! q = files w !! q).
  { intros q Hq. rewrite Hf, lookup_remove_all.
    destruct (decide (q ∈ unlinked s w d ttl)) as [Hin|_]; [|reflexivity].
    now apply elem_of_unlinked in Hin. }
  repeat split.
  - exact Hops.
  - intros q Hq. rewrite Hf, lookup_remove_all.
    destruct (decide (q ∈ unlinked s w d ttl)) as [_|Hout]; [reflexivity|].
    destruct Hout. now apply elem_of_unlinked.
  - exact Hkeep.
  - intros p Hp Hfresh. apply Hkeep.
    intros (p' & [Hp' Hold] & [->|Hsib]); [contradiction|].
    destruct s; simpl in Hsib.
    + apply elem_of_cons in Hsib as [->|Hsib]; [|now apply not_elem_of_nil in Hsib].
      apply elem_of_listing in Hp.
      now apply (listing_not_meta w d _ (stem p')) in Hp.
    + now apply not_elem_of_nil in Hsib.
  - exists (expired_entries w ttl (listing w d (payload_suffix s))).
    split; [apply NoDup_filter, NoDup_listing|].
    split; [|assumption].
    intros p. apply elem_of_expired_entries.
Qed.

(** A results directory with a sub-directory and a recent directory
    named like a payload: the sweep returns 1, the old result is gone,
    and the old file below the sub-directory is still there. *)
Lemma sweep_postcondition_witness :
  sweepable Results nested_world ["srv"; "results"] 3600
  ∧ ∃ w', sweep Results ["srv"; "results"] 3600 nested_world = (Returns 1, w')
          ∧ files w' !! ["srv"; "results"; "a.csv"] = None
          ∧ files w' !! ["srv"; "results"; "sub"; "e.csv"] = Some (File 0 [])
          ∧ files w' !! ["srv"; "results"; "new.csv"] = Some (Dir 4000).
Proof.
  destruct (sweep_postcondition Results ["srv"; "results"] 3600 nested_world)
    as [[_ Hreturns] Hpost].
  assert (Hl : ∀ q, swept Results nested_world ["srv"; "results"] 3600 q
                    ↔ q = ["srv"; "results"; "a.csv"]).
  { intros q. rewrite <- elem_of_unlinked.
    assert (Hu : unlinked Results nested_world ["srv"; "results"] 3600
                 = [["srv"; "results"; "a.csv"]]) by by_computation.
    rewrite Hu. apply list_elem_of_singleton. }
  assert (Hok : sweepable Results nested_world ["srv"; "results"] 3600).
  { intros q Hq%Hl. subst q. by_computation. }
  split; [exact Hok|].
  destruct (Hreturns Hok) as (n & w' & Hrun).
  assert (Hn : n = 1).
  { assert (Hfst : fst (sweep Results ["srv"; "results"] 3600 nested_world)
                   = Returns 1) by by_computation.
    rewrite Hrun in Hfst. simpl in Hfst. congruence. }
  subst n. exists w'. split; [exact Hrun|].
  destruct (Hpost 1 w' Hrun) as (_ & Hgone & Hkept & _ & _).
  split; [|split].
  - apply Hgone, Hl. reflexivity.
  - rewrite Hkept; [by_computation|]. intros Hq%Hl. discriminate.
  - rewrite Hkept; [by_computation|]. intros Hq%Hl. discriminate.
Defined.

(** An old directory named like a payload stops the sweep: it raises,
    returns no count, and leaves the expired entry in place. *)
Lemma sweep_postcondition_counterexample :
  expired_payload obstructed_world ["srv"; "results"] ".csv" 3600
    ["srv"; "results"; "old.csv"]
  ∧ (¬ ∃ n w', sweep Results ["srv"; "results"] 3600 obstructed_world
               = (Returns n, w'))
  ∧ ∃ w', sweep Results ["srv"; "results"] 3600 obstructed_world
          = (Raises IsADirectoryError, w')
          ∧ files w' !! ["srv"; "results"; "old.csv"] = Some (Dir 0).
Proof.
  set (r := sweep Results ["srv"; "results"] 3600 obstructed_world).
  assert (Hr : r = (Raises IsADirectoryError, snd r)) by by_computation.
  split; [|split].
  - split.
    + split; [by_computation|].
      exists "old.csv".
      split; [reflexivity|]. split; [by_computation|].
      exists (Dir 0). by_computation.
    + exists (Dir 0). split; [by_computation | simpl; lia].
  - intros (n & w' & Hrun). rewrite Hr in Hrun. discriminate.
  - exists (snd r). split; [exact Hr | by_computation].
Qed.



(** C6. A corrupt dataset is reported as not found: for a valid
    identifier whose payload entry exists and is not expired, when the
    payload cannot be read back (it does not unpickle, or the entry is a
    directory), load raises [DatasetNotFoundError] and deletes nothing. *)
Theorem corrupt_dataset_not_found {E : Externals} (id : string) (d : path)
    (ttl : Z) (w : world) (n : node) :
  id_pattern_match id = true →
  files w !! dataset_store._dataset_path d id = Some n →
  clock w - st_mtime n <= ttl →
  match n with
  | File _ data => read_pickle data = None
  | Dir _ => True
  end →
  ∃ w', dataset_store.load_dataset id d ttl w = (Raises DatasetNotFoundError, w')
        ∧ files w' = files w.
Proof.
  intros Hid Hp Hfresh Hbad. rewrite load_dataset_valid by assumption.
  rewrite Hp.
  replace (ttl <? clock w - st_mtime n) with false
    by (symmetry; now apply Z.ltb_ge).
  destruct n as [t data|t].
  - rewrite Hbad. eexists. split; reflexivity.
  - eexists. split; reflexivity.
Qed.

Lemma corrupt_dataset_not_found_witness :
  read_pickle (Externals := plain_externals) [Byte.x61] = None ∧
  ∃ w', dataset_store.load_dataset (E := plain_externals)
          "00000000000000000000000000000004" ["srv"] 50 odd_world
        = (Raises DatasetNotFoundError, w')
        ∧ files w' = files odd_world.
Proof.
  split; [reflexivity|].
  apply (corrupt_dataset_not_found (E := plain_externals)
           "00000000000000000000000000000004" ["srv"] 50 odd_world
           (File 90 [Byte.x61])).
  - by_computation.
  - by_computation.
  - simpl. lia.
  - reflexivity.
Defined.

(** C7 (amended). Metadata degradation. When the identifier is valid and
    the payload exists, is fresh and unpickles, load succeeds whatever the
    state of the metadata file, and deletes nothing. The file name
    returned is the [source_filename] of the metadata when the metadata
    file is a regular file that parses to an object with a truthy
    [source_filename]; in every other case (no metadata file, a directory
    in its place, content that does not parse, a value that is not an
    object, a missing, null or empty [source_filename]) it is the default
    ["uploaded_file"]. *)
Theorem metadata_degradation {E : Externals} (id : string) (d : path)
    (ttl : Z) (w : world) (t : Z) (data : bytes) (df : DataFrame) :
  id_pattern_match id = true →
  files w !! dataset_store._dataset_path d id = Some (File t data) →
  clock w - t <= ttl →
  read_pickle data = Some df →
  let m := dataset_store._meta_path d id in
  (∃ w', dataset_store.load_dataset id d ttl w
         = (Returns (df, stored_filename (files w) m), w')
         ∧ files w' = files w)
  ∧ (∀ tm dm items,
       files w !! m = Some (File tm dm) →
       json_loads dm = Some (PDict items) →
       truthy (dict_get items "source_filename") = true →
       stored_filename (files w) m = dict_get items "source_filename")
  ∧ (files w !! m = None → stored_filename (files w) m = PStr "uploaded_file")
  ∧ (is_dir (files w !! m) = true →
       stored_filename (files w) m = PStr "uploaded_file")
  ∧ (∀ tm dm,
       files w !! m = Some (File tm dm) →
       match json_loads dm with
       | Some (PDict items) => truthy (dict_get items "source_filename") = false
       | _ => True
       end →
       stored_filename (files w) m = PStr "uploaded_file").
Proof.
  intros Hid Hp Hfresh Hdf m. split; [|split; [|split; [|split]]].
  - rewrite load_dataset_valid by assumption. fold m.
    rewrite Hp. cbn [st_mtime].
    replace (ttl <? clock w - t) with false by (symmetry; now apply Z.ltb_ge).
    rewrite Hdf. eexists. split; [reflexivity|]. now destruct (bool_decide _).
  - intros tm dm items Hm Hjson Htruthy. unfold stored_filename.
    rewrite Hm, Hjson. unfold py_or. now rewrite Htruthy.
  - intros Hm. unfold stored_filename. now rewrite Hm.
  - intros Hm. unfold stored_filename.
    now destruct (files w !! m) as [[?|?]|].
  - intros tm dm Hm Hjson. unfold stored_filename. rewrite Hm.
    destruct (json_loads dm) as [[| | | | | |items]|]; try reflexivity.
    unfold py_or. now rewrite Hjson.
Qed.

Lemma metadata_degradation_witness :
  ∃ w', dataset_store.load_dataset (E := plain_externals)
          "00000000000000000000000000000003" ["srv"] 50 odd_world
        = (Returns ([Byte.x61], PStr "uploaded_file"), w')
        ∧ files w' = files odd_world.
Proof.
  destruct (metadata_degradation (E := plain_externals)
              "00000000000000000000000000000003" ["srv"] 50 odd_world
              90 [Byte.x80; Byte.x61] [Byte.x61])
    as [(w' & Hload & Hf) _].
  - by_computation.
  - by_computation.
  - simpl. lia.
  - reflexivity.
  - exists w'. split; [|exact Hf]. rewrite Hload. by_computation.
Defined.

(** A metadata file that exists and parses, with an empty
    [source_filename]: load does not return that value but the default. *)
Lemma metadata_empty_name_counterexample :
  let m := dataset_store._meta_path ["srv"] "00000000000000000000000000000003" in
  files odd_world !! m = Some (File 90 [Byte.x7b])
  ∧ json_loads (Externals := plain_externals) [Byte.x7b]
    = Some (PDict [("source_filename", PStr "")])
  ∧ fst (dataset_store.load_dataset (E := plain_externals)
           "00000000000000000000000000000003" ["srv"] 50 odd_world)
    = Returns ([Byte.x61], PStr "uploaded_file")
  ∧ fst (dataset_store.load_dataset (E := plain_externals)
           "00000000000000000000000000000003" ["srv"] 50 odd_world)
    ≠ Returns ([Byte.x61], PStr "").
Proof.
  split; [by_computation|]. split; [reflexivity|].
  assert (Hl : fst (dataset_store.load_dataset (E := plain_externals)
                      "00000000000000000000000000000003" ["srv"] 50 odd_world)
               = Returns ([Byte.x61], PStr "uploaded_file")) by by_computation.
  split; [exact Hl|]. rewrite Hl. discriminate.
Qed.



(** C9. Sweep scheduling. [create_app] sweeps the result store and then
    the dataset store, once each, and leaves the time stamp at 0. The
    [before_request] hook does nothing while less than the interval has
    elapsed since the time stamp. When at least the interval has elapsed
    it sweeps the result store and, once that sweep has returned, the
    dataset store, and sets the time stamp to the current time once both
    have returned; it raises, with the time stamp as it was, when one of
    them raises, and returns when both stores are sweepable. Over any
    sequence of requests served after start-up there is one hook run per
    request; the time stamp is the time of the last recorded run (a run
    that swept and returned); every run is gated by the recorded run
    before it: no call before the interval has elapsed, and from then on
    a sweep of the result store and, in a run that returns, of the
    dataset store; and consecutive recorded runs lie at least the
    interval apart. *)
Theorem sweep_scheduling (cfg : app.config) :
  let interval := app.RESULT_CLEANUP_INTERVAL_SECONDS cfg in
  let ttl := app.RESULT_TTL_SECONDS cfg in
  let results := app.RESULT_STORAGE_DIR cfg in
  let datasets := app.DATASET_STORAGE_DIR cfg in
  (∀ w last_run w',
      app.create_app cfg w = (Returns last_run, w') →
      last_run = 0 ∧
      ∃ wa wb n1 wc n2,
        Path_mkdir_parents_exist_ok results w = (Returns tt, wa)
        ∧ Path_mkdir_parents_exist_ok datasets wa = (Returns tt, wb)
        ∧ result_store.cleanup_expired results ttl wb = (Returns n1, wc)
        ∧ dataset_store.cleanup_expired_datasets datasets ttl wc = (Returns n2, w'))
  ∧ (∀ last_run w,
      clock w - last_run < interval →
      app._cleanup_expired_result_files cfg last_run w = (Returns last_run, w))
  ∧ (∀ last_run w,
      interval <= clock w - last_run →
      app._cleanup_expired_result_files cfg last_run w
      = match result_store.cleanup_expired results ttl w with
        | (Returns _, wb) =>
            match dataset_store.cleanup_expired_datasets datasets ttl wb with
            | (Returns _, wc) => (Returns (clock w), wc)
            | (Raises e, wc) => (Raises e, wc)
            end
        | (Raises e, wb) => (Raises e, wb)
        end
      ∧ (sweepable Results w results ttl → sweepable Datasets w datasets ttl →
         ∃ w', app._cleanup_expired_result_files cfg last_run w
               = (Returns (clock w), w')))
  ∧ (∀ reqs w,
      let runs := hook_runs (serve cfg (Server 0 w []) reqs) in
      run_at <$> runs = arrival <$> reqs
      ∧ last_result_cleanup_at (serve cfg (Server 0 w []) reqs)
        = last_recorded cfg runs
      ∧ (∀ i h, runs !! i = Some h →
                gated cfg (last_recorded cfg (take i runs)) h)
      ∧ spaced interval (recorded_times cfg runs)).
Proof.
  intros interval ttl results datasets. split; [|split; [|split]].
  - intros w last_run w'. unfold app.create_app. fold results datasets ttl.
    rewrite run_bind.
    destruct (Path_mkdir_parents_exist_ok results w) as [[[]|e] wa] eqn:H1;
      [|discriminate].
    rewrite run_bind.
    destruct (Path_mkdir_parents_exist_ok datasets wa) as [[[]|e] wb] eqn:H2;
      [|discriminate].
    rewrite run_bind.
    destruct (result_store.cleanup_expired results ttl wb) as [[n1|e] wc] eqn:H3;
      [|discriminate].
    rewrite run_bind.
    destruct (dataset_store.cleanup_expired_datasets datasets ttl wc)
      as [[n2|e] wd] eqn:H4; [|discriminate].
    intros Hrun. injection Hrun as <- <-. split; [reflexivity|].
    exists wa, wb, n1, wc, n2. repeat split; assumption.
  - intros last_run w Hlt. apply hook_closed. unfold gate_open.
    apply Z.leb_gt. exact Hlt.
  - intros last_run w Hge.
    assert (Hgate : gate_open cfg last_run (clock w) = true).
    { unfold gate_open. apply Z.leb_le. exact Hge. }
    rewrite hook_open by exact Hgate. fold results datasets ttl.
    split; [reflexivity|]. intros Hr Hd.
    apply (sweep_returns_iff Results) in Hr as (n1 & wb & Hrun1).
    pose proof (sweepable_after_sweep Results Datasets _ _ _ _ _ _ Hrun1 Hd) as Hd'.
    apply (sweep_returns_iff Datasets) in Hd' as (n2 & wc & Hrun2).
    simpl sweep in Hrun1, Hrun2. rewrite Hrun1, Hrun2. eauto.
  - intros reqs w runs.
    destruct (serve_scheduled cfg reqs (Server 0 w []) (scheduled_start cfg w))
      as (Hstamp & Hsp & Hgated).
    split; [apply (serve_run_times cfg reqs (Server 0 w []))|].
    split; [exact Hstamp|]. split; [exact Hgated | exact Hsp].
Qed.

(** Start-up on an empty disk, a request 100 time units after a recorded
    sweep, and three requests of which the second comes too early. *)
Lemma sweep_scheduling_witness :
  (∃ w', app.create_app example_config empty_world = (Returns 0, w'))
  ∧ 1100 - 1000 < 300
  ∧ app._cleanup_expired_result_files example_config 1000 (at_time 1100 empty_world)
    = (Returns 1000, at_time 1100 empty_world)
  ∧ (let runs := hook_runs (serve example_config (Server 0 empty_world [])
                              [Request 1000 id; Request 1100 id; Request 1300 id]) in
     sweep_times ["srv"; "results"] runs = [1000; 1300]
     ∧ sweep_times ["srv"; "datasets"] runs = [1000; 1300]
     ∧ recorded_times example_config runs = [1000; 1300]
     ∧ spaced 300 (recorded_times example_config runs)).
Proof.
  destruct (sweep_scheduling example_config) as (_ & Hclosed & _ & Hserve).
  split; [|split; [|split]].
  - exists (snd (app.create_app example_config empty_world)). by_computation.
  - lia.
  - apply Hclosed. simpl. lia.
  - intros runs. split; [by_computation|]. split; [by_computation|].
    split; [by_computation|].
    apply (Hserve [Request 1000 id; Request 1100 id; Request 1300 id] empty_world).
Defined.

(** An old directory named like a result stops the result sweep, so the
    hook raises before it has swept the dataset store or set the time
    stamp: two requests one time unit apart both start the sweep of the
    result store, neither sweeps the dataset store, and the old dataset
    stays. *)
Lemma sweep_scheduling_counterexample :
  let st := serve example_config (Server 0 obstructed_world [])
              [Request 5000 id; Request 5001 id] in
  app.RESULT_CLEANUP_INTERVAL_SECONDS example_config <= 5000 - 0
  ∧ sweep_times ["srv"; "results"] (hook_runs st) = [5000; 5001]
  ∧ 5001 - 5000 < app.RESULT_CLEANUP_INTERVAL_SECONDS example_config
  ∧ sweep_times ["srv"; "datasets"] (hook_runs st) = []
  ∧ returned <$> hook_runs st = [false; false]
  ∧ last_result_cleanup_at st = 0
  ∧ files (disk st) !! ["srv"; "datasets"; "00000000000000000000000000000001.pkl"]
    = Some (File 0 [Byte.x80]).
Proof.
  intros st. split; [simpl; lia|]. split; [by_computation|].
  split; [simpl; lia|]. repeat split; by_computation.
Qed.

(** C10. Orphan metadata survives sweeps. Whatever the outcome of a
    sweep of either store over the directory, the metadata file of an
    identifier is changed only by the dataset sweep, as the sibling of an
    expired payload file with that stem. So a metadata file for which the
    directory holds no payload file of the same stem is left as it is,
    whatever its age; in particular the metadata file of a valid
    identifier whose payload file is absent. *)
Theorem orphan_metadata_survives (s : store) (d : path) (ttl : Z) (w : world)
    (x : string) (r : outcome Z) (w' : world) :
  sweep s d ttl w = (r, w') →
  let m := dataset_store._meta_path d x in
  (files w' !! m ≠ files w !! m →
     s = Datasets ∧ ∃ p, expired_payload w d ".pkl" ttl p ∧ stem p = x)
  ∧ ((∀ p, payload_entry w d ".pkl" p → stem p ≠ x) →
     files w' !! m = files w !! m)
  ∧ (id_pattern_match x = true →
     files w !! dataset_store._dataset_path d x = None →
     files w' !! m = files w !! m).
Proof.
  intros Hrun m.
  assert (Honly : swept s w d ttl m →
            s = Datasets ∧ ∃ p, expired_payload w d ".pkl" ttl p ∧ stem p = x).
  { intros (p & Hp & [Heq|Hsib]).
    - exfalso. destruct Hp as [(_ & name & -> & Hsuf & _) _].
      apply joinpath_inj in Heq. subst name.
      unfold dataset_store._DATASET_META_SUFFIX in Hsuf.
      destruct s; simpl in Hsuf.
      + now rewrite PyStrFacts.json_name_not_pkl in Hsuf.
      + now rewrite PyStrFacts.json_name_not_csv in Hsuf.
    - destruct s; simpl in Hsib; [|now apply not_elem_of_nil in Hsib].
      apply elem_of_cons in Hsib as [Hsib|Hsib];
        [|now apply not_elem_of_nil in Hsib].
      split; [reflexivity|]. exists p. split; [exact Hp|].
      apply joinpath_inj in Hsib. symmetry.
      now apply PyStrFacts.app_inv_tail in Hsib. }
  assert (Hframe : (∀ p, payload_entry w d ".pkl" p → stem p ≠ x) →
            files w' !! m = files w !! m).
  { intros Horphan. apply (sweep_frame s d ttl w r w' Hrun).
    intros (_ & p & [Hp _] & Hstem)%Honly. now apply (Horphan p). }
  split; [|split].
  - intros Hchanged.
    destruct (decide (m ∈ unlinked s w d ttl)) as [Hin|Hout].
    + apply Honly. now apply elem_of_unlinked.
    + destruct Hchanged. apply (sweep_frame s d ttl w r w' Hrun).
      now rewrite <- elem_of_unlinked.
  - exact Hframe.
  - intros Hx Habsent. apply Hframe. intros p Hp Hstem.
    pose proof (payload_entry_of_stem w d p x Hx Hp Hstem) as ->.
    destruct Hp as (_ & name & _ & _ & [n Hn]). congruence.
Qed.

Lemma orphan_metadata_survives_witness :
  files sweep_world
    !! dataset_store._dataset_path ["srv"] "00000000000000000000000000000009"
  = None ∧
  ∃ w', sweep Datasets ["srv"] 50 sweep_world = (Returns 1, w')
        ∧ files w' !! dataset_store._meta_path ["srv"] "00000000000000000000000000000009"
          = Some (File 0 [Byte.x7b]).
Proof.
  assert (Habsent : files sweep_world
            !! dataset_store._dataset_path ["srv"] "00000000000000000000000000000009"
            = None) by by_computation.
  split; [exact Habsent|].
  set (r := sweep Datasets ["srv"] 50 sweep_world).
  assert (Hr : r = (Returns 1, snd r)) by by_computation.
  destruct (orphan_metadata_survives Datasets ["srv"] 50 sweep_world
              "00000000000000000000000000000009" (Returns 1) (snd r) Hr)
    as (_ & _ & Hkept).
  exists (snd r). split; [exact Hr|].
  rewrite Hkept; [by_computation | by_computation | exact Habsent].
Defined.

(* ===================================================================== *)
(** ** Further properties: text, columns and selections *)
(* ===================================================================== *)

Module PyTextFacts.
Import PyText PyStrFacts.

Lemma lstrip_starts_clean (s : string) : starts_clean (lstrip s).
Proof.
  induction s as [|c s IH]; simpl; [exact I|].
  destruct (is_space c) eqn:Hc; [exact IH | exact Hc].
Qed.

Lemma lstrip_fixed (s : string) : starts_clean s → lstrip s = s.
Proof. destruct s as [|c s]; simpl; [reflexivity|]. now intros ->. Qed.

Lemma rstrip_starts_clean (s : string) : starts_clean s → starts_clean (rstrip s).
Proof.
  destruct s as [|c s]; simpl; [auto|]. intros Hc.
  destruct (rstrip s); simpl; [now rewrite Hc | exact Hc].
Qed.

Lemma rstrip_idem (s : string) : rstrip (rstrip s) = rstrip s.
Proof.
  induction s as [|c s IH]; simpl; [reflexivity|].
  destruct (rstrip s) as [|c' r] eqn:Hr.
  - destruct (is_space c) eqn:Hc; simpl; [reflexivity | now rewrite Hc].
  - change (rstrip (String c (String c' r)))
      with (match rstrip (String c' r) with
            | EmptyString => if is_space c then EmptyString else String c EmptyString
            | r' => String c r'
            end).
    now rewrite IH.
Qed.

Lemma strip_idem (s : string) : strip (strip s) = strip s.
Proof.
  unfold strip.
  rewrite (lstrip_fixed (rstrip (lstrip s)))
    by apply rstrip_starts_clean, lstrip_starts_clean.
  apply rstrip_idem.
Qed.

Lemma strip_starts_clean (s : string) : starts_clean (strip s).
Proof. apply rstrip_starts_clean, lstrip_starts_clean. Qed.

Lemma rstrip_app_fixed (a b : string) :
  b ≠ "" → rstrip b = b → rstrip (a +:+ b) = a +:+ b.
Proof.
  intros Hb Hfix. induction a as [|c a IH]; [now rewrite app_nil_l|].
  rewrite app_cons. simpl. rewrite IH.
  destruct (a +:+ b) eqn:Hab; [|reflexivity].
  apply app_nil_inv in Hab as [_ ?]. contradiction.
Qed.

Lemma strip_app_fixed (a b : string) :
  a ≠ "" → strip a = a → b ≠ "" → rstrip b = b → strip (a +:+ b) = a +:+ b.
Proof.
  intros Ha Hfa Hb Hfb. unfold strip.
  assert (Hsc : starts_clean (a +:+ b)).
  { pose proof (strip_starts_clean a) as Hs. rewrite Hfa in Hs.
    destruct a as [|c a]; [contradiction|]. exact Hs. }
  rewrite (lstrip_fixed _ Hsc). now apply rstrip_app_fixed.
Qed.

Lemma underscore_free_app (a b : string) :
  underscore_free (a +:+ b) = underscore_free a && underscore_free b.
Proof.
  induction a as [|c a IH]; [reflexivity|].
  rewrite app_cons. simpl. rewrite IH. now rewrite andb_assoc.
Qed.

(** Splitting at the first underscore is unambiguous. *)
Lemma underscore_split (a b x y : string) :
  underscore_free a = true → underscore_free b = true →
  a +:+ "_" +:+ x = b +:+ "_" +:+ y → a = b ∧ x = y.
Proof.
  revert b. induction a as [|c a IH]; intros [|c' b] Ha Hb Heq;
    rewrite ?app_nil_l, ?app_cons in Heq.
  - now injection Heq.
  - injection Heq as <- _. simpl in Hb. discriminate Hb.
  - injection Heq as -> _. simpl in Ha. discriminate Ha.
  - injection Heq as -> Heq. simpl in Ha, Hb.
    apply andb_true_iff in Ha as [_ Ha]. apply andb_true_iff in Hb as [_ Hb].
    destruct (IH b Ha Hb Heq) as [-> ->]. auto.
Qed.

End PyTextFacts.

Section normalize_columns.
Import PyText PyStrFacts PyTextFacts.

Lemma occurrences_snoc (b x : string) (l : list string) :
  occurrences b (l ++ [x])
  = (occurrences b l + if decide (x = b) then 1 else 0)%nat.
Proof.
  unfold occurrences. rewrite filter_app, length_app. f_equal.
  rewrite filter_cons, filter_nil. now destruct (decide (x = b)).
Qed.

Lemma occurrences_app_le (b : string) (l k : list string) :
  (occurrences b l <= occurrences b (l ++ k))%nat.
Proof. unfold occurrences. rewrite filter_app, length_app. lia. Qed.

Lemma occurrences_zero (b : string) (l : list string) :
  b ∉ l → occurrences b l = 0%nat.
Proof.
  intros Hb. unfold occurrences.
  induction l as [|x l IH]; [reflexivity|].
  rewrite filter_cons. destruct (decide (x = b)) as [->|_].
  - destruct Hb. apply list_elem_of_here.
  - apply IH. intros Hin. apply Hb. now apply list_elem_of_further.
Qed.

Lemma normalize_loop_expected (columns : list (option string)) :
  ∀ (k : nat) (earlier : list string) (seen : gmap string Z)
    (cleaned : list string),
  (∀ b, default 0 (seen !! b) = Z.of_nat (occurrences b earlier)) →
  file_parser.normalize_loop columns (Z.of_nat k) seen cleaned
  = cleaned ++ expected_names k earlier columns.
Proof.
  induction columns as [|column rest IH]; intros k earlier seen cleaned Hseen.
  - simpl. now rewrite app_nil_r.
  - simpl. fold (base_name k column). set (b := base_name k column).
    replace (Z.of_nat k + 1) with (Z.of_nat (S k)) by lia.
    rewrite (IH (S k) (earlier ++ [b])).
    + rewrite <- List.app_assoc. simpl. do 2 f_equal.
      rewrite Hseen. unfold numbered.
      destruct (occurrences b earlier) as [|n] eqn:Hocc; [reflexivity|].
      replace (0 <? Z.of_nat (S n)) with true by (symmetry; apply Z.ltb_lt; lia).
      reflexivity.
    + intros b'. rewrite occurrences_snoc.
      destruct (decide (b = b')) as [<-|Hne].
      * rewrite lookup_insert_eq. simpl. rewrite Hseen. lia.
      * rewrite lookup_insert_ne by done. rewrite Hseen. lia.
Qed.

Lemma normalize_columns_expected (columns : list (option string)) :
  file_parser._normalize_columns columns = expected_names 0 [] columns.
Proof.
  unfold file_parser._normalize_columns.
  now rewrite (normalize_loop_expected columns 0 [] ∅ []).
Qed.

Lemma length_expected_names (columns : list (option string)) :
  ∀ k earlier, length (expected_names k earlier columns) = length columns.
Proof.
  induction columns as [|c rest IH]; intros k earlier; simpl; [reflexivity|].
  now rewrite IH.
Qed.

Lemma length_bases_from (columns : list (option string)) :
  ∀ k, length (bases_from k columns) = length columns.
Proof.
  induction columns as [|c rest IH]; intros k; simpl; [reflexivity|].
  now rewrite IH.
Qed.

Lemma bases_from_lookup (columns : list (option string)) :
  ∀ k i column,
  columns !! i = Some column →
  bases_from k columns !! i = Some (base_name (k + i) column).
Proof.
  induction columns as [|c rest IH]; intros k i column Hi; [discriminate|].
  destruct i as [|i]; simpl in *.
  - simplify_eq. now rewrite Nat.add_0_r.
  - rewrite (IH (S k) i column Hi). do 2 f_equal. lia.
Qed.

Lemma expected_names_lookup (columns : list (option string)) :
  ∀ k earlier i column,
  columns !! i = Some column →
  expected_names k earlier columns !! i
  = Some (numbered (base_name (k + i) column)
            (occurrences (base_name (k + i) column)
               (earlier ++ take i (bases_from k columns)))).
Proof.
  induction columns as [|c rest IH]; intros k earlier i column Hi; [discriminate|].
  destruct i as [|i]; simpl in *.
  - simplify_eq. now rewrite Nat.add_0_r, app_nil_r.
  - rewrite (IH (S k) (earlier ++ [base_name k c]) i column Hi).
    replace (S k + i)%nat with (k + S i)%nat by lia.
    now rewrite <- List.app_assoc.
Qed.

Lemma base_name_nonempty (k : nat) (column : option string) :
  base_name k column ≠ "".
Proof.
  unfold base_name. case_decide as Hn; [|exact Hn].
  change "column_" with (String "c" "olumn_"). now rewrite app_cons.
Qed.

Lemma numbered_nonempty (b : string) (n : nat) : b ≠ "" → numbered b n ≠ "".
Proof.
  intros Hb. destruct n; simpl; [exact Hb|].
  intros [? _]%app_nil_inv. contradiction.
Qed.

Lemma numbered_inj (b b' : string) (n n' : nat) :
  underscore_free b = true → underscore_free b' = true →
  numbered b n = numbered b' n' → b = b' ∧ n = n'.
Proof.
  intros Hb Hb' Heq. destruct n as [|n], n' as [|n']; simpl in Heq.
  - auto.
  - subst b. rewrite underscore_free_app in Hb.
    apply andb_true_iff in Hb as [_ Hb]. discriminate Hb.
  - subst b'. rewrite underscore_free_app in Hb'.
    apply andb_true_iff in Hb' as [_ Hb']. discriminate Hb'.
  - apply underscore_split in Heq as [-> Hp]; [|assumption..].
    split; [reflexivity|].
    unfold str_of_int in Hp. apply (inj pretty) in Hp. lia.
Qed.

Lemma base_name_clean (k : nat) (text : string) :
  strip text ≠ "" → base_name k (Some text) = strip text.
Proof. intros H. unfold base_name. now rewrite decide_False. Qed.

End normalize_columns.

Section selections.
Import PyText PyStrFacts PyTextFacts.

Lemma fromkeys_foldl (items : list string) :
  ∀ keys, NoDup keys →
  let r := foldl (λ keys x, if decide (x ∈ keys) then keys else keys ++ [x])
                 keys items in
  NoDup r ∧ (∀ x, x ∈ r ↔ x ∈ keys ∨ x ∈ items)
  ∧ ∃ added, r = keys ++ added ∧ sublist added items.
Proof.
  induction items as [|a items IH]; intros keys Hnd; simpl.
  - split; [exact Hnd|]. split.
    + intros x. rewrite elem_of_nil. tauto.
    + exists []. now rewrite app_nil_r.
  - destruct (decide (a ∈ keys)) as [Hin|Hout].
    + destruct (IH keys Hnd) as (H1 & H2 & added & H3 & H4).
      split; [exact H1|]. split.
      * intros x. rewrite H2, elem_of_cons. split; [tauto|].
        intros [?|[->|?]]; auto.
      * exists added. split; [exact H3|]. now apply sublist_cons.
    + assert (Hnd' : NoDup (keys ++ [a])).
      { apply NoDup_app. split; [exact Hnd|]. split; [|apply NoDup_singleton].
        intros x Hx [->|Hn]%elem_of_cons; [contradiction|].
        now apply not_elem_of_nil in Hn. }
      destruct (IH (keys ++ [a]) Hnd') as (H1 & H2 & added & H3 & H4).
      split; [exact H1|]. split.
      * intros x. rewrite H2, elem_of_app, !elem_of_cons, elem_of_nil. tauto.
      * exists (a :: added). split.
        -- rewrite H3. now rewrite <- List.app_assoc.
        -- now apply sublist_skip.
Qed.

Lemma fromkeys_list_spec (items : list string) :
  NoDup (fromkeys_list items)
  ∧ (∀ x, x ∈ fromkeys_list items ↔ x ∈ items)
  ∧ sublist (fromkeys_list items) items.
Proof.
  destruct (fromkeys_foldl items [] (NoDup_nil_2)) as (H1 & H2 & added & H3 & H4).
  unfold fromkeys_list. split; [exact H1|]. split.
  - intros x. rewrite H2, elem_of_nil. tauto.
  - now rewrite H3.
Qed.

Lemma fromkeys_foldl_NoDup (items : list string) :
  ∀ keys, NoDup (keys ++ items) →
  foldl (λ keys x, if decide (x ∈ keys) then keys else keys ++ [x]) keys items
  = keys ++ items.
Proof.
  induction items as [|a items IH]; intros keys Hnd; simpl.
  - now rewrite app_nil_r.
  - rewrite decide_False.
    + rewrite IH; rewrite <- List.app_assoc; [reflexivity | exact Hnd].
    + apply NoDup_app in Hnd as (_ & Hdis & _). intros Hin.
      apply (Hdis a Hin). apply list_elem_of_here.
Qed.

Lemma fromkeys_list_NoDup (items : list string) :
  NoDup items → fromkeys_list items = items.
Proof. intros Hnd. apply (fromkeys_foldl_NoDup items []). exact Hnd. Qed.

Lemma selectable_spec (name : string) :
  minexpy_adapter.selectable name = true ↔ strip name ≠ "".
Proof.
  unfold minexpy_adapter.selectable.
  rewrite andb_true_iff, !negb_true_iff, !bool_decide_eq_false. split.
  - tauto.
  - intros H. split; [|exact H]. intros ->. now apply H.
Qed.

Lemma strip_clean (s : string) : strip s ≠ "" → clean_name (strip s).
Proof. intros H. split; [exact H | apply strip_idem]. Qed.

(** The stripped values of the entries of [raw] that are not blank. *)
Lemma elem_of_stripped (raw : list string) (x : string) :
  x ∈ strip <$> List.filter minexpy_adapter.selectable raw
  ↔ x ≠ "" ∧ ∃ value, value ∈ raw ∧ strip value = x.
Proof.
  rewrite list_elem_of_fmap. split.
  - intros (value & -> & Hin). apply list_elem_of_In, filter_In in Hin as [Hin Hsel].
    apply selectable_spec in Hsel. split; [exact Hsel|].
    exists value. split; [now apply list_elem_of_In | reflexivity].
  - intros (Hne & value & Hin & <-). exists value. split; [reflexivity|].
    apply list_elem_of_In, filter_In. split; [now apply list_elem_of_In|].
    now apply selectable_spec.
Qed.

Lemma clean_selectable (names : list string) :
  Forall clean_name names →
  strip <$> List.filter minexpy_adapter.selectable names = names.
Proof.
  induction 1 as [|name names [Hne Hfix] _ IH]; [reflexivity|].
  cbn [List.filter]. replace (minexpy_adapter.selectable name) with true.
  - now rewrite fmap_cons, IH, Hfix.
  - symmetry. apply selectable_spec. now rewrite Hfix.
Qed.

End selections.

(* ===================================================================== *)
(** ** Further properties: directories and identifiers *)
(* ===================================================================== *)

Section mkdir.

Lemma if_bool_decide_iff {A} (P Q : Prop) `{!Decision P} `{!Decision Q}
    (x y : A) :
  (P ↔ Q) →
  (if bool_decide P then x else y) = (if bool_decide Q then x else y).
Proof. intros H. now rewrite (bool_decide_ext P Q H). Qed.

Lemma mkdir_level_run (final : bool) (p : path) (w : world) :
  mkdir_level final p w
  = match files w !! p with
    | Some (Dir _) => (Returns tt, w)
    | Some (File _ _) =>
        (Raises (if final then FileExistsError else NotADirectoryError), w)
    | None => (Returns tt, World (<[p := Dir (clock w)]> (files w)) (clock w) (trace w))
    end.
Proof.
  unfold mkdir_level. run_monad.
  now destruct (files w !! p) as [[t data|t]|].
Qed.

Lemma prefix_snoc_cases (done q : path) (c : string) (rest : list string) :
  done `prefix_of` q → q `prefix_of` done ++ c :: rest →
  q = done ∨ (done ++ [c]) `prefix_of` q.
Proof.
  intros [k ->] [k' Hk]. rewrite <- List.app_assoc in Hk.
  apply app_inv_head in Hk. destruct k as [|x k].
  - left. now rewrite app_nil_r.
  - right. simpl in Hk. injection Hk as -> _.
    exists k. now rewrite <- List.app_assoc.
Qed.

Lemma mkdir_from_returns (todo : list string) :
  ∀ (done : path) (w w' : world),
  mkdir_from done todo w = (Returns tt, w') →
  clock w' = clock w ∧ trace w' = trace w
  ∧ ∀ q, files w' !! q
         = match files w !! q with
           | Some n => Some n
           | None => if bool_decide (done `prefix_of` q
                                     ∧ q `prefix_of` done ++ todo)
                     then Some (Dir (clock w)) else None
           end.
Proof.
  induction todo as [|c rest IH]; intros done w w' Hrun.
  - simpl in Hrun. rewrite mkdir_level_run in Hrun. rewrite app_nil_r.
    destruct (files w !! done) as [[t data|t]|] eqn:Hd; simplify_eq.
    + repeat split. intros q. destruct (files w' !! q) eqn:Hq; [reflexivity|].
      rewrite bool_decide_eq_false_2; [reflexivity|].
      intros [H1 H2]. assert (q = done) by (now apply (anti_symm prefix)).
      congruence.
    + repeat split. intros q. simpl.
      destruct (decide (q = done)) as [->|Hne].
      * rewrite lookup_insert_eq, Hd. now rewrite bool_decide_eq_true_2.
      * rewrite lookup_insert_ne by done.
        destruct (files w !! q); [reflexivity|].
        rewrite bool_decide_eq_false_2; [reflexivity|].
        intros [H1 H2]. apply Hne. now apply (anti_symm prefix).
  - simpl in Hrun. rewrite run_bind, mkdir_level_run in Hrun.
    assert (Hsplit : ∀ q,
              done `prefix_of` q ∧ q `prefix_of` done ++ c :: rest
              ↔ q = done ∨ (done ++ [c] `prefix_of` q
                            ∧ q `prefix_of` (done ++ [c]) ++ rest)).
    { intros q. rewrite <- List.app_assoc. simpl. split.
      - intros [H1 H2].
        destruct (prefix_snoc_cases done q c rest H1 H2); auto.
      - intros [->|[H1 H2]].
        + split; [reflexivity | now apply prefix_app_r].
        + split; [|exact H2]. etrans; [|exact H1]. now apply prefix_app_r. }
    destruct (files w !! done) as [[t data|t]|] eqn:Hd; try discriminate.
    + apply IH in Hrun as (Hc & Ht & Hf).
      split; [exact Hc|]. split; [exact Ht|]. intros q. rewrite Hf.
      destruct (files w !! q) eqn:Hq; [reflexivity|].
      apply if_bool_decide_iff. rewrite Hsplit. split; [auto|].
      intros [->|H]; [congruence | exact H].
    + apply IH in Hrun as (Hc & Ht & Hf). simpl in Hc, Ht, Hf.
      split; [exact Hc|]. split; [exact Ht|]. intros q. rewrite Hf.
      destruct (decide (q = done)) as [->|Hne].
      * rewrite lookup_insert_eq, Hd.
        rewrite bool_decide_eq_true_2; [reflexivity|].
        split; [reflexivity | now apply prefix_app_r].
      * rewrite lookup_insert_ne by done.
        destruct (files w !! q) eqn:Hq; [reflexivity|].
        apply if_bool_decide_iff. rewrite Hsplit. split; [auto|].
        intros [->|H]; [congruence | exact H].
Qed.

Lemma mkdir_from_is_dir (todo : list string) :
  ∀ (done : path) (w w' : world),
  mkdir_from done todo w = (Returns tt, w') →
  is_dir (files w' !! (done ++ todo)) = true.
Proof.
  induction todo as [|c rest IH]; intros done w w' Hrun.
  - simpl in Hrun. rewrite mkdir_level_run in Hrun. rewrite app_nil_r.
    destruct (files w !! done) as [[t data|t]|] eqn:Hd; simplify_eq.
    + now rewrite Hd.
    + simpl. now rewrite lookup_insert_eq.
  - simpl in Hrun. rewrite run_bind, mkdir_level_run in Hrun.
    replace (done ++ c :: rest) with ((done ++ [c]) ++ rest)
      by now rewrite <- List.app_assoc.
    destruct (files w !! done) as [[t data|t]|]; try discriminate;
      now apply IH in Hrun.
Qed.

Lemma mkdir_returns (d : path) (w w' : world) :
  Path_mkdir_parents_exist_ok d w = (Returns tt, w') →
  clock w' = clock w
  ∧ is_dir (files w' !! d) = true
  ∧ ∀ q, files w' !! q = with_directories (files w) (clock w) d q.
Proof.
  unfold Path_mkdir_parents_exist_ok. rewrite run_bind. unfold log.
  intros Hrun. pose proof (mkdir_from_is_dir _ _ _ _ Hrun) as Hdir.
  apply mkdir_from_returns in Hrun as (Hc & _ & Hf).
  split; [exact Hc|]. split; [exact Hdir|]. intros q. rewrite Hf. simpl. unfold with_directories.
  destruct (files w !! q); [reflexivity|].
  apply if_bool_decide_iff. split; [tauto|]. intros H. split; [apply prefix_nil | exact H].
Qed.

Lemma mkdir_from_total (todo : list string) :
  ∀ (done : path) (w : world),
  (∀ q, done `prefix_of` q → q `prefix_of` done ++ todo →
        is_file (files w !! q) = false) →
  ∃ w', mkdir_from done todo w = (Returns tt, w').
Proof.
  induction todo as [|c rest IH]; intros done w Hfree.
  - simpl. rewrite mkdir_level_run.
    pose proof (Hfree done) as Hd. rewrite app_nil_r in Hd.
    specialize (Hd (reflexivity _) (reflexivity _)).
    destruct (files w !! done) as [[t data|t]|]; [discriminate|eauto..].
  - simpl. rewrite run_bind, mkdir_level_run.
    pose proof (Hfree done (reflexivity _) (prefix_app_r _ _ _ (reflexivity _))) as Hd.
    assert (Hrest : ∀ fsm : gmap path node,
              (∀ q, fsm !! q = files w !! q ∨ q = done) →
              ∀ q, done ++ [c] `prefix_of` q → q `prefix_of` (done ++ [c]) ++ rest →
                   is_file (fsm !! q) = false).
    { intros fsm Hfsm q H1 H2. destruct (Hfsm q) as [->| ->].
      - apply Hfree.
        + etrans; [|exact H1]. now apply prefix_app_r.
        + now rewrite <- List.app_assoc in H2.
      - now apply prefix_snoc_not in H1. }
    destruct (files w !! done) as [[t data|t]|] eqn:Hdone; [discriminate| |].
    + apply IH. apply Hrest. auto.
    + apply IH. simpl. apply Hrest. intros q.
      destruct (decide (q = done)) as [->|Hne]; [auto|].
      left. now rewrite lookup_insert_ne.
Qed.

Lemma mkdir_total (d : path) (w : world) :
  (∀ q, q `prefix_of` d → is_file (files w !! q) = false) →
  ∃ w', Path_mkdir_parents_exist_ok d w = (Returns tt, w').
Proof.
  intros Hfree. unfold Path_mkdir_parents_exist_ok. rewrite run_bind. unfold log.
  apply mkdir_from_total. intros q _ Hq. simpl. now apply Hfree.
Qed.

End mkdir.

Section uuid.
Import PyStr PyStrFacts.

Lemma len_hex_fixed (width : nat) (u : N) : len (hex_fixed width u) = Z.of_nat width.
Proof.
  revert u. induction width as [|w IH]; intros u; [reflexivity|].
  simpl hex_fixed. rewrite len_app, IH. simpl len. lia.
Qed.

Lemma hex_digit_inj (a b : N) :
  (a < 16)%N → (b < 16)%N → hex_digit a = hex_digit b → a = b.
Proof.
  intros Ha Hb Heq. apply (f_equal N_of_ascii) in Heq. unfold hex_digit in Heq.
  destruct (N.ltb_spec a 10), (N.ltb_spec b 10);
    rewrite !N_ascii_embedding in Heq by lia; lia.
Qed.

Lemma app_snoc_inj (s t : string) (a b : ascii) :
  s +:+ String a "" = t +:+ String b "" → s = t ∧ a = b.
Proof.
  intros Heq. pose proof (app_last_inj _ _ _ _ Heq) as ->.
  split; [|reflexivity]. now apply app_inv_tail in Heq.
Qed.

Lemma hex_fixed_inj (width : nat) (u v : N) :
  hex_fixed width u = hex_fixed width v →
  (u mod 16 ^ N.of_nat width = v mod 16 ^ N.of_nat width)%N.
Proof.
  revert u v. induction width as [|w IH]; intros u v Heq.
  - simpl. now rewrite !N.mod_1_r.
  - simpl hex_fixed in Heq. apply app_snoc_inj in Heq as [Hhi Hlo].
    apply IH in Hhi.
    apply hex_digit_inj in Hlo; [|apply N.mod_lt; discriminate..].
    rewrite Nat2N.inj_succ, N.pow_succ_r'.
    rewrite !N.Div0.mod_mul_r. now rewrite Hhi, Hlo.
Qed.

(** Distinct UUIDs have distinct hexadecimal forms. *)
Lemma uuid_hex_inj (u v : N) :
  (u < 2 ^ 128)%N → (v < 2 ^ 128)%N → uuid_hex u = uuid_hex v → u = v.
Proof.
  intros Hu Hv Heq. apply hex_fixed_inj in Heq.
  change (16 ^ N.of_nat 32)%N with (2 ^ 128)%N in Heq.
  now rewrite !N.mod_small in Heq.
Qed.

End uuid.

(* ===================================================================== *)
(** ** Further properties of the stores *)
(* ===================================================================== *)

(** X1. Every identifier a save returns is the hexadecimal form of the
    UUID drawn: 32 characters, all lower-case hexadecimal digits, and
    accepted by the pattern the loads validate identifiers with. *)
Theorem saved_ids_are_accepted {E : Externals} (u : N) (df : DataFrame)
    (source_filename : string) (d : path) (w : world) (id : string) (w1 : world) :
  dataset_store.save_dataset u df source_filename d w = (Returns id, w1)
  ∨ result_store.save_result u df d w = (Returns id, w1) →
  id = uuid_hex u ∧ PyStr.len id = 32
  ∧ is_hex32 id = true ∧ id_pattern_match id = true.
Proof.
  intros Hsave.
  assert (Hid : id = uuid_hex u).
  { destruct Hsave as [H|H].
    - now apply save_dataset_returns in H as [-> _].
    - now apply save_result_returns in H as [-> _]. }
  subst id. split; [reflexivity|]. split; [apply (len_hex_fixed 32)|].
  split; [apply uuid_hex_is_hex32 | apply uuid_hex_valid].
Qed.

Lemma saved_ids_are_accepted_witness :
  ∃ w1, result_store.save_result (E := plain_externals)
          255 scenario_payload scenario_dir empty_world
        = (Returns "000000000000000000000000000000ff", w1)
        ∧ id_pattern_match "000000000000000000000000000000ff" = true.
Proof.
  set (r := result_store.save_result (E := plain_externals)
              255 scenario_payload scenario_dir empty_world).
  assert (Hr : r = (Returns "000000000000000000000000000000ff", snd r))
    by by_computation.
  exists (snd r). split; [exact Hr|].
  apply (saved_ids_are_accepted (E := plain_externals) 255 scenario_payload ""
           scenario_dir empty_world _ (snd r)).
  right. exact Hr.
Defined.

(** X2. What a save does to the disk. When [save_dataset] returns, the
    storage directory and every ancestor of it that was missing exist as
    directories, the payload and metadata files are regular files stamped
    with the current time, every other path is as it was before, and the
    clock has not moved. *)
Theorem save_dataset_effect {E : Externals} (u : N) (df : DataFrame)
    (source_filename : string) (d : path) (w : world) (id : string) (w1 : world) :
  dataset_store.save_dataset u df source_filename d w = (Returns id, w1) →
  let p := dataset_store._dataset_path d id in
  let m := dataset_store._meta_path d id in
  clock w1 = clock w
  ∧ is_dir (files w1 !! d) = true
  ∧ files w1 !! p = Some (File (clock w) (to_pickle df))
  ∧ (∃ meta, files w1 !! m = Some (File (clock w) meta))
  ∧ ∀ q, q ≠ p → q ≠ m →
         files w1 !! q = with_directories (files w) (clock w) d q.
Proof.
  intros Hsave p m.
  pose proof Hsave as Hret.
  apply save_dataset_returns in Hret as (-> & wa & Hmk & Hc & Hf).
  apply mkdir_returns in Hmk as (Hca & Hda & Hfa). rewrite Hca in Hc, Hf.
  assert (Hpm : m ≠ p).
  { intros Heq. symmetry in Heq. revert Heq. apply dataset_paths_differ. }
  assert (Hother : ∀ q, q ≠ p → q ≠ m →
            files w1 !! q = with_directories (files w) (clock w) d q).
  { intros q Hqp Hqm. rewrite Hf. fold p m.
    rewrite !lookup_insert_ne by done. apply Hfa. }
  split; [exact Hc|]. split; [|split; [|split; [|exact Hother]]].
  - assert (Hdp : d ≠ p).
    { intros Heq. apply (f_equal length) in Heq. unfold p in Heq.
      unfold dataset_store._dataset_path, joinpath in Heq.
      rewrite length_app in Heq. simpl in Heq. lia. }
    assert (Hdm : d ≠ m).
    { intros Heq. apply (f_equal length) in Heq. unfold m in Heq.
      unfold dataset_store._meta_path, joinpath in Heq.
      rewrite length_app in Heq. simpl in Heq. lia. }
    rewrite (Hother d Hdp Hdm). now rewrite <- Hfa.
  - rewrite Hf. fold p m. now rewrite lookup_insert_ne, lookup_insert_eq.
  - rewrite Hf. fold p m. rewrite lookup_insert_eq. eauto.
Qed.

Lemma save_dataset_effect_witness :
  ∃ w1, dataset_store.save_dataset (E := plain_externals)
          255 scenario_payload "in.csv" scenario_dir empty_world
        = (Returns (uuid_hex 255), w1)
        ∧ is_dir (files w1 !! scenario_dir) = true
        ∧ files w1 !! ["srv"] = Some (Dir 1000).
Proof.
  set (r := dataset_store.save_dataset (E := plain_externals)
              255 scenario_payload "in.csv" scenario_dir empty_world).
  assert (Hr : r = (Returns (uuid_hex 255), snd r)) by by_computation.
  destruct (save_dataset_effect (E := plain_externals) 255 scenario_payload
              "in.csv" scenario_dir empty_world _ (snd r) Hr)
    as (_ & Hd & _ & _ & Hother).
  exists (snd r). split; [exact Hr|]. split; [exact Hd|].
  rewrite Hother; [by_computation | discriminate | discriminate].
Defined.

(** X3. When a save succeeds. [save_dataset] returns the identifier of
    the UUID drawn whenever no regular file stands at the storage
    directory or at one of its ancestors and no directory stands at the
    payload path or at the metadata path. *)
Theorem save_dataset_returns_on_free_paths {E : Externals} (u : N)
    (df : DataFrame) (source_filename : string) (d : path) (w : world) :
  (∀ q, q `prefix_of` d → is_file (files w !! q) = false) →
  is_dir (files w !! dataset_store._dataset_path d (uuid_hex u)) = false →
  is_dir (files w !! dataset_store._meta_path d (uuid_hex u)) = false →
  ∃ w1, dataset_store.save_dataset u df source_filename d w
        = (Returns (uuid_hex u), w1).
Proof.
  intros Hfree Hp Hm.
  set (p := dataset_store._dataset_path d (uuid_hex u)) in *.
  set (m := dataset_store._meta_path d (uuid_hex u)) in *.
  destruct (mkdir_total d w Hfree) as [wa Hmk].
  pose proof (mkdir_returns d w wa Hmk) as (Hc & Hd & Hf).
  assert (Hchild : ∀ name, joinpath d name `prefix_of` d → False).
  { intros name Hpre. now apply prefix_snoc_not in Hpre. }
  assert (Hpa : is_dir (files wa !! p) = false).
  { rewrite Hf. unfold with_directories.
    destruct (files w !! p); [exact Hp|].
    rewrite bool_decide_eq_false_2; [reflexivity | exact (Hchild _)]. }
  assert (Hma : is_dir (files wa !! m) = false).
  { rewrite Hf. unfold with_directories.
    destruct (files w !! m); [exact Hm|].
    rewrite bool_decide_eq_false_2; [reflexivity | exact (Hchild _)]. }
  unfold dataset_store.save_dataset. fold p m.
  rewrite run_bind, Hmk.
  rewrite run_bind, Path_write_bytes_run. unfold p at 1. 
  unfold dataset_store._dataset_path at 1. rewrite parent_joinpath.
  destruct (files wa !! d) as [[?|?]|] eqn:Hdn; try discriminate.
  fold (dataset_store._dataset_path d (uuid_hex u)). fold p. rewrite Hpa.
  rewrite run_bind, Path_write_bytes_run. cbn [files clock].
  unfold m at 1. unfold dataset_store._meta_path at 1. rewrite parent_joinpath.
  assert (Hdp : d ≠ p).
  { intros Heq. apply (f_equal length) in Heq. unfold p in Heq.
    unfold dataset_store._dataset_path, joinpath in Heq.
    rewrite length_app in Heq. simpl in Heq. lia. }
  rewrite lookup_insert_ne by (intros Heq; now apply Hdp).
  rewrite Hdn.
  fold (dataset_store._meta_path d (uuid_hex u)). fold m.
  rewrite lookup_insert_ne by apply dataset_paths_differ. rewrite Hma.
  eexists. reflexivity.
Qed.

Lemma save_dataset_returns_on_free_paths_witness :
  ∃ w1, dataset_store.save_dataset (E := plain_externals)
          7 scenario_payload "in.csv" ["srv"] sweep_world
        = (Returns (uuid_hex 7), w1).
Proof.
  apply (save_dataset_returns_on_free_paths (E := plain_externals)
           7 scenario_payload "in.csv" ["srv"] sweep_world).
  - intros q Hq.
    assert (Hcases : q = [] ∨ q = ["srv"]).
    { destruct Hq as [k Hk]. destruct q as [|a [|b q]].
      - now left.
      - right. now injection Hk as <-.
      - discriminate. }
    destruct Hcases as [-> | ->]; by_computation.
  - by_computation.
  - by_computation.
Defined.

(** X4. Saved datasets do not disturb one another. After a dataset is
    saved and then a second one is saved into the same directory under a
    different UUID, the first still loads, with its own data frame and
    file name. *)
Theorem saved_datasets_are_independent {E : Externals} (L : ExternalsLaws E)
    (u u' : N) (df df' : DataFrame) (fn fn' : string) (d : path) (ttl : Z)
    (w w1 w2 : world) (id id' : string) :
  (u < 2 ^ 128)%N → (u' < 2 ^ 128)%N → u ≠ u' → 0 <= ttl →
  dataset_store.save_dataset u df fn d w = (Returns id, w1) →
  dataset_store.save_dataset u' df' fn' d w1 = (Returns id', w2) →
  id ≠ id'
  ∧ ∃ w3, dataset_store.load_dataset id d ttl w2
          = (Returns (df, PStr (filename_or_default fn)), w3).
Proof.
  intros Hu Hu' Hne Httl Hs1 Hs2.
  apply save_dataset_returns in Hs1 as (-> & wa & Hmk1 & Hc1 & Hf1).
  apply save_dataset_returns in Hs2 as (-> & wb & Hmk2 & Hc2 & Hf2).
  apply mkdir_returns in Hmk1 as (Hca & _ & _).
  apply mkdir_returns in Hmk2 as (Hcb & _ & Hfb).
  assert (Hid : uuid_hex u ≠ uuid_hex u').
  { intros Heq. now apply Hne, uuid_hex_inj. }
  split; [exact Hid|].
  set (p := dataset_store._dataset_path d (uuid_hex u)) in *.
  set (m := dataset_store._meta_path d (uuid_hex u)) in *.
  set (p' := dataset_store._dataset_path d (uuid_hex u')) in *.
  set (m' := dataset_store._meta_path d (uuid_hex u')) in *.
  assert (Hpp : p' ≠ p).
  { intros Heq. apply joinpath_inj, PyStrFacts.app_inv_tail in Heq. congruence. }
  assert (Hmm : m' ≠ m).
  { intros Heq. apply joinpath_inj, PyStrFacts.app_inv_tail in Heq. congruence. }
  assert (Hpm : m ≠ p) by (intros Heq; symmetry in Heq; revert Heq; apply dataset_paths_differ).
  assert (Hpm' : m' ≠ p) by (intros Heq; symmetry in Heq; revert Heq; apply dataset_paths_differ).
  assert (Hmp' : p' ≠ m) by apply dataset_paths_differ.
  assert (Hkeep : ∀ q n, q ≠ p' → q ≠ m' →
            files w1 !! q = Some n → files w2 !! q = Some n).
  { intros q n H1 H2 Hq. rewrite Hf2. rewrite !lookup_insert_ne by done.
    rewrite Hfb. unfold with_directories. now rewrite Hq. }
  assert (Hp : files w2 !! p = Some (File (clock wa) (to_pickle df))).
  { apply Hkeep; [congruence | congruence|].
    rewrite Hf1. now rewrite lookup_insert_ne, lookup_insert_eq. }
  assert (Hm : files w2 !! m
               = Some (File (clock wa)
                         (json_dumps (PDict [("source_filename",
                            py_or (PStr fn) (PStr "uploaded_file"))])))).
  { apply Hkeep; [congruence | congruence|].
    rewrite Hf1. now rewrite lookup_insert_eq. }
  rewrite load_dataset_valid by apply uuid_hex_valid. fold p m.
  rewrite Hp. cbn [st_mtime].
  replace (clock w2) with (clock wa) by congruence.
  replace (ttl <? clock wa - clock wa) with false
    by (symmetry; apply Z.ltb_ge; lia).
  rewrite read_pickle_to_pickle.
  assert (Hname : stored_filename (files w2) m = PStr (filename_or_default fn)).
  { unfold stored_filename. rewrite Hm.
    rewrite py_or_filename, json_loads_dumps_meta. simpl dict_get.
    unfold py_or. simpl.
    now rewrite bool_decide_eq_false_2 by apply filename_or_default_nonempty. }
  rewrite Hname. eexists. reflexivity.
Qed.

Lemma saved_datasets_are_independent_witness :
  ∃ w1 w2 w3,
    dataset_store.save_dataset (E := plain_externals)
      255 scenario_payload "a.csv" scenario_dir empty_world
    = (Returns (uuid_hex 255), w1)
    ∧ dataset_store.save_dataset (E := plain_externals)
        256 [Byte.x62] "b.csv" scenario_dir w1
      = (Returns (uuid_hex 256), w2)
    ∧ dataset_store.load_dataset (E := plain_externals)
        (uuid_hex 255) scenario_dir 3600 w2
      = (Returns (scenario_payload, PStr "a.csv"), w3).
Proof.
  set (r1 := dataset_store.save_dataset (E := plain_externals)
               255 scenario_payload "a.csv" scenario_dir empty_world).
  assert (H1 : r1 = (Returns (uuid_hex 255), snd r1)) by by_computation.
  set (r2 := dataset_store.save_dataset (E := plain_externals)
               256 [Byte.x62] "b.csv" scenario_dir (snd r1)).
  assert (H2 : r2 = (Returns (uuid_hex 256), snd r2)) by by_computation.
  assert (Hu : (255 < 2 ^ 128)%N) by by_computation.
  assert (Hu' : (256 < 2 ^ 128)%N) by by_computation.
  assert (Hne : (255 ≠ 256)%N) by discriminate.
  assert (Httl : 0 <= 3600) by lia.
  destruct (saved_datasets_are_independent plain_externals_laws
              255 256 scenario_payload [Byte.x62] "a.csv" "b.csv"
              scenario_dir 3600 empty_world (snd r1) (snd r2)
              (uuid_hex 255) (uuid_hex 256) Hu Hu' Hne Httl H1 H2)
    as (_ & w3 & Hload).
  exists (snd r1), (snd r2), w3. auto.
Defined.

Section sweep_and_load.

Lemma swept_is_payload_or_meta (s : store) (w : world) (d : path) (ttl : Z)
    (q : path) :
  swept s w d ttl q →
  expired_payload w d (payload_suffix s) ttl q
  ∨ (s = Datasets
     ∧ ∃ p, expired_payload w d ".pkl" ttl p
            ∧ q = dataset_store._meta_path d (stem p)).
Proof.
  intros (p & Hp & [->|Hsib]); [now left|].
  destruct s; simpl in Hsib; [|now apply not_elem_of_nil in Hsib].
  apply elem_of_cons in Hsib as [->|Hsib]; [|now apply not_elem_of_nil in Hsib].
  right. split; [reflexivity|]. eauto.
Qed.

Lemma flat_after_sweep (s : store) (d : path) (ttl : Z) (w : world) (n : Z)
    (w' : world) (name : string) :
  sweep s d ttl w = (Returns n, w') →
  flat_under (files w) d = true →
  is_dir (files w' !! joinpath d name) = false.
Proof.
  intros Hrun Hflat.
  apply flat_under_spec. now apply (sweep_keeps_flat s d d ttl w n w').
Qed.

End sweep_and_load.

(** X5. A sweep cannot be seen through load. On a flat store directory,
    after a sweep that has returned, a load of any identifier at the same
    time gives the outcome it would have given without the sweep: the same
    payload and file name, or the same not-found error. *)
Theorem sweep_is_invisible_to_load {E : Externals} (id : string) (d : path)
    (ttl : Z) (w : world) :
  flat_under (files w) d = true →
  (∀ n w', sweep Datasets d ttl w = (Returns n, w') →
           fst (dataset_store.load_dataset id d ttl w')
           = fst (dataset_store.load_dataset id d ttl w))
  ∧ (∀ n w', sweep Results d ttl w = (Returns n, w') →
             fst (result_store.load_result_csv id d ttl w')
             = fst (result_store.load_result_csv id d ttl w)).
Proof.
  intros Hflat.
  destruct (id_pattern_match id) eqn:Hid.
  2:{ split; intros n w' _.
      - now rewrite !load_dataset_invalid.
      - now rewrite !load_result_csv_invalid. }
  split; intros n w' Hrun.
  - assert (Hflat' : ∀ name, is_dir (files w' !! joinpath d name) = false).
    { intros name. now apply (flat_after_sweep Datasets d ttl w n w' name). }
    pose proof (flat_under_spec _ _ Hflat) as Hflat0.
    pose proof (sweep_frame _ _ _ _ _ _ Hrun) as Hframe.
    pose proof Hrun as Hret.
    apply sweep_returns in Hret as (Hf & Hc & _ & _).
    rewrite !load_dataset_valid by exact Hid.
    set (p := dataset_store._dataset_path d id).
    set (m := dataset_store._meta_path d id).
    assert (Hsub : ∀ q, files w' !! q = None ∨ files w' !! q = files w !! q).
    { intros q. rewrite Hf, lookup_remove_all. destruct (decide _); auto. }
    destruct (files w !! p) as [node|] eqn:Hp.
    2:{ destruct (Hsub p) as [-> | ->]; [reflexivity | now rewrite Hp]. }
    assert (Hfile : ∃ t data, node = File t data).
    { assert (Hnd : is_dir (files w !! p) = false) by apply Hflat0.
      rewrite Hp in Hnd. destruct node; [eauto | discriminate]. }
    destruct Hfile as (t & data & ->). cbn [st_mtime is_dir]. rewrite Hc.
    destruct (ttl <? clock w - t) eqn:Hexp.
    + rewrite (is_dir_delete _ p m (Hflat0 _)).
      destruct (Hsub p) as [Hp' | Hp']; rewrite Hp'; [reflexivity|].
      rewrite Hp. cbn [st_mtime is_dir]. rewrite Hexp.
      now rewrite (is_dir_delete _ p m (Hflat' _)).
    + assert (Hp' : files w' !! p = Some (File t data)).
      { rewrite <- Hp. apply Hframe. intros Hsw.
        apply swept_is_payload_or_meta in Hsw as [[_ (n' & Hn' & Hlt)]|(_ & p' & _ & Heq)].
        - rewrite Hp in Hn'. injection Hn' as <-. simpl in Hlt.
          apply Z.ltb_ge in Hexp. lia.
        - revert Heq. apply dataset_paths_differ. }
      assert (Hm' : files w' !! m = files w !! m).
      { apply Hframe. intros Hsw.
        apply swept_is_payload_or_meta in Hsw as [[Hpe _]|(_ & p' & [Hpe Hold] & Heq)].
        - destruct Hpe as (_ & name & Heq & Hsuf & _).
          apply joinpath_inj in Heq. subst name.
          simpl in Hsuf. unfold dataset_store._DATASET_META_SUFFIX in Hsuf.
          now rewrite PyStrFacts.json_name_not_pkl in Hsuf.
        - apply joinpath_inj, PyStrFacts.app_inv_tail in Heq.
          pose proof (payload_entry_of_stem w d p' id Hid Hpe (eq_sym Heq)) as ->.
          destruct Hold as (n' & Hn' & Hlt). fold p in Hn'.
          rewrite Hp in Hn'. injection Hn' as <-. simpl in Hlt.
          apply Z.ltb_ge in Hexp. lia. }
      rewrite Hp'. cbn [st_mtime]. rewrite Hexp.
      destruct (read_pickle data); [|reflexivity].
      cbn [fst]. unfold stored_filename. now rewrite Hm'.
  - pose proof (flat_under_spec _ _ Hflat) as Hflat0.
    pose proof (sweep_frame _ _ _ _ _ _ Hrun) as Hframe.
    pose proof Hrun as Hret.
    apply sweep_returns in Hret as (Hf & Hc & _ & _).
    rewrite !load_result_csv_valid by exact Hid.
    set (p := joinpath d (id +:+ result_store.RESULT_FILE_SUFFIX)).
    assert (Hsub : ∀ q, files w' !! q = None ∨ files w' !! q = files w !! q).
    { intros q. rewrite Hf, lookup_remove_all. destruct (decide _); auto. }
    destruct (files w !! p) as [node|] eqn:Hp.
    2:{ destruct (Hsub p) as [-> | ->]; [reflexivity | now rewrite Hp]. }
    assert (Hfile : ∃ t data, node = File t data).
    { assert (Hnd : is_dir (files w !! p) = false) by apply Hflat0.
      rewrite Hp in Hnd. destruct node; [eauto | discriminate]. }
    destruct Hfile as (t & data & ->). cbn [st_mtime is_dir]. rewrite Hc.
    destruct (ttl <? clock w - t) eqn:Hexp.
    + destruct (Hsub p) as [Hp' | Hp']; rewrite Hp'; [reflexivity|].
      rewrite Hp. cbn [st_mtime is_dir]. now rewrite Hexp.
    + assert (Hp' : files w' !! p = Some (File t data)).
      { rewrite <- Hp. apply Hframe. intros Hsw.
        apply swept_is_payload_or_meta in Hsw as [[_ (n' & Hn' & Hlt)]|([=] & _)].
        rewrite Hp in Hn'. injection Hn' as <-. simpl in Hlt.
        apply Z.ltb_ge in Hexp. lia. }
      rewrite Hp'. cbn [st_mtime]. now rewrite Hexp.
Qed.

Lemma sweep_is_invisible_to_load_witness :
  flat_under (files sweep_world) ["srv"] = true
  ∧ ∃ w', sweep Datasets ["srv"] 50 sweep_world = (Returns 1, w')
          ∧ fst (dataset_store.load_dataset (E := plain_externals)
                   "00000000000000000000000000000001" ["srv"] 50 w')
            = Raises DatasetNotFoundError
          ∧ fst (dataset_store.load_dataset (E := plain_externals)
                   "00000000000000000000000000000001" ["srv"] 50 sweep_world)
            = Raises DatasetNotFoundError.
Proof.
  assert (Hflat : flat_under (files sweep_world) ["srv"] = true) by by_computation.
  split; [exact Hflat|].
  set (r := sweep Datasets ["srv"] 50 sweep_world).
  assert (Hr : r = (Returns 1, snd r)) by by_computation.
  destruct (sweep_is_invisible_to_load (E := plain_externals)
              "00000000000000000000000000000001" ["srv"] 50 sweep_world Hflat)
    as [Hd _].
  exists (snd r). split; [exact Hr|].
  assert (Hbefore : fst (dataset_store.load_dataset (E := plain_externals)
                           "00000000000000000000000000000001" ["srv"] 50 sweep_world)
                    = Raises DatasetNotFoundError) by by_computation.
  split; [|exact Hbefore]. rewrite (Hd 1 (snd r) Hr). exact Hbefore.
Defined.

(* ===================================================================== *)
(** ** Further properties: download and scheduling *)
(* ===================================================================== *)

(** X6. The three outcomes of [download_statistics]. It sends an
    attachment only for an identifier the pattern accepts whose file
    exists and is not expired: the file's bytes, as [text/csv], named
    after the first eight characters of the identifier. It answers 404
    with one fixed message when the identifier is rejected, the file is
    absent or the file is expired, without telling which. It raises only
    when a directory stands at the result path. *)
Theorem download_statistics_outcomes (cfg : app.config) (result_id : string)
    (w : world) :
  let p := joinpath (app.RESULT_STORAGE_DIR cfg) (result_id +:+ ".csv") in
  let ttl := app.RESULT_TTL_SECONDS cfg in
  match fst (routes_analysis.download_statistics cfg result_id w) with
  | Returns (routes_analysis.Attachment body mimetype download_name) =>
      id_pattern_match result_id = true
      ∧ (∃ t, files w !! p = Some (File t body) ∧ clock w - t <= ttl)
      ∧ mimetype = "text/csv"
      ∧ download_name = "analysis_" +:+ PyStr.slice_to 8 result_id +:+ ".csv"
  | Returns (routes_analysis.HomePage status message) =>
      status = 404 ∧ message = download_unavailable
      ∧ (id_pattern_match result_id = false
         ∨ files w !! p = None
         ∨ ∃ t data, files w !! p = Some (File t data) ∧ ttl < clock w - t)
  | Raises e =>
      e = IsADirectoryError ∧ is_dir (files w !! p) = true
  end.
Proof.
  intros p ttl. unfold routes_analysis.download_statistics,
    routes_analysis.try_except_ResultNotFoundError.
  rewrite run_bind. fold ttl.
  destruct (id_pattern_match result_id) eqn:Hid.
  2:{ rewrite load_result_csv_invalid by exact Hid. simpl. auto. }
  rewrite load_result_csv_valid by exact Hid.
  change (joinpath (app.RESULT_STORAGE_DIR cfg)
            (result_id +:+ result_store.RESULT_FILE_SUFFIX)) with p.
  destruct (files w !! p) as [[t data|t]|] eqn:Hp; cbn [st_mtime is_dir].
  - destruct (ttl <? clock w - t) eqn:Hexp; simpl.
    + apply Z.ltb_lt in Hexp. repeat split. right. right. eauto.
    + apply Z.ltb_ge in Hexp. repeat split. eauto.
  - destruct (ttl <? clock w - t); simpl; auto.
  - simpl. auto.
Qed.

(** X7. A saved result can be downloaded. With a ttl that is not
    negative, downloading the identifier [save_result] has returned, with
    no time elapsed, sends the CSV bytes that were written, as
    [text/csv], under a name built from the first eight hexadecimal
    digits of the identifier, and changes no file. *)
Theorem saved_result_downloads {E : Externals} (cfg : app.config) (u : N)
    (df : DataFrame) (w : world) (id : string) (w1 : world) :
  0 <= app.RESULT_TTL_SECONDS cfg →
  result_store.save_result u df (app.RESULT_STORAGE_DIR cfg) w = (Returns id, w1) →
  ∃ w2, routes_analysis.download_statistics cfg id w1
        = (Returns (routes_analysis.Attachment (to_csv df) "text/csv"
                      ("analysis_" +:+ PyStr.slice_to 8 id +:+ ".csv")), w2)
        ∧ files w2 = files w1
        ∧ PyStr.len (PyStr.slice_to 8 id) = 8.
Proof.
  intros Httl Hsave.
  apply save_result_returns in Hsave as (-> & wa & _ & Hc & Hf).
  unfold routes_analysis.download_statistics,
    routes_analysis.try_except_ResultNotFoundError.
  rewrite run_bind, load_result_csv_valid by apply uuid_hex_valid.
  assert (Hp : files w1 !! joinpath (app.RESULT_STORAGE_DIR cfg)
                 (uuid_hex u +:+ result_store.RESULT_FILE_SUFFIX)
               = Some (File (clock wa) (to_csv df))).
  { now rewrite Hf, lookup_insert_eq. }
  rewrite Hp. cbn [st_mtime]. rewrite Hc.
  replace (app.RESULT_TTL_SECONDS cfg <? clock wa - clock wa) with false
    by (symmetry; apply Z.ltb_ge; lia).
  eexists. split; [reflexivity|]. split; [reflexivity|].
  unfold uuid_hex.
  assert (Hlen : ∀ k s, Z.of_nat k <= PyStr.len s →
            PyStr.len (PyStr.slice_to k s) = Z.of_nat k).
  { induction k as [|k IH]; intros s Hs; [reflexivity|].
    destruct s as [|c s]; [simpl in Hs; lia|].
    cbn [PyStr.slice_to PyStr.len]. rewrite IH; [lia|].
    cbn [PyStr.len] in Hs. lia. }
  apply (Hlen 8%nat). rewrite len_hex_fixed. lia.
Qed.

Lemma saved_result_downloads_witness :
  ∃ w1 w2,
    result_store.save_result (E := plain_externals)
      255 scenario_payload ["srv"; "results"] empty_world
    = (Returns "000000000000000000000000000000ff", w1)
    ∧ routes_analysis.download_statistics example_config
        "000000000000000000000000000000ff" w1
      = (Returns (routes_analysis.Attachment scenario_payload "text/csv"
                    "analysis_00000000.csv"), w2).
Proof.
  set (r := result_store.save_result (E := plain_externals)
              255 scenario_payload ["srv"; "results"] empty_world).
  assert (Hr : r = (Returns "000000000000000000000000000000ff", snd r))
    by by_computation.
  assert (Httl : 0 <= app.RESULT_TTL_SECONDS example_config) by (simpl; lia).
  destruct (saved_result_downloads (E := plain_externals) example_config 255
              scenario_payload empty_world
              "000000000000000000000000000000ff" (snd r) Httl Hr)
    as (w2 & Hdl & _).
  exists (snd r), w2. split; [exact Hr | exact Hdl].
Defined.

Section budget.

Lemma spaced_span (interval : Z) (ts : list Z) :
  spaced interval ts →
  ∀ first final, head ts = Some first → last ts = Some final →
  (Z.of_nat (length ts) - 1) * interval <= final - first.
Proof.
  induction ts as [|t ts IH] using rev_ind; intros Hsp first final Hh Hl;
    [discriminate|].
  rewrite last_snoc in Hl. injection Hl as ->.
  destruct ts as [|t0 ts0] using rev_ind.
  - simpl in Hh. injection Hh as ->. simpl. lia.
  - clear IHts0.
    assert (Hsp' : spaced interval (ts0 ++ [t0])).
    { intros i a b Ha Hb. apply (Hsp i a b).
      - rewrite lookup_app_l; [exact Ha|]. now apply lookup_lt_Some in Ha.
      - rewrite lookup_app_l; [exact Hb|]. now apply lookup_lt_Some in Hb. }
    assert (Hh' : head (ts0 ++ [t0]) = Some first).
    { destruct ts0; simpl in *; exact Hh. }
    specialize (IH Hsp' first t0 Hh' (last_snoc _ _)).
    assert (Hstep : interval <= final - t0).
    { apply (Hsp (length ts0) t0 final).
      - rewrite lookup_app_l by (rewrite length_app; simpl; lia).
        now rewrite lookup_app_r, Nat.sub_diag by lia.
      - replace (S (length ts0)) with (length (ts0 ++ [t0]))
          by (rewrite length_app; simpl; lia).
        now rewrite lookup_app_r, Nat.sub_diag by lia. }
    rewrite !length_app in *. simpl length in *. nia.
Qed.

End budget.

(** X8. The sweeps that requests trigger are rationed: over any sequence
    of requests served after start-up in which no hook run has raised,
    the [k] sweeps of the result store that the hook has started span at
    least [(k - 1) * interval] of time between the first and the last. *)
Theorem request_sweeps_are_rationed (cfg : app.config) (reqs : list request)
    (w : world) (first final : Z) :
  let runs := hook_runs (serve cfg (Server 0 w []) reqs) in
  let starts := sweep_times (app.RESULT_STORAGE_DIR cfg) runs in
  Forall (λ h, returned h = true) runs →
  head starts = Some first →
  last starts = Some final →
  (Z.of_nat (length starts) - 1)
  * app.RESULT_CLEANUP_INTERVAL_SECONDS cfg <= final - first.
Proof.
  intros runs starts Hret Hfirst Hfinal.
  destruct (serve_scheduled cfg reqs (Server 0 w []) (scheduled_start cfg w))
    as (_ & Hsp & _).
  fold runs in Hsp.
  assert (Hstarts : starts = recorded_times cfg runs).
  { apply sweep_times_recorded. intros h Hh.
    now apply (proj1 (Forall_forall _ _) Hret). }
  rewrite <- Hstarts in Hsp.
  now apply (spaced_span _ _ Hsp).
Qed.

Lemma request_sweeps_are_rationed_witness :
  let runs := hook_runs (serve example_config (Server 0 empty_world [])
                           [Request 1000 id; Request 1100 id; Request 1300 id;
                            Request 1700 id]) in
  returned <$> runs = [true; true; true; true]
  ∧ sweep_times ["srv"; "results"] runs = [1000; 1300; 1700]
  ∧ (3 - 1) * 300 <= 1700 - 1000.
Proof.
  intros runs.
  assert (Hr : returned <$> runs = [true; true; true; true]) by by_computation.
  assert (Ht : sweep_times ["srv"; "results"] runs = [1000; 1300; 1700])
    by by_computation.
  split; [exact Hr|]. split; [exact Ht|].
  pose proof (request_sweeps_are_rationed example_config
                [Request 1000 id; Request 1100 id; Request 1300 id;
                 Request 1700 id] empty_world 1000 1700) as H.
  cbv zeta in H. fold runs in H.
  change (app.RESULT_STORAGE_DIR example_config) with ["srv"; "results"] in H.
  rewrite Ht in H. apply H; [|reflexivity|reflexivity].
  assert (Hall : forallb returned runs = true) by by_computation.
  apply Forall_forall. intros h Hh.
  rewrite forallb_forall in Hall. apply Hall. now apply list_elem_of_In.
Defined.

(* ===================================================================== *)
(** ** Further properties of the column names *)
(* ===================================================================== *)

Section normalize_theorems.
Import PyText PyStrFacts PyTextFacts.

(** X9. The names [_normalize_columns] gives, in closed form: the column
    at index [i] gets its base name (the stripped text, or [column_<i+1>]
    when that is empty) if no earlier column has the same base name, and
    the base name followed by [_<n+1>] when [n >= 1] earlier columns
    have. *)
Theorem normalize_columns_lookup (columns : list (option string)) (i : nat)
    (column : option string) :
  columns !! i = Some column →
  file_parser._normalize_columns columns !! i
  = Some (numbered (base_name i column)
            (occurrences (base_name i column)
               (take i (bases_from 0 columns)))).
Proof.
  intros Hi. rewrite normalize_columns_expected.
  now rewrite (expected_names_lookup columns 0 [] i column Hi).
Qed.

Lemma normalize_columns_lookup_witness :
  [Some " a "; Some "a"; None] !! 1%nat = Some (Some "a")
  ∧ file_parser._normalize_columns [Some " a "; Some "a"; None] !! 1%nat
    = Some "a_2".
Proof.
  split; [reflexivity|].
  rewrite (normalize_columns_lookup [Some " a "; Some "a"; None] 1 (Some "a"));
    [vm_compute; reflexivity | reflexivity].
Defined.

(** X10. [_normalize_columns] names every column and leaves none without a
    name: the result is as long as the input and holds no empty string. *)
Theorem normalize_columns_named (columns : list (option string)) :
  length (file_parser._normalize_columns columns) = length columns
  ∧ Forall (λ name, name ≠ "") (file_parser._normalize_columns columns).
Proof.
  rewrite normalize_columns_expected. split; [apply length_expected_names|].
  generalize 0%nat at 1. generalize (@nil string).
  induction columns as [|c rest IH]; intros earlier k; simpl; constructor.
  - apply numbered_nonempty, base_name_nonempty.
  - apply IH.
Qed.

Lemma bases_from_clean (names : list string) :
  Forall clean_name names → ∀ k, bases_from k (Some <$> names) = names.
Proof.
  induction 1 as [|name names [Hne Hfix] _ IH]; intros k; simpl; [reflexivity|].
  rewrite IH. f_equal. rewrite base_name_clean; rewrite Hfix; auto.
Qed.

(** X11. Column names that are already clean (not empty, no white space at
    either end) and pairwise distinct are returned unchanged. *)
Theorem normalize_columns_clean (names : list string) :
  NoDup names → Forall clean_name names →
  file_parser._normalize_columns (Some <$> names) = names.
Proof.
  intros Hnd Hclean. apply list_eq. intros i.
  destruct (names !! i) as [name|] eqn:Hi.
  - rewrite normalize_columns_expected.
    rewrite (expected_names_lookup _ 0 [] i (Some name))
      by (rewrite list_lookup_fmap, Hi; reflexivity).
    cbn [Nat.add app].
    rewrite bases_from_clean by assumption.
    assert (Hname : clean_name name).
    { rewrite Forall_forall in Hclean. apply Hclean.
      apply list_elem_of_lookup. eauto. }
    destruct Hname as [Hne Hfix].
    rewrite base_name_clean by (rewrite Hfix; assumption). rewrite Hfix.
    rewrite occurrences_zero; [reflexivity|].
    intros (j & Hj)%list_elem_of_lookup.
    apply lookup_take_Some in Hj as [Hj Hlt].
    pose proof (NoDup_lookup _ _ _ _ Hnd Hi Hj). lia.
  - apply lookup_ge_None. apply lookup_ge_None in Hi.
    rewrite normalize_columns_expected, length_expected_names, length_fmap.
    exact Hi.
Qed.

Lemma normalize_columns_clean_witness :
  NoDup ["Cu"; "Au ppm"; "Zn_1"] ∧ Forall clean_name ["Cu"; "Au ppm"; "Zn_1"]
  ∧ file_parser._normalize_columns [Some "Cu"; Some "Au ppm"; Some "Zn_1"]
    = ["Cu"; "Au ppm"; "Zn_1"].
Proof.
  assert (Hnd : NoDup ["Cu"; "Au ppm"; "Zn_1"]).
  { repeat (constructor;
            [rewrite ?elem_of_cons, ?elem_of_nil; intuition discriminate|]).
    constructor. }
  assert (Hcl : Forall clean_name ["Cu"; "Au ppm"; "Zn_1"]).
  { repeat constructor; discriminate. }
  split; [exact Hnd|]. split; [exact Hcl|].
  apply (normalize_columns_clean ["Cu"; "Au ppm"; "Zn_1"] Hnd Hcl).
Defined.

(** X12. When every column has a stripped name that is not empty and holds
    no underscore, the names [_normalize_columns] returns are pairwise
    distinct. *)
Theorem normalize_columns_unique (columns : list (option string)) :
  Forall (λ column, ∃ text, column = Some text ∧ strip text ≠ ""
                            ∧ underscore_free (strip text) = true) columns →
  NoDup (file_parser._normalize_columns columns).
Proof.
  intros Hcols. apply NoDup_alt. intros i j name Hi Hj.
  assert (Hcol : ∀ k, (k < length columns)%nat →
            ∃ text, columns !! k = Some (Some text) ∧ strip text ≠ ""
                    ∧ underscore_free (strip text) = true).
  { intros k Hk. destruct (lookup_lt_is_Some_2 columns k Hk) as [c Hc].
    rewrite Forall_forall in Hcols.
    destruct (Hcols c) as (text & -> & H1 & H2);
      [apply list_elem_of_lookup; eauto|]. eauto. }
  assert (Hlen : length (file_parser._normalize_columns columns) = length columns)
    by (rewrite normalize_columns_expected; apply length_expected_names).
  assert (Hil : (i < length columns)%nat)
    by (rewrite <- Hlen; now apply lookup_lt_Some in Hi).
  assert (Hjl : (j < length columns)%nat)
    by (rewrite <- Hlen; now apply lookup_lt_Some in Hj).
  destruct (Hcol i Hil) as (ti & Hci & Hni & Hui).
  destruct (Hcol j Hjl) as (tj & Hcj & Hnj & Huj).
  rewrite normalize_columns_expected in Hi, Hj.
  rewrite (expected_names_lookup columns 0 [] i _ Hci) in Hi.
  rewrite (expected_names_lookup columns 0 [] j _ Hcj) in Hj.
  cbn [Nat.add app] in Hi, Hj.
  rewrite base_name_clean in Hi, Hj by assumption.
  injection Hi as Hi. injection Hj as Hj. rewrite <- Hj in Hi.
  apply numbered_inj in Hi as [Hb Hocc]; [|assumption..].
  assert (Hstep : ∀ a b ta tb,
            (a < b)%nat →
            columns !! a = Some (Some ta) → strip ta ≠ "" →
            columns !! b = Some (Some tb) → strip ta = strip tb →
            (occurrences (strip ta) (take a (bases_from 0 columns))
             < occurrences (strip tb) (take b (bases_from 0 columns)))%nat).
  { intros a b ta tb Hlt Ha Hna Hb' Heq. rewrite <- Heq.
    pose proof (bases_from_lookup columns 0 a _ Ha) as Hba. simpl in Hba.
    rewrite base_name_clean in Hba by assumption.
    rewrite <- (take_drop (S a) (take b (bases_from 0 columns))).
    rewrite take_take, Nat.min_l by lia.
    rewrite (take_S_r _ a _ Hba).
    eapply Nat.lt_le_trans; [|apply occurrences_app_le].
    rewrite occurrences_snoc, decide_True by reflexivity. lia. }
  destruct (Nat.lt_trichotomy i j) as [Hlt|[Heq|Hgt]]; [|exact Heq|].
  - pose proof (Hstep i j ti tj Hlt Hci Hni Hcj Hb). lia.
  - pose proof (Hstep j i tj ti Hgt Hcj Hnj Hci (eq_sym Hb)). lia.
Qed.

Lemma normalize_columns_unique_witness :
  NoDup (file_parser._normalize_columns [Some "Cu"; Some " Cu"; Some "Zn"; Some "Cu "])
  ∧ file_parser._normalize_columns [Some "Cu"; Some " Cu"; Some "Zn"; Some "Cu "]
    = ["Cu"; "Cu_2"; "Zn"; "Cu_3"].
Proof.
  split; [|vm_compute; reflexivity].
  apply normalize_columns_unique.
  repeat (apply List.Forall_cons;
          [eexists; split; [reflexivity|]; split;
             [vm_compute; discriminate | vm_compute; reflexivity]|]).
  apply List.Forall_nil.
Defined.

(** X13. The names are not distinct in general: a column whose own name
    is the numbered form of an earlier duplicate collides with it. For
    every clean name [n], the columns [n], [n], [n_2] are named [n],
    [n_2], [n_2]. *)
Theorem normalize_columns_collision (n : string) :
  clean_name n →
  file_parser._normalize_columns [Some n; Some n; Some (n +:+ "_2")]
  = [n; n +:+ "_2"; n +:+ "_2"]
  ∧ ¬ NoDup (file_parser._normalize_columns [Some n; Some n; Some (n +:+ "_2")]).
Proof.
  intros [Hne Hfix].
  assert (Hfix2 : strip (n +:+ "_2") = n +:+ "_2").
  { apply strip_app_fixed; [assumption | assumption | discriminate | reflexivity]. }
  assert (Hne2 : n +:+ "_2" ≠ "").
  { intros [? _]%app_nil_inv. contradiction. }
  assert (Hdiff : n ≠ n +:+ "_2").
  { intros Heq. apply (f_equal PyStr.len) in Heq.
    rewrite len_app in Heq. simpl in Heq. lia. }
  assert (Hout : file_parser._normalize_columns [Some n; Some n; Some (n +:+ "_2")]
                 = [n; n +:+ "_2"; n +:+ "_2"]).
  { rewrite normalize_columns_expected. simpl.
    rewrite !base_name_clean by (rewrite ?Hfix, ?Hfix2; assumption).
    rewrite Hfix, Hfix2. unfold occurrences.
    rewrite filter_cons_True by reflexivity. rewrite filter_nil.
    rewrite !filter_cons_False by (intros Heq; now apply Hdiff).
    rewrite filter_nil. simpl length. cbn [numbered].
    change (str_of_int (Z.of_nat 1 + 1)) with "2".
    reflexivity. }
  split; [exact Hout|]. rewrite Hout.
  intros Hnd. apply NoDup_cons in Hnd as [_ Hnd].
  apply NoDup_cons in Hnd as [Hnd _]. apply Hnd, list_elem_of_here.
Qed.

Lemma normalize_columns_collision_witness :
  clean_name "Cu"
  ∧ file_parser._normalize_columns [Some "Cu"; Some "Cu"; Some "Cu_2"]
    = ["Cu"; "Cu_2"; "Cu_2"].
Proof.
  assert (Hc : clean_name "Cu") by (split; [discriminate | reflexivity]).
  split; [exact Hc|].
  exact (proj1 (normalize_columns_collision "Cu" Hc)).
Defined.

End normalize_theorems.

(* ===================================================================== *)
(** ** Further properties of the selections *)
(* ===================================================================== *)

Section selection_theorems.
Import PyText PyStrFacts PyTextFacts.

Lemma normalized_selection_clean (items : list string) :
  (∀ x, x ∈ items → clean_name x) →
  NoDup (fromkeys_list items) ∧ Forall clean_name (fromkeys_list items).
Proof.
  intros Hitems. destruct (fromkeys_list_spec items) as (Hnd & Hin & _).
  split; [exact Hnd|]. apply Forall_forall. intros x Hx. apply Hitems, Hin, Hx.
Qed.

Lemma stripped_clean (raw : list string) (x : string) :
  x ∈ strip <$> List.filter minexpy_adapter.selectable raw → clean_name x.
Proof.
  intros (Hne & value & _ & <-)%elem_of_stripped. now apply strip_clean.
Qed.

Lemma extracted_selection_clean (raw_values : list string)
    (legacy_value : option string) :
  NoDup (routes_analysis._extract_selected_columns_from_form raw_values legacy_value)
  ∧ Forall clean_name
      (routes_analysis._extract_selected_columns_from_form raw_values legacy_value).
Proof.
  unfold routes_analysis._extract_selected_columns_from_form.
  apply normalized_selection_clean. intros x.
  destruct (bool_decide (strip (default "" legacy_value) = "")) eqn:Hb; simpl.
  - apply stripped_clean.
  - apply bool_decide_eq_false in Hb.
    intros [Hx|[->|Hx]%elem_of_cons]%elem_of_app.
    + now apply stripped_clean in Hx.
    + now apply strip_clean.
    + now apply not_elem_of_nil in Hx.
Qed.

(** X14. What [_normalize_column_names] returns. When it passes, the
    selection is not empty, has no duplicates, holds only clean names,
    holds exactly the stripped values of the entries that are not blank,
    and keeps them in the order they were given. It raises
    [AnalysisError] exactly when every entry is blank. *)
Theorem normalize_column_names_spec (column_names : list string) :
  match minexpy_adapter._normalize_column_names column_names with
  | minexpy_adapter.Passed selected =>
      selected ≠ [] ∧ NoDup selected ∧ Forall clean_name selected
      ∧ (∀ x, x ∈ selected
              ↔ x ≠ "" ∧ ∃ value, value ∈ column_names ∧ strip value = x)
      ∧ sublist selected (strip <$> column_names)
  | minexpy_adapter.AnalysisError message =>
      message = "Please select at least one column to analyze."
      ∧ ∀ value, value ∈ column_names → strip value = ""
  end.
Proof.
  unfold minexpy_adapter._normalize_column_names.
  set (stripped := strip <$> List.filter minexpy_adapter.selectable column_names).
  destruct (fromkeys_list_spec stripped) as (Hnd & Hin & Hsub).
  assert (Hmem : ∀ x, x ∈ fromkeys_list stripped
            ↔ x ≠ "" ∧ ∃ value, value ∈ column_names ∧ strip value = x).
  { intros x. rewrite Hin. apply elem_of_stripped. }
  destruct (fromkeys_list stripped) as [|a sel] eqn:Hsel.
  - split; [reflexivity|]. intros value Hvalue.
    destruct (decide (strip value = "")) as [|Hne]; [assumption|].
    assert (Hx : strip value ∈ @nil string) by (apply Hmem; eauto).
    now apply not_elem_of_nil in Hx.
  - split; [discriminate|]. split; [exact Hnd|]. split; [|split; [exact Hmem|]].
    + apply Forall_forall. intros x Hx. apply Hmem in Hx as (Hne & value & _ & <-).
      now apply strip_clean.
    + etrans; [exact Hsub|]. subst stripped. clear.
      induction column_names as [|c l IH]; [constructor|].
      cbn [List.filter]. rewrite fmap_cons.
      destruct (minexpy_adapter.selectable c).
      * rewrite fmap_cons. now apply sublist_skip.
      * now apply sublist_cons.
Qed.

(** X15. [_normalize_column_names] is idempotent: a selection it has
    returned passes again, unchanged. *)
Theorem normalize_column_names_idempotent (column_names selected : list string) :
  minexpy_adapter._normalize_column_names column_names
  = minexpy_adapter.Passed selected →
  minexpy_adapter._normalize_column_names selected
  = minexpy_adapter.Passed selected.
Proof.
  intros Hrun.
  assert (Hsel : selected
                 = fromkeys_list
                     (strip <$> List.filter minexpy_adapter.selectable column_names)
                 ∧ selected ≠ []).
  { unfold minexpy_adapter._normalize_column_names in Hrun.
    destruct (fromkeys_list _); [discriminate|].
    injection Hrun as <-. split; [reflexivity | discriminate]. }
  destruct Hsel as [Hsel Hne].
  destruct (normalized_selection_clean
              (strip <$> List.filter minexpy_adapter.selectable column_names)
              (stripped_clean column_names)) as [Hnd Hclean].
  rewrite <- Hsel in Hnd, Hclean.
  unfold minexpy_adapter._normalize_column_names.
  rewrite clean_selectable by assumption.
  rewrite fromkeys_list_NoDup by assumption.
  now destruct selected.
Qed.

Lemma normalize_column_names_idempotent_witness :
  minexpy_adapter._normalize_column_names [" Cu"; ""; "Zn"; "Cu "; "  "]
  = minexpy_adapter.Passed ["Cu"; "Zn"]
  ∧ minexpy_adapter._normalize_column_names ["Cu"; "Zn"]
    = minexpy_adapter.Passed ["Cu"; "Zn"].
Proof.
  assert (H : minexpy_adapter._normalize_column_names [" Cu"; ""; "Zn"; "Cu "; "  "]
              = minexpy_adapter.Passed ["Cu"; "Zn"]) by (vm_compute; reflexivity).
  split; [exact H|].
  exact (normalize_column_names_idempotent _ _ H).
Defined.

(** X16. What [_extract_selected_columns_from_form] returns: no
    duplicates, only clean names, exactly the stripped values of the
    submitted [column_names] entries and of the legacy [column_name]
    field that are not blank. *)
Theorem extract_selected_columns_spec (raw_values : list string)
    (legacy_value : option string) :
  let selected :=
    routes_analysis._extract_selected_columns_from_form raw_values legacy_value in
  NoDup selected ∧ Forall clean_name selected
  ∧ ∀ x, x ∈ selected
         ↔ x ≠ "" ∧ ((∃ value, value ∈ raw_values ∧ strip value = x)
                     ∨ ∃ value, legacy_value = Some value ∧ strip value = x).
Proof.
  unfold routes_analysis._extract_selected_columns_from_form.
  set (stripped := strip <$> List.filter minexpy_adapter.selectable raw_values).
  set (legacy := strip (default "" legacy_value)).
  set (items := if negb (bool_decide (legacy = ""))
                then stripped ++ [legacy] else stripped).
  destruct (fromkeys_list_spec items) as (Hnd & Hin & _).
  assert (Hitems : ∀ x, x ∈ items
            ↔ x ≠ "" ∧ ((∃ value, value ∈ raw_values ∧ strip value = x)
                        ∨ ∃ value, legacy_value = Some value ∧ strip value = x)).
  { intros x. subst items.
    assert (Hleg : (∃ value, legacy_value = Some value ∧ strip value = x) ∧ x ≠ ""
                   ↔ x = legacy ∧ legacy ≠ "").
    { subst legacy. destruct legacy_value as [v|]; simpl.
      - split.
        + intros [(value & [= <-] & <-) Hne]. auto.
        + intros [-> Hne]. eauto.
      - split.
        + intros [(value & [=] & _) _].
        + intros [-> Hne]. now destruct Hne. }
    destruct (bool_decide (legacy = "")) eqn:Hb; simpl.
    - apply bool_decide_eq_true in Hb. unfold stripped.
      rewrite elem_of_stripped. split; [tauto|].
      intros [Hne [H|H]]; [tauto|]. exfalso.
      destruct (proj1 Hleg (conj H Hne)) as [_ Hl]. contradiction.
    - apply bool_decide_eq_false in Hb.
      rewrite elem_of_app, elem_of_cons, elem_of_nil. unfold stripped.
      rewrite elem_of_stripped. split.
      + intros [[Hne H]|[->|[]]]; [tauto|].
        destruct (proj2 Hleg (conj eq_refl Hb)) as [H Hne]. tauto.
      + intros [Hne [H|H]]; [tauto|]. right. left.
        now destruct (proj1 Hleg (conj H Hne)). }
  split; [exact Hnd|]. split.
  - apply Forall_forall. intros x Hx. apply Hin, Hitems in Hx as [Hne Hx].
    destruct Hx as [(value & _ & <-)|(value & _ & <-)]; now apply strip_clean.
  - intros x. rewrite Hin. apply Hitems.
Qed.

(** X17. The adapter accepts what the route has accepted: a selection
    extracted from the form that is not empty and names only available
    columns (the two checks of [generate_statistics]) passes
    [_normalize_column_names] unchanged and passes
    [_assert_columns_exist]. *)
Theorem route_selection_passes_adapter (raw_values : list string)
    (legacy_value : option string) (available_columns : list string) :
  let selected :=
    routes_analysis._extract_selected_columns_from_form raw_values legacy_value in
  selected ≠ [] →
  (∀ name, name ∈ selected → name ∈ available_columns) →
  minexpy_adapter._normalize_column_names selected
  = minexpy_adapter.Passed selected
  ∧ minexpy_adapter._assert_columns_exist available_columns selected
    = minexpy_adapter.Passed tt.
Proof.
  intros selected Hne Havail.
  destruct (extracted_selection_clean raw_values legacy_value) as [Hnd Hclean].
  fold selected in Hnd, Hclean.
  split.
  - unfold minexpy_adapter._normalize_column_names.
    rewrite clean_selectable by assumption.
    rewrite fromkeys_list_NoDup by assumption.
    now destruct selected.
  - unfold minexpy_adapter._assert_columns_exist.
    replace (List.filter _ selected) with (@nil string); [reflexivity|].
    symmetry. clear Hne Hnd Hclean.
    induction selected as [|a l IH]; [reflexivity|]. simpl.
    rewrite bool_decide_eq_true_2 by (apply Havail, list_elem_of_here).
    simpl. apply IH. intros name Hname. apply Havail.
    now apply list_elem_of_further.
Qed.

Lemma route_selection_passes_adapter_witness :
  routes_analysis._extract_selected_columns_from_form [" Cu"; "Zn"; "Cu"] (Some "Au ")
  = ["Cu"; "Zn"; "Au"]
  ∧ minexpy_adapter._normalize_column_names ["Cu"; "Zn"; "Au"]
    = minexpy_adapter.Passed ["Cu"; "Zn"; "Au"]
  ∧ minexpy_adapter._assert_columns_exist ["Au"; "Cu"; "Pb"; "Zn"] ["Cu"; "Zn"; "Au"]
    = minexpy_adapter.Passed tt.
Proof.
  assert (Hsel : routes_analysis._extract_selected_columns_from_form
                   [" Cu"; "Zn"; "Cu"] (Some "Au ") = ["Cu"; "Zn"; "Au"])
    by (vm_compute; reflexivity).
  split; [exact Hsel|]. rewrite <- Hsel.
  apply (route_selection_passes_adapter [" Cu"; "Zn"; "Cu"] (Some "Au ")
           ["Au"; "Cu"; "Pb"; "Zn"]).
  - rewrite Hsel. discriminate.
  - rewrite Hsel. intros name Hname.
    repeat (apply elem_of_cons in Hname as [->|Hname];
            [rewrite !elem_of_cons; tauto|]).
    now apply not_elem_of_nil in Hname.
Defined.

End selection_theorems.
